(** * Ledger and order engine of the SMM panel backend

    A shallow embedding of [backend/server.py]: the pydantic models, the
    MongoDB collections the handlers read and write, and the handlers
    themselves, written as coroutines that suspend at every [await].

    - [Binary64]: Python's [float] (IEEE 754 binary64, round to nearest even)
      on top of the Standard Library's executable [SpecFloat] model.
    - [Mongo]: the collection primitives the handlers call.
    - the models [User], [Service], [Order], [OrderCreate], [Transaction].
    - [coro]: coroutines over storage calls, with a serial run and an
      interleaved run (one storage call per scheduling step).
    - the handlers, named as in the source, and every route of the server.
    - [Seed]: the seeding script [backend/seed_data.py]. *)

From Stdlib Require Import ZArith List String Ascii Bool Lia QArith.
From Stdlib Require Import SpecFloat DecimalString Sorted Permutation.
Import ListNotations.
Local Open Scope string_scope.
Local Open Scope Z_scope.

(** ** Python floats *)

Module Binary64.

Definition prec : Z := 53.
Definition emax : Z := 1024.

Definition float : Type := spec_float.

Definition add : float -> float -> float := SFadd prec emax.
Definition mul : float -> float -> float := SFmul prec emax.
Definition div : float -> float -> float := SFdiv prec emax.
Definition neg : float -> float := SFopp.
Definition ltb : float -> float -> bool := SFltb.
Definition leb : float -> float -> bool := SFleb.

Definition zero : float := S754_zero false.
Definition nan : float := S754_nan.
Definition inf : float := S754_infinity false.

Definition is_nan (x : float) : bool :=
  match x with S754_nan => true | _ => false end.

Definition is_inf (x : float) : bool :=
  match x with S754_infinity _ => true | _ => false end.

Definition is_finite (x : float) : bool :=
  match x with S754_zero _ | S754_finite _ _ _ => true | _ => false end.

(** The values a binary64 cell can hold: canonical mantissa, exponent in
    range. *)
Definition valid (x : float) : bool := valid_binary prec emax x.

(** An integer as an exact (unrounded) significand with exponent 0. *)
Definition of_int (n : Z) : float :=
  match n with
  | Z0 => S754_zero false
  | Zpos p => S754_finite false p 0
  | Zneg p => S754_finite true p 0
  end.

(** The quotient [a / b] of two integers, rounded once to the nearest
    binary64 value.  This is what Python computes for [int / int] and what
    it reads a decimal literal as ([2.50] is [ratio 250 100]). *)
Definition ratio (a b : Z) : float := div (of_int a) (of_int b).

(** The exact value of a finite float as a rational number. *)
Definition to_Q (x : float) : Q :=
  match x with
  | S754_finite s m e =>
      let n := cond_Zopp s (Zpos m) in
      match e with
      | Z0 => inject_Z n
      | Zpos p => inject_Z (n * Z.pow_pos 2 p)
      | Zneg p => Qmake n (Pos.pow 2 p)
      end
  | _ => 0%Q
  end.

Definition float_eq_dec (x y : float) : {x = y} + {x <> y}.
Proof.
  decide equality;
    solve [apply Bool.bool_dec | apply Z.eq_dec | apply Pos.eq_dec].
Defined.

End Binary64.

Import Binary64.

(** ** MongoDB collections

    A collection is the list of its documents in insertion order.  A query
    document is modelled by the predicate it denotes, an update document by
    the function it applies. *)

Module Mongo.

Record UpdateResult := { matched_count : Z; modified_count : Z }.

Section Collection.
Context {D : Type}.
Variable D_eq_dec : forall x y : D, {x = y} + {x <> y}.

(** [find_one]: the first document that matches, if any. *)
Fixpoint find_one (query : D -> bool) (c : list D) : option D :=
  match c with
  | [] => None
  | d :: c' => if query d then Some d else find_one query c'
  end.

(** [find]: all the documents that match, in natural order. *)
Definition find (query : D -> bool) (c : list D) : list D :=
  filter query c.

Definition insert_one (d : D) (c : list D) : list D := c ++ [d].

(** [update_one]: the update applied to the first document that
    matches. *)
Fixpoint update_one (query : D -> bool) (update : D -> D) (c : list D)
  : list D :=
  match c with
  | [] => []
  | d :: c' =>
      if query d then update d :: c'
      else d :: update_one query update c'
  end.

(** [matched_count] counts the document selected, [modified_count]
    counts it only when the update changed it. *)
Definition update_result (query : D -> bool) (update : D -> D)
  (c : list D) : UpdateResult :=
  match find_one query c with
  | None => {| matched_count := 0; modified_count := 0 |}
  | Some d =>
      {| matched_count := 1;
         modified_count := if D_eq_dec (update d) d then 0 else 1 |}
  end.

(** [cursor.sort(key, -1)]: a stable sort, greatest key first. *)
Fixpoint insert_desc (key : D -> string) (d : D) (l : list D) : list D :=
  match l with
  | [] => [d]
  | x :: l' =>
      if String.ltb (key d) (key x) then x :: insert_desc key d l'
      else d :: l
  end.

Definition sort_desc (key : D -> string) (l : list D) : list D :=
  fold_right (insert_desc key) [] l.

(** [cursor.to_list(n)]. *)
Definition to_list (n : nat) (l : list D) : list D := firstn n l.

End Collection.

End Mongo.

(** ** Models *)

Module User.
Record t := {
  id : string;
  email : string;
  name : string;
  balance : float;
  role : string;
  created_at : string;
  password_hash : string
}.

Definition eq_dec (x y : t) : {x = y} + {x <> y}.
Proof. decide equality; solve [apply string_dec | apply float_eq_dec]. Defined.

(** The query [{"id": x}]. *)
Definition has_id (x : string) (u : t) : bool := String.eqb (id u) x.

(** [{"$inc": {"balance": v}}] *)
Definition inc_balance (v : float) (u : t) : t :=
  {| id := id u; email := email u; name := name u;
     balance := add (balance u) v;
     role := role u; created_at := created_at u;
     password_hash := password_hash u |}.
End User.

Module Service.
Record t := {
  id : string;
  platform : string;
  service_type : string;
  name : string;
  rate : float;
  min_quantity : Z;
  max_quantity : Z;
  description : string;
  created_at : string
}.

Definition eq_dec (x y : t) : {x = y} + {x <> y}.
Proof.
  decide equality;
    solve [apply string_dec | apply float_eq_dec | apply Z.eq_dec].
Defined.

(** The query [{"id": x}]. *)
Definition has_id (x : string) (s : t) : bool := String.eqb (id s) x.
End Service.

Module Order.
Record t := {
  id : string;
  user_id : string;
  service_id : string;
  link : string;
  quantity : Z;
  total_cost : float;
  status : string;
  created_at : string;
  completed_at : option string
}.

Definition eq_dec (x y : t) : {x = y} + {x <> y}.
Proof.
  decide equality;
    solve [apply string_dec | apply float_eq_dec | apply Z.eq_dec
          | decide equality; apply string_dec].
Defined.

(** The queries [{"id": x}] and [{"user_id": x}]. *)
Definition has_id (x : string) (o : t) : bool := String.eqb (id o) x.
Definition has_user_id (x : string) (o : t) : bool :=
  String.eqb (user_id o) x.

(** [{"$set": update_data}], where [update_data] always has the key
    ["status"] and has the key ["completed_at"] only when given. *)
Definition set_status (new_status : string) (stamp : option string)
  (o : t) : t :=
  {| id := id o; user_id := user_id o; service_id := service_id o;
     link := link o; quantity := quantity o; total_cost := total_cost o;
     status := new_status;
     created_at := created_at o;
     completed_at := match stamp with
                     | Some s => Some s
                     | None => completed_at o
                     end |}.
End Order.

Module OrderCreate.
Record t := {
  service_id : string;
  link : string;
  quantity : Z
}.
End OrderCreate.

Module Transaction.
Record t := {
  id : string;
  user_id : string;
  amount : float;
  type : string;
  status : string;
  created_at : string
}.

Definition eq_dec (x y : t) : {x = y} + {x <> y}.
Proof. decide equality; solve [apply string_dec | apply float_eq_dec]. Defined.

(** The query [{"id": x}]. *)
Definition has_id (x : string) (d : t) : bool := String.eqb (id d) x.

(** [{"$set": {"status": new_status}}] *)
Definition set_status (new_status : string) (x : t) : t :=
  {| id := id x; user_id := user_id x; amount := amount x;
     type := type x; status := new_status; created_at := created_at x |}.
End Transaction.

(** ** Exceptions *)

Inductive exn :=
| HTTPException (status_code : Z) (detail : string)
| OverflowError
| ZeroDivisionError.

Definition exn_eq_dec (x y : exn) : {x = y} + {x <> y}.
Proof. decide equality; solve [apply string_dec | apply Z.eq_dec]. Defined.

(** The failures of the engine, by the name the specification gives them. *)
Definition ServiceNotFound : exn := HTTPException 404 "Service not found".
Definition InsufficientBalance : exn :=
  HTTPException 400 "Insufficient balance".
Definition OrderNotFound : exn := HTTPException 404 "Order not found".
Definition InvalidStatus : exn := HTTPException 400 "Invalid status".
Definition InvalidAmount : exn := HTTPException 400 "Amount must be positive".
Definition InvalidAction : exn := HTTPException 400 "Invalid action".
Definition TransactionNotFound : exn :=
  HTTPException 404 "Transaction not found".
Definition AlreadyProcessed : exn :=
  HTTPException 400 "Transaction already processed".

(** [str(n)] for a Python integer. *)
Definition str (n : Z) : string := NilZero.string_of_int (Z.to_int n).

Definition QuantityOutOfRange (min_quantity max_quantity : Z) : exn :=
  HTTPException 400
    ("Quantity must be between " ++ str min_quantity ++ " and "
       ++ str max_quantity).

(** ** The database *)

Module db.
Inductive collection := users | services | orders | transactions.
End db.

Definition doc (c : db.collection) : Type :=
  match c with
  | db.users => User.t
  | db.services => Service.t
  | db.orders => Order.t
  | db.transactions => Transaction.t
  end.

Definition doc_eq_dec (c : db.collection)
  : forall x y : doc c, {x = y} + {x <> y} :=
  match c with
  | db.users => User.eq_dec
  | db.services => Service.eq_dec
  | db.orders => Order.eq_dec
  | db.transactions => Transaction.eq_dec
  end.

Record Database := {
  users : list User.t;
  services : list Service.t;
  orders : list Order.t;
  transactions : list Transaction.t
}.

Definition get (c : db.collection) (st : Database) : list (doc c) :=
  match c with
  | db.users => users st
  | db.services => services st
  | db.orders => orders st
  | db.transactions => transactions st
  end.

Definition set (c : db.collection) : list (doc c) -> Database -> Database :=
  match c with
  | db.users => fun l st =>
      {| users := l; services := services st; orders := orders st;
         transactions := transactions st |}
  | db.services => fun l st =>
      {| users := users st; services := l; orders := orders st;
         transactions := transactions st |}
  | db.orders => fun l st =>
      {| users := users st; services := services st; orders := l;
         transactions := transactions st |}
  | db.transactions => fun l st =>
      {| users := users st; services := services st; orders := orders st;
         transactions := l |}
  end.

(** The storage calls of the handlers.  Each one is atomic in the store and
    is a suspension point of the coroutine that awaits it. *)
Inductive db_op : Type -> Type :=
| find_one (c : db.collection) (query : doc c -> bool)
  : db_op (option (doc c))
| find (c : db.collection) (query : doc c -> bool) : db_op (list (doc c))
| insert_one (c : db.collection) (d : doc c) : db_op unit
| update_one (c : db.collection) (query : doc c -> bool)
    (update : doc c -> doc c) : db_op Mongo.UpdateResult.

Definition exec {R : Type} (op : db_op R) (st : Database) : R * Database :=
  match op with
  | find_one c query => (Mongo.find_one query (get c st), st)
  | find c query => (Mongo.find query (get c st), st)
  | insert_one c d => (tt, set c (Mongo.insert_one d (get c st)) st)
  | update_one c query update =>
      (Mongo.update_result (doc_eq_dec c) query update (get c st),
       set c (Mongo.update_one query update (get c st)) st)
  end.

(** ** Coroutines

    An [async def] body: it returns, raises, or awaits a storage call and
    goes on with its result. *)
Inductive coro (A : Type) : Type :=
| Return (a : A)
| Raise (e : exn)
| Await {R : Type} (op : db_op R) (k : R -> coro A).

Arguments Return {A} a.
Arguments Raise {A} e.
Arguments Await {A R} op k.

Fixpoint bind {A B : Type} (c : coro A) (f : A -> coro B) : coro B :=
  match c with
  | Return a => f a
  | Raise e => Raise e
  | Await op k => Await op (fun r => bind (k r) f)
  end.

Declare Scope coro_scope.
Delimit Scope coro_scope with coro.
Notation "x <- c ;; k" := (bind c (fun x => k))
  (at level 61, c at next level, right associativity) : coro_scope.
Notation "'await' op" := (Await op Return) (at level 60) : coro_scope.
Local Open Scope coro_scope.

(** What a request ends with. *)
Inductive result (A : Type) : Type :=
| Ok (a : A)
| Err (e : exn).

Arguments Ok {A} a.
Arguments Err {A} e.

(** Serial execution: the coroutine runs to its end with no other request
    in between. *)
Fixpoint run {A : Type} (c : coro A) (st : Database) : result A * Database :=
  match c with
  | Return a => (Ok a, st)
  | Raise e => (Err e, st)
  | Await op k => let (r, st') := exec op st in run (k r) st'
  end.

(** One scheduling step: the pending storage call is executed and the
    coroutine advances to its next suspension point. *)
Definition step {A : Type} (c : coro A) (st : Database) : coro A * Database :=
  match c with
  | Await op k => let (r, st') := exec op st in (k r, st')
  | _ => (c, st)
  end.

Definition finished {A : Type} (c : coro A) : option (result A) :=
  match c with
  | Return a => Some (Ok a)
  | Raise e => Some (Err e)
  | Await _ _ => None
  end.

Fixpoint replace_nth {A : Type} (n : nat) (x : A) (l : list A) : list A :=
  match l, n with
  | [], _ => []
  | _ :: l', O => x :: l'
  | y :: l', S n' => y :: replace_nth n' x l'
  end.

(** Interleaved execution of a pool of requests on one event loop: the
    schedule names, step by step, the request that runs next. *)
Fixpoint interleave {A : Type} (schedule : list nat) (pool : list (coro A))
  (st : Database) : list (coro A) * Database :=
  match schedule with
  | [] => (pool, st)
  | i :: schedule' =>
      match nth_error pool i with
      | None => interleave schedule' pool st
      | Some c =>
          let (c', st') := step c st in
          interleave schedule' (replace_nth i c' pool) st'
      end
  end.

(** ** Python arithmetic *)

(** [a / b] on integers: true division, rounded once; it raises when the
    divisor is zero and when the quotient is too large for a float. *)
Definition int_truediv (a b : Z) : coro float :=
  if b =? 0 then Raise ZeroDivisionError
  else
    let q := ratio a b in
    if is_inf q then Raise OverflowError else Return q.

(** [x in l] on strings. *)
Definition str_in (x : string) (l : list string) : bool :=
  existsb (String.eqb x) l.

(** ** Authentication

    [jwt.decode] is outside the engine: a request carries what decoding its
    token gives. *)
Inductive Credentials :=
| ExpiredSignatureError
| InvalidTokenError
| Payload (user_id : string).

Definition get_current_user (credentials : Credentials) : coro User.t :=
  match credentials with
  | ExpiredSignatureError => Raise (HTTPException 401 "Token expired")
  | InvalidTokenError => Raise (HTTPException 401 "Invalid token")
  | Payload user_id =>
      user <- await (find_one db.users (User.has_id user_id)) ;;
      match user with
      | None => Raise (HTTPException 401 "User not found")
      | Some user => Return user
      end
  end.

Definition get_admin_user (current_user : User.t) : coro User.t :=
  if negb (String.eqb (User.role current_user) "admin")
  then Raise (HTTPException 403 "Admin access required")
  else Return current_user.

(** ** Order routes *)

(** [uuid] and [now] are the values [uuid.uuid4()] and
    [datetime.now(timezone.utc).isoformat()] take in this call. *)
Definition create_order (order_data : OrderCreate.t) (current_user : User.t)
  (uuid now : string) : coro Order.t :=
  service <- await (find_one db.services
                      (Service.has_id (OrderCreate.service_id order_data))) ;;
  match service with
  | None => Raise (HTTPException 404 "Service not found")
  | Some service =>
      if (OrderCreate.quantity order_data <? Service.min_quantity service)
         || (OrderCreate.quantity order_data >? Service.max_quantity service)
      then
        Raise (HTTPException 400
                 ("Quantity must be between "
                    ++ str (Service.min_quantity service) ++ " and "
                    ++ str (Service.max_quantity service)))
      else
        thousandths <- int_truediv (OrderCreate.quantity order_data) 1000 ;;
        let total_cost := mul thousandths (Service.rate service) in
        if ltb (User.balance current_user) total_cost
        then Raise (HTTPException 400 "Insufficient balance")
        else
          let order :=
            {| Order.id := uuid;
               Order.user_id := User.id current_user;
               Order.service_id := OrderCreate.service_id order_data;
               Order.link := OrderCreate.link order_data;
               Order.quantity := OrderCreate.quantity order_data;
               Order.total_cost := total_cost;
               Order.status := "pending";
               Order.created_at := now;
               Order.completed_at := None |} in
          _ <- await (update_one db.users
                        (User.has_id (User.id current_user))
                        (User.inc_balance (neg total_cost))) ;;
          _ <- await (insert_one db.orders order) ;;
          Return order
  end.

Definition get_user_orders (current_user : User.t) : coro (list Order.t) :=
  found <- await (find db.orders
                    (Order.has_user_id (User.id current_user))) ;;
  Return (Mongo.to_list 1000 (Mongo.sort_desc Order.created_at found)).

Definition get_order (order_id : string) (current_user : User.t)
  : coro Order.t :=
  order <- await (find_one db.orders
                    (fun o : Order.t =>
                       Order.has_id order_id o
                       && Order.has_user_id (User.id current_user) o)) ;;
  match order with
  | None => Raise (HTTPException 404 "Order not found")
  | Some order => Return order
  end.

(** ** User routes *)

Definition get_balance (current_user : User.t) : coro float :=
  Return (User.balance current_user).

Definition request_deposit (amount : float) (current_user : User.t)
  (uuid now : string) : coro (string * Transaction.t) :=
  if leb amount zero
  then Raise (HTTPException 400 "Amount must be positive")
  else
    let transaction :=
      {| Transaction.id := uuid;
         Transaction.user_id := User.id current_user;
         Transaction.amount := amount;
         Transaction.type := "deposit";
         Transaction.status := "pending";
         Transaction.created_at := now |} in
    _ <- await (insert_one db.transactions transaction) ;;
    Return ("Deposit request submitted. Waiting for admin approval.",
            transaction).

(** ** Admin routes *)

Definition update_order_status (order_id status : string) (admin : User.t)
  (now : string) : coro string :=
  if negb (str_in status ["pending"; "processing"; "completed"; "cancelled"])
  then Raise (HTTPException 400 "Invalid status")
  else
    let completed_at :=
      if String.eqb status "completed" then Some now else None in
    result <- await (update_one db.orders (Order.has_id order_id)
                       (Order.set_status status completed_at)) ;;
    if Mongo.modified_count result =? 0
    then Raise (HTTPException 404 "Order not found")
    else Return "Order status updated".

Definition approve_deposit (transaction_id action : string) (admin : User.t)
  : coro string :=
  if negb (str_in action ["approve"; "reject"])
  then Raise (HTTPException 400 "Invalid action")
  else
    transaction <- await (find_one db.transactions
                            (Transaction.has_id transaction_id)) ;;
    match transaction with
    | None => Raise (HTTPException 404 "Transaction not found")
    | Some transaction =>
        if negb (String.eqb (Transaction.status transaction) "pending")
        then Raise (HTTPException 400 "Transaction already processed")
        else
          let new_status :=
            if String.eqb action "approve" then "approved" else "rejected" in
          _ <- await (update_one db.transactions
                        (Transaction.has_id transaction_id)
                        (Transaction.set_status new_status)) ;;
          _ <- (if String.eqb action "approve"
                then
                  _ <- await (update_one db.users
                                (User.has_id (Transaction.user_id transaction))
                                (User.inc_balance
                                   (Transaction.amount transaction))) ;;
                  Return tt
                else Return tt) ;;
          Return ("Deposit " ++ new_status)
    end.

(** ** Routes

    A request to a route first resolves its dependencies
    ([Depends(get_current_user)], [Depends(get_admin_user)]), then runs the
    handler. *)
Inductive request :=
| POST_orders (credentials : Credentials) (order_data : OrderCreate.t)
    (uuid now : string)
| GET_orders (credentials : Credentials)
| GET_order (credentials : Credentials) (order_id : string)
| GET_user_balance (credentials : Credentials)
| POST_user_deposit (credentials : Credentials) (amount : float)
    (uuid now : string)
| PUT_admin_order_status (credentials : Credentials)
    (order_id status now : string)
| PUT_admin_deposit (credentials : Credentials)
    (transaction_id action : string).

Inductive response :=
| an_order (o : Order.t)
| some_orders (l : list Order.t)
| a_balance (b : float)
| a_deposit (message : string) (transaction : Transaction.t)
| a_message (message : string).

Definition require_admin (credentials : Credentials) : coro User.t :=
  current_user <- get_current_user credentials ;;
  get_admin_user current_user.

Definition route (r : request) : coro response :=
  match r with
  | POST_orders credentials order_data uuid now =>
      current_user <- get_current_user credentials ;;
      order <- create_order order_data current_user uuid now ;;
      Return (an_order order)
  | GET_orders credentials =>
      current_user <- get_current_user credentials ;;
      l <- get_user_orders current_user ;;
      Return (some_orders l)
  | GET_order credentials order_id =>
      current_user <- get_current_user credentials ;;
      order <- get_order order_id current_user ;;
      Return (an_order order)
  | GET_user_balance credentials =>
      current_user <- get_current_user credentials ;;
      b <- get_balance current_user ;;
      Return (a_balance b)
  | POST_user_deposit credentials amount uuid now =>
      current_user <- get_current_user credentials ;;
      r <- request_deposit amount current_user uuid now ;;
      Return (a_deposit (fst r) (snd r))
  | PUT_admin_order_status credentials order_id status now =>
      admin <- require_admin credentials ;;
      m <- update_order_status order_id status admin now ;;
      Return (a_message m)
  | PUT_admin_deposit credentials transaction_id action =>
      admin <- require_admin credentials ;;
      m <- approve_deposit transaction_id action admin ;;
      Return (a_message m)
  end.

(** Requests served one after the other. *)
Fixpoint serve (rs : list request) (st : Database)
  : list (result response) * Database :=
  match rs with
  | [] => ([], st)
  | r :: rs' =>
      let (out, st') := run (route r) st in
      let (outs, st'') := serve rs' st' in
      (out :: outs, st'')
  end.

(** The balance of a user: that of the document [find_one] selects. *)
Definition balance_of (user_id : string) (st : Database) : option float :=
  option_map User.balance (Mongo.find_one (User.has_id user_id) (users st)).


(** ** Vocabulary of the properties *)

(** The target values [update_order_status] accepts. *)
Definition legal_status (status : string) : Prop :=
  status = "pending" \/ status = "processing" \/ status = "completed"
  \/ status = "cancelled".

(** An entry of the ledger of a user: an approved deposit or a placed
    order. *)
Inductive entry :=
| credit (amount : float)
| debit (total_cost : float).

(** Posting an entry on a balance, as [$inc] does. *)
Definition post (b : float) (e : entry) : float :=
  match e with
  | credit amount => add b amount
  | debit total_cost => add b (neg total_cost)
  end.

(** What a served request enters in the ledger of [user_id], read off the
    request, its answer and the transaction it names: a credit for a deposit
    approved for the user, a debit for an order placed by the user. *)
Definition ledger_entry (user_id : string) (st : Database) (r : request)
  (out : result response) : list entry :=
  match r, out with
  | POST_orders _ _ _ _, Ok (an_order o) =>
      if String.eqb (Order.user_id o) user_id
      then [debit (Order.total_cost o)] else []
  | PUT_admin_deposit _ transaction_id action, Ok _ =>
      match Mongo.find_one (Transaction.has_id transaction_id)
              (transactions st) with
      | Some t =>
          if String.eqb action "approve"
             && String.eqb (Transaction.user_id t) user_id
          then [credit (Transaction.amount t)] else []
      | None => []
      end
  | _, _ => []
  end.

(** The entries of the requests of a serial run, in the order served. *)
Fixpoint ledger (user_id : string) (rs : list request) (st : Database)
  : list entry :=
  match rs with
  | [] => []
  | r :: rs' =>
      let (out, st') := run (route r) st in
      (ledger_entry user_id st r out ++ ledger user_id rs' st')%list
  end.

(** The approved deposit amounts and the costs of the placed orders. *)
Definition credits (l : list entry) : list float :=
  flat_map (fun e => match e with credit a => [a] | debit _ => [] end) l.

Definition debits (l : list entry) : list float :=
  flat_map (fun e => match e with debit c => [c] | credit _ => [] end) l.

(** A sum of floats, added up from the left as Python's [sum] does, and the
    exact sum of their values. *)
Definition fsum (l : list float) : float := fold_left add l zero.

Definition Qsum (l : list float) : Q :=
  fold_right (fun x acc => (to_Q x + acc)%Q) 0%Q l.

(** The significand of [x] has at most [prec] bits and its exponent is not
    below the least one: what a comparison needs of its right operand. *)
Definition fits (x : float) : Prop :=
  match x with
  | S754_finite _ m e => Zpos (digits2_pos m) <= prec /\ emin prec emax <= e
  | _ => True
  end.

(** [x] is a number of sign [s]: not NaN, and not of the other sign. *)
Definition has_sign (s : bool) (x : float) : Prop :=
  match x with
  | S754_zero s' | S754_infinity s' | S754_finite s' _ _ => s' = s
  | S754_nan => False
  end.

(** ** Example data *)

(** The example of the specification: a service at 2.50 per thousand, for
    100 to 10000 units. *)
Module Scenario.

Definition service : Service.t :=
  {| Service.id := "svc-1";
     Service.platform := "instagram";
     Service.service_type := "followers";
     Service.name := "Instagram Followers";
     Service.rate := ratio 250 100;
     Service.min_quantity := 100;
     Service.max_quantity := 10000;
     Service.description := "";
     Service.created_at := "2024-01-01T00:00:00+00:00" |}.

Definition user (user_id : string) (balance : float) : User.t :=
  {| User.id := user_id;
     User.email := "user@test.com";
     User.name := "Test User";
     User.balance := balance;
     User.role := "user";
     User.created_at := "2024-01-01T00:00:00+00:00";
     User.password_hash := "" |}.

Definition admin : User.t :=
  {| User.id := "admin";
     User.email := "admin@boostup.com";
     User.name := "Admin User";
     User.balance := ratio 1000 1;
     User.role := "admin";
     User.created_at := "2024-01-01T00:00:00+00:00";
     User.password_hash := "" |}.

Definition order_data (quantity : Z) : OrderCreate.t :=
  {| OrderCreate.service_id := "svc-1";
     OrderCreate.link := "https://instagram.com/p/test";
     OrderCreate.quantity := quantity |}.

Definition order (order_id user_id status : string) : Order.t :=
  {| Order.id := order_id;
     Order.user_id := user_id;
     Order.service_id := "svc-1";
     Order.link := "https://instagram.com/p/test";
     Order.quantity := 500;
     Order.total_cost := ratio 125 100;
     Order.status := status;
     Order.created_at := "2024-01-02T00:00:00+00:00";
     Order.completed_at := None |}.

(** One user, holding [balance], and the service. *)
Definition store (balance : float) : Database :=
  {| users := [user "alice" balance];
     services := [service];
     orders := [];
     transactions := [] |}.

End Scenario.

(** An order that is already pending. *)
Module Repeat.

Definition store : Database :=
  {| users := [Scenario.user "alice" zero; Scenario.admin];
     services := [Scenario.service];
     orders := [Scenario.order "order-1" "alice" "pending"];
     transactions := [] |}.

End Repeat.

(** Two users with one order each. *)
Module Visibility.

Definition alice : User.t := Scenario.user "alice" zero.
Definition bob : User.t := Scenario.user "bob" zero.

Definition store : Database :=
  {| users := [alice; bob];
     services := [Scenario.service];
     orders := [Scenario.order "order-a" "alice" "pending";
                Scenario.order "order-b" "bob" "pending"];
     transactions := [] |}.

End Visibility.

(** Two placements by one user who can pay for one. *)
Module Race.

Definition placement (uuid now : string) : request :=
  POST_orders (Payload "alice") (Scenario.order_data 500) uuid now.

Definition first : request :=
  placement "order-1" "2024-01-02T00:00:00+00:00".
Definition second : request :=
  placement "order-2" "2024-01-02T00:00:01+00:00".

Definition store : Database := Scenario.store (ratio 125 100).

(** Both requests are authenticated and priced before either one writes. *)
Definition checks : list nat := [0; 1; 0; 1]%nat.
Definition writes : list nat := [0; 1; 0; 1]%nat.

End Race.

(** Deposits whose amounts do not add up exactly in binary64. *)
Module Rounding.

Definition deposit (transaction_id : string) (amount : float)
  : Transaction.t :=
  {| Transaction.id := transaction_id;
     Transaction.user_id := "alice";
     Transaction.amount := amount;
     Transaction.type := "deposit";
     Transaction.status := "pending";
     Transaction.created_at := "2024-01-02T00:00:00+00:00" |}.

(** The user holds 0.1; deposits of 0.2 and 0.3 wait for approval. *)
Definition store : Database :=
  {| users := [Scenario.user "alice" (ratio 1 10); Scenario.admin];
     services := [Scenario.service];
     orders := [];
     transactions := [deposit "dep-1" (ratio 2 10);
                      deposit "dep-2" (ratio 3 10)] |}.

Definition requests : list request :=
  [PUT_admin_deposit (Payload "admin") "dep-1" "approve";
   PUT_admin_deposit (Payload "admin") "dep-2" "approve"].

End Rounding.

(** Services whose rate is not a finite number. *)
Module NotANumber.

Definition service (service_id : string) (rate : float) : Service.t :=
  {| Service.id := service_id;
     Service.platform := "instagram";
     Service.service_type := "likes";
     Service.name := "Instagram Likes";
     Service.rate := rate;
     Service.min_quantity := 100;
     Service.max_quantity := 10000;
     Service.description := "";
     Service.created_at := "2024-01-01T00:00:00+00:00" |}.

Definition store (balance : float) : Database :=
  {| users := [Scenario.user "alice" balance];
     services := [service "svc-nan" nan; service "svc-inf" inf];
     orders := [];
     transactions := [] |}.

Definition placement (service_id : string) : request :=
  POST_orders (Payload "alice")
    {| OrderCreate.service_id := service_id;
       OrderCreate.link := "https://instagram.com/p/test";
       OrderCreate.quantity := 500 |}
    "order-1" "2024-01-02T00:00:00+00:00".

End NotANumber.


(** ** The other routes of the server *)

(** The pydantic model [User]: what a user document keeps when a [User] is
    built from its keys, every field but the [password_hash]. *)
Module UserModel.
Record t := {
  id : string;
  email : string;
  name : string;
  balance : float;
  role : string;
  created_at : string
}.

(** A [User] built from the keys of a document. *)
Definition of_document (u : User.t) : t :=
  {| id := User.id u; email := User.email u; name := User.name u;
     balance := User.balance u; role := User.role u;
     created_at := User.created_at u |}.
End UserModel.

Module UserRegister.
Record t := {
  email : string;
  password : string;
  name : string
}.
End UserRegister.

Module UserLogin.
Record t := {
  email : string;
  password : string
}.
End UserLogin.

Module ServiceCreate.
Record t := {
  platform : string;
  service_type : string;
  name : string;
  rate : float;
  min_quantity : Z;
  max_quantity : Z;
  description : string
}.
End ServiceCreate.

(** The queries [{"email": x}], [{"platform": x}], [{"type": x}],
    [{"type": x, "status": y}] and [{}]. *)
Definition has_email (x : string) (u : User.t) : bool :=
  String.eqb (User.email u) x.

Definition has_platform (x : string) (s : Service.t) : bool :=
  String.eqb (Service.platform s) x.

Definition has_type (x : string) (d : Transaction.t) : bool :=
  String.eqb (Transaction.type d) x.

Definition has_type_and_status (x y : string) (d : Transaction.t) : bool :=
  String.eqb (Transaction.type d) x && String.eqb (Transaction.status d) y.

Definition every {D : Type} (d : D) : bool := true.

(** [count_documents(query)]: one storage call, which answers the number of
    documents the query selects. *)
Definition count_documents (c : db.collection) (query : doc c -> bool)
  : coro Z :=
  found <- await (find c query) ;;
  Return (Z.of_nat (List.length found)).

(** *** Service routes *)

(** [platform] is the optional query parameter; Python reads [None] and the
    empty string alike as false. *)
Definition get_services (platform : option string) : coro (list Service.t) :=
  let query :=
    match platform with
    | Some p => if String.eqb p "" then every else has_platform p
    | None => every
    end in
  found <- await (find db.services query) ;;
  Return (Mongo.to_list 1000 found).

Definition create_service (service_data : ServiceCreate.t) (admin : User.t)
  (uuid now : string) : coro Service.t :=
  let service :=
    {| Service.id := uuid;
       Service.platform := ServiceCreate.platform service_data;
       Service.service_type := ServiceCreate.service_type service_data;
       Service.name := ServiceCreate.name service_data;
       Service.rate := ServiceCreate.rate service_data;
       Service.min_quantity := ServiceCreate.min_quantity service_data;
       Service.max_quantity := ServiceCreate.max_quantity service_data;
       Service.description := ServiceCreate.description service_data;
       Service.created_at := now |} in
  _ <- await (insert_one db.services service) ;;
  Return service.

(** *** Admin listings *)

Definition get_all_users (admin : User.t) : coro (list UserModel.t) :=
  found <- await (find db.users every) ;;
  Return (map UserModel.of_document (Mongo.to_list 1000 found)).

Definition get_all_orders (admin : User.t) : coro (list Order.t) :=
  found <- await (find db.orders every) ;;
  Return (Mongo.to_list 1000 (Mongo.sort_desc Order.created_at found)).

Definition get_deposits (admin : User.t) : coro (list Transaction.t) :=
  found <- await (find db.transactions (has_type "deposit")) ;;
  Return (Mongo.to_list 1000 (Mongo.sort_desc Transaction.created_at found)).

Record Stats := {
  total_users : Z;
  total_orders : Z;
  pending_deposits : Z
}.

Definition get_stats (admin : User.t) : coro Stats :=
  total_users <- count_documents db.users every ;;
  total_orders <- count_documents db.orders every ;;
  pending_deposits <-
    count_documents db.transactions
      (has_type_and_status "deposit" "pending") ;;
  Return {| total_users := total_users;
            total_orders := total_orders;
            pending_deposits := pending_deposits |}.

(** *** Auth routes

    [bcrypt] and [jwt] are libraries: the routes are written over what they
    compute.  [salt] is the value of [bcrypt.gensalt()] in the call and
    [exp] the expiry the call computes from the clock. *)
Section Auth.

Variable hashpw : string -> string -> string.
Variable checkpw : string -> string -> bool.
Variable jwt_encode : string -> string -> string.

Definition hash_password (password salt : string) : string :=
  hashpw password salt.

Definition verify_password (password hashed : string) : bool :=
  checkpw password hashed.

Definition create_token (user_id exp : string) : string :=
  jwt_encode user_id exp.

Definition register (user_data : UserRegister.t)
  (uuid now salt exp : string) : coro (string * UserModel.t) :=
  existing_user <- await (find_one db.users
                            (has_email (UserRegister.email user_data))) ;;
  match existing_user with
  | Some _ => Raise (HTTPException 400 "Email already registered")
  | None =>
      let user :=
        {| UserModel.id := uuid;
           UserModel.email := UserRegister.email user_data;
           UserModel.name := UserRegister.name user_data;
           UserModel.balance := zero;
           UserModel.role := "user";
           UserModel.created_at := now |} in
      let user_dict :=
        {| User.id := UserModel.id user;
           User.email := UserModel.email user;
           User.name := UserModel.name user;
           User.balance := UserModel.balance user;
           User.role := UserModel.role user;
           User.created_at := UserModel.created_at user;
           User.password_hash :=
             hash_password (UserRegister.password user_data) salt |} in
      _ <- await (insert_one db.users user_dict) ;;
      let token := create_token (UserModel.id user) exp in
      Return (token, user)
  end.

Definition login (credentials : UserLogin.t) (exp : string)
  : coro (string * UserModel.t) :=
  user <- await (find_one db.users
                   (has_email (UserLogin.email credentials))) ;;
  match user with
  | None => Raise (HTTPException 401 "Invalid credentials")
  | Some user =>
      if negb (verify_password (UserLogin.password credentials)
                 (User.password_hash user))
      then Raise (HTTPException 401 "Invalid credentials")
      else
        let token := create_token (User.id user) exp in
        Return (token, UserModel.of_document user)
  end.

End Auth.

Definition get_me (current_user : User.t) : coro UserModel.t :=
  Return (UserModel.of_document current_user).

(** *** Every route *)

Inductive api_request :=
| engine (r : request)
| POST_auth_register (user_data : UserRegister.t) (uuid now salt exp : string)
| POST_auth_login (credentials : UserLogin.t) (exp : string)
| GET_auth_me (credentials : Credentials)
| GET_services (platform : option string)
| POST_admin_services (credentials : Credentials)
    (service_data : ServiceCreate.t) (uuid now : string)
| GET_admin_users (credentials : Credentials)
| GET_admin_orders (credentials : Credentials)
| GET_admin_deposits (credentials : Credentials)
| GET_stats (credentials : Credentials).

Inductive api_response :=
| of_engine (r : response)
| a_session (token : string) (user : UserModel.t)
| a_user (user : UserModel.t)
| some_services (l : list Service.t)
| a_service (s : Service.t)
| some_users (l : list UserModel.t)
| some_deposits (l : list Transaction.t)
| some_stats (s : Stats).

Section Api.

Variable hashpw : string -> string -> string.
Variable checkpw : string -> string -> bool.
Variable jwt_encode : string -> string -> string.

Definition api_route (r : api_request) : coro api_response :=
  match r with
  | engine r =>
      out <- route r ;;
      Return (of_engine out)
  | POST_auth_register user_data uuid now salt exp =>
      s <- register hashpw jwt_encode user_data uuid now salt exp ;;
      Return (a_session (fst s) (snd s))
  | POST_auth_login credentials exp =>
      s <- login checkpw jwt_encode credentials exp ;;
      Return (a_session (fst s) (snd s))
  | GET_auth_me credentials =>
      current_user <- get_current_user credentials ;;
      user <- get_me current_user ;;
      Return (a_user user)
  | GET_services platform =>
      l <- get_services platform ;;
      Return (some_services l)
  | POST_admin_services credentials service_data uuid now =>
      admin <- require_admin credentials ;;
      service <- create_service service_data admin uuid now ;;
      Return (a_service service)
  | GET_admin_users credentials =>
      admin <- require_admin credentials ;;
      l <- get_all_users admin ;;
      Return (some_users l)
  | GET_admin_orders credentials =>
      admin <- require_admin credentials ;;
      l <- get_all_orders admin ;;
      Return (of_engine (some_orders l))
  | GET_admin_deposits credentials =>
      admin <- require_admin credentials ;;
      l <- get_deposits admin ;;
      Return (some_deposits l)
  | GET_stats credentials =>
      admin <- require_admin credentials ;;
      s <- get_stats admin ;;
      Return (some_stats s)
  end.

(** Requests to any route, served one after the other. *)
Fixpoint api_serve (rs : list api_request) (st : Database)
  : list (result api_response) * Database :=
  match rs with
  | [] => ([], st)
  | r :: rs' =>
      let (out, st') := run (api_route r) st in
      let (outs, st'') := api_serve rs' st' in
      (out :: outs, st'')
  end.

End Api.

(** The bearer token of a request, for the routes that depend on
    [get_current_user]. *)
Definition credentials_of (r : api_request) : option Credentials :=
  match r with
  | engine (POST_orders c _ _ _) | engine (GET_orders c)
  | engine (GET_order c _) | engine (GET_user_balance c)
  | engine (POST_user_deposit c _ _ _)
  | engine (PUT_admin_order_status c _ _ _)
  | engine (PUT_admin_deposit c _ _)
  | GET_auth_me c | POST_admin_services c _ _ _ | GET_admin_users c
  | GET_admin_orders c | GET_admin_deposits c | GET_stats c => Some c
  | POST_auth_register _ _ _ _ _ | POST_auth_login _ _ | GET_services _ =>
      None
  end.

(** The routes that depend on [get_admin_user]. *)
Definition admin_only (r : api_request) : bool :=
  match r with
  | engine (PUT_admin_order_status _ _ _ _) | engine (PUT_admin_deposit _ _ _)
  | POST_admin_services _ _ _ _ | GET_admin_users _ | GET_admin_orders _
  | GET_admin_deposits _ | GET_stats _ => true
  | _ => false
  end.

(** ** Vocabulary of the further properties *)

(** A coroutine that never writes, and one that has written nothing when
    it raises. *)
Definition read_only {A : Type} (c : coro A) : Prop :=
  forall st, snd (run c st) = st.

Definition fails_cleanly {A : Type} (c : coro A) : Prop :=
  forall st e st', run c st = (Err e, st') -> st' = st.

(** A float above zero: a finite non-zero number or an infinity, of
    positive sign. *)
Definition strictly_positive (x : float) : Prop :=
  match x with
  | S754_finite false _ _ | S754_infinity false => True
  | _ => False
  end.

(** A list whose keys never increase: each document comes before those
    whose key is smaller, as [sort(key, -1)] asks. *)
Definition newest_first {D : Type} (key : D -> string) (l : list D) : Prop :=
  StronglySorted (fun a b => String.ltb (key a) (key b) = false) l.

(** ** The storage calls of the routes *)

(** The calls the handlers make: the reads, an insertion (of a user only
    with the role "user"), [$inc] on the balance of the first user with an
    id, [$set] of the status, and of the completion stamp when given, on the
    first order with an id, [$set] of the status on the first transaction
    with an id. *)
Inductive api_call : forall R : Type, db_op R -> Prop :=
| call_find_one (c : db.collection) (query : doc c -> bool)
  : api_call _ (find_one c query)
| call_find (c : db.collection) (query : doc c -> bool)
  : api_call _ (find c query)
| call_insert_user (u : User.t)
  : User.role u = "user" -> api_call _ (insert_one db.users u)
| call_insert_service (s : Service.t) : api_call _ (insert_one db.services s)
| call_insert_order (o : Order.t) : api_call _ (insert_one db.orders o)
| call_insert_transaction (t : Transaction.t)
  : api_call _ (insert_one db.transactions t)
| call_inc_balance (user_id : string) (v : float)
  : api_call _ (update_one db.users (User.has_id user_id)
                  (User.inc_balance v))
| call_set_order_status (order_id new_status : string)
    (stamp : option string)
  : api_call _ (update_one db.orders (Order.has_id order_id)
                  (Order.set_status new_status stamp))
| call_set_transaction_status (transaction_id new_status : string)
  : api_call _ (update_one db.transactions
                  (Transaction.has_id transaction_id)
                  (Transaction.set_status new_status)).

(** Every storage call the coroutine can reach satisfies [P]. *)
Fixpoint calls_only (P : forall R : Type, db_op R -> Prop) {A : Type}
  (c : coro A) : Prop :=
  match c with
  | Return _ | Raise _ => True
  | Await op k => P _ op /\ forall r, calls_only P (k r)
  end.

(** [l'] holds the documents of [l], in their places and each related to
    what it was by [R], followed by new documents, which satisfy [Q]. *)
Definition grows {D : Type} (R : D -> D -> Prop) (Q : D -> Prop)
  (l l' : list D) : Prop :=
  exists kept added,
    l' = (kept ++ added)%list /\ Forall2 R l kept /\ Forall Q added.

(** A user document that differs by its balance at most. *)
Definition same_account (u u' : User.t) : Prop :=
  User.id u' = User.id u
  /\ User.email u' = User.email u
  /\ User.name u' = User.name u
  /\ User.role u' = User.role u
  /\ User.created_at u' = User.created_at u
  /\ User.password_hash u' = User.password_hash u.

Definition plain_user (u : User.t) : Prop := User.role u = "user".

(** An order that differs by its status at most, and by a completion stamp
    that was set or replaced, not cleared. *)
Definition same_order (o o' : Order.t) : Prop :=
  Order.id o' = Order.id o
  /\ Order.user_id o' = Order.user_id o
  /\ Order.service_id o' = Order.service_id o
  /\ Order.link o' = Order.link o
  /\ Order.quantity o' = Order.quantity o
  /\ Order.total_cost o' = Order.total_cost o
  /\ Order.created_at o' = Order.created_at o
  /\ (Order.completed_at o <> None -> Order.completed_at o' <> None).

(** A transaction that differs by its status at most. *)
Definition same_transaction (t t' : Transaction.t) : Prop :=
  Transaction.id t' = Transaction.id t
  /\ Transaction.user_id t' = Transaction.user_id t
  /\ Transaction.amount t' = Transaction.amount t
  /\ Transaction.type t' = Transaction.type t
  /\ Transaction.created_at t' = Transaction.created_at t.

(** A transaction that is the same unless it was pending. *)
Definition settled (t t' : Transaction.t) : Prop :=
  Transaction.status t <> "pending" -> t' = t.

Definition anything {D : Type} (d : D) : Prop := True.

(** What no request undoes: the stored documents stay, in their places; a
    user keeps everything but the balance, an order and a transaction
    everything but the status (and the stamp), a service everything. *)
Definition preserved (st st' : Database) : Prop :=
  grows same_account plain_user (users st) (users st')
  /\ grows eq anything (services st) (services st')
  /\ grows same_order anything (orders st) (orders st')
  /\ grows same_transaction anything (transactions st) (transactions st').

(** What a request that is answered has written: the store it leaves, from
    the store it was sent to. *)
Definition written (r : api_request) (st st' : Database) : Prop :=
  match r with
  | POST_auth_register _ uuid _ _ _ =>
      exists u,
        User.id u = uuid
        /\ st' = set db.users (Mongo.insert_one u (users st)) st
  | POST_admin_services _ _ uuid _ =>
      exists s,
        Service.id s = uuid
        /\ st' = set db.services (Mongo.insert_one s (services st)) st
  | engine (POST_orders _ _ uuid _) =>
      exists o,
        Order.id o = uuid
        /\ st' = set db.orders (Mongo.insert_one o (orders st))
                   (set db.users
                      (Mongo.update_one (User.has_id (Order.user_id o))
                         (User.inc_balance (neg (Order.total_cost o)))
                         (users st)) st)
  | engine (POST_user_deposit _ amount uuid _) =>
      exists t,
        Transaction.id t = uuid
        /\ Transaction.amount t = amount
        /\ Transaction.type t = "deposit"
        /\ Transaction.status t = "pending"
        /\ st' = set db.transactions
                   (Mongo.insert_one t (transactions st)) st
  | engine (PUT_admin_order_status _ order_id status _) =>
      exists stamp,
        st' = set db.orders
                (Mongo.update_one (Order.has_id order_id)
                   (Order.set_status status stamp) (orders st)) st
  | engine (PUT_admin_deposit _ transaction_id action) =>
      exists t,
        Mongo.find_one (Transaction.has_id transaction_id) (transactions st)
        = Some t
        /\ Transaction.status t = "pending"
        /\ ((action = "approve"
             /\ st' = set db.users
                        (Mongo.update_one
                           (User.has_id (Transaction.user_id t))
                           (User.inc_balance (Transaction.amount t))
                           (users st))
                        (set db.transactions
                           (Mongo.update_one
                              (Transaction.has_id transaction_id)
                              (Transaction.set_status "approved")
                              (transactions st)) st))
            \/ (action = "reject"
                /\ st' = set db.transactions
                           (Mongo.update_one
                              (Transaction.has_id transaction_id)
                              (Transaction.set_status "rejected")
                              (transactions st)) st))
  | _ => st' = st
  end.

(** How many documents a request that is answered adds to what [get_stats]
    counts. *)
Definition new_users (r : api_request) : Z :=
  match r with
  | POST_auth_register _ _ _ _ _ => 1
  | _ => 0
  end.

Definition new_orders (r : api_request) : Z :=
  match r with
  | engine (POST_orders _ _ _ _) => 1
  | _ => 0
  end.

Definition new_pending_deposits (r : api_request) : Z :=
  match r with
  | engine (POST_user_deposit _ _ _ _) => 1
  | engine (PUT_admin_deposit _ _ _) => -1
  | _ => 0
  end.

(** ** More example data *)

(** Stand-ins for [bcrypt] and [jwt]: a hash that keeps the salt in its
    first four characters, as bcrypt keeps it in the hash. *)
Module Plain.

Definition hashpw (password salt : string) : string :=
  substring 0 4 salt ++ password.

Definition checkpw (password hashed : string) : bool :=
  String.eqb (hashpw password (substring 0 4 hashed)) hashed.

Definition jwt_encode (user_id exp : string) : string :=
  user_id ++ "." ++ exp.

End Plain.

(** A service whose bounds are the wrong way round. *)
Module Reversed.

Definition service : Service.t :=
  {| Service.id := "svc-1";
     Service.platform := "instagram";
     Service.service_type := "followers";
     Service.name := "Instagram Followers";
     Service.rate := ratio 250 100;
     Service.min_quantity := 1000;
     Service.max_quantity := 100;
     Service.description := "";
     Service.created_at := "2024-01-01T00:00:00+00:00" |}.

Definition store : Database :=
  {| users := [Scenario.user "alice" (ratio 1000 1)];
     services := [service];
     orders := [];
     transactions := [] |}.

End Reversed.

(** A new account. *)
Module Signup.

Definition user_data : UserRegister.t :=
  {| UserRegister.email := "carol@test.com";
     UserRegister.password := "secret";
     UserRegister.name := "Carol" |}.

Definition credentials : UserLogin.t :=
  {| UserLogin.email := "carol@test.com";
     UserLogin.password := "secret" |}.

End Signup.

(** ** The seeding script

    [backend/seed_data.py], as a function of the store; what it prints is
    left out.  [uuid4], [now] and [gensalt] give the values the run takes
    from [uuid.uuid4()], from the clock and from [bcrypt.gensalt()], by the
    document that asks: 0 the admin, 1 the test user, 2 and up the
    services. *)
Module Seed.
Section Seed.

Variable hashpw : string -> string -> string.
Variable uuid4 : nat -> string.
Variable now : nat -> string.
Variable gensalt : nat -> string.

Definition admin_user : User.t :=
  {| User.id := uuid4 0;
     User.email := "admin@boostup.com";
     User.name := "Admin User";
     User.password_hash := hashpw "admin123" (gensalt 0);
     User.balance := ratio 1000 1;
     User.role := "admin";
     User.created_at := now 0 |}.

Definition test_user : User.t :=
  {| User.id := uuid4 1;
     User.email := "user@test.com";
     User.name := "Test User";
     User.password_hash := hashpw "user123" (gensalt 1);
     User.balance := ratio 100 1;
     User.role := "user";
     User.created_at := now 1 |}.

(** The [n]th sample service; [hundredths] is its rate, written with two
    decimals in the source. *)
Definition sample (n : nat) (platform service_type name : string)
  (hundredths min_quantity max_quantity : Z) (description : string)
  : Service.t :=
  {| Service.id := uuid4 (2 + n);
     Service.platform := platform;
     Service.service_type := service_type;
     Service.name := name;
     Service.rate := ratio hundredths 100;
     Service.min_quantity := min_quantity;
     Service.max_quantity := max_quantity;
     Service.description := description;
     Service.created_at := now (2 + n) |}.

Definition services : list Service.t :=
  [ sample 0 "instagram" "followers" "Instagram Followers - High Quality"
      250 100 10000 "Real and active Instagram followers with fast delivery";
    sample 1 "instagram" "likes" "Instagram Likes - Instant"
      100 50 5000 "Instant likes from real accounts";
    sample 2 "instagram" "views" "Instagram Video Views"
      50 100 50000 "High retention video views";
    sample 3 "tiktok" "followers" "TikTok Followers - Premium"
      300 100 10000 "Premium TikTok followers with high engagement";
    sample 4 "tiktok" "likes" "TikTok Likes - Fast"
      150 50 10000 "Fast and reliable TikTok likes";
    sample 5 "tiktok" "views" "TikTok Views - Organic"
      80 1000 100000 "Organic looking views for your TikTok videos";
    sample 6 "youtube" "subscribers" "YouTube Subscribers - Real"
      500 50 5000 "Real YouTube subscribers that won't drop";
    sample 7 "youtube" "views" "YouTube Views - High Retention"
      200 100 50000 "High retention YouTube views from real users";
    sample 8 "youtube" "likes" "YouTube Likes"
      300 50 5000 "Real likes for your YouTube videos";
    sample 9 "facebook" "likes" "Facebook Page Likes"
      400 100 10000 "Real Facebook page likes from active users";
    sample 10 "facebook" "followers" "Facebook Profile Followers"
      350 100 5000 "Increase your profile followers";
    sample 11 "twitter" "followers" "Twitter Followers - Active"
      450 100 10000 "Active Twitter followers from real accounts";
    sample 12 "twitter" "retweets" "Twitter Retweets"
      250 10 1000 "Real retweets for your tweets" ]%list.

(** [insert_many]: the documents, appended in their order. *)
Definition insert_many {D : Type} (ds c : list D) : list D := (c ++ ds)%list.

Definition seed_database (st : Database) : Database :=
  let st :=
    match Mongo.find_one (has_email "admin@boostup.com") (users st) with
    | None => set db.users (Mongo.insert_one admin_user (users st)) st
    | Some _ => st
    end in
  let st :=
    match Mongo.find_one (has_email "user@test.com") (users st) with
    | None => set db.users (Mongo.insert_one test_user (users st)) st
    | Some _ => st
    end in
  let services_count :=
    Z.of_nat (List.length (Mongo.find every (get db.services st))) in
  if services_count =? 0
  then set db.services (insert_many services (get db.services st)) st
  else st.

End Seed.
End Seed.

(** Values for a run of the script. *)
Module Run.

Definition uuid4 (n : nat) : string := "uuid-" ++ str (Z.of_nat n).
Definition now (n : nat) : string := "2024-01-01T00:00:" ++ str (Z.of_nat n).
Definition gensalt (n : nat) : string := "salt".

End Run.
(** * Properties *)

Local Open Scope list_scope.

Ltac run_step :=
  cbn [bind run exec get set fst snd doc doc_eq_dec negb].

(** ** Running coroutines *)

Lemma run_bind {A B : Type} (c : coro A) (f : A -> coro B) (st : Database) :
  run (bind c f) st =
  match run c st with
  | (Ok a, st') => run (f a) st'
  | (Err e, st') => (Err e, st')
  end.
Proof.
  revert st; induction c as [a | e | R op k IH]; intros st; simpl.
  - reflexivity.
  - reflexivity.
  - destruct (exec op st) as [r st']. apply IH.
Qed.

(** A scheduling step does part of the serial run. *)
Lemma run_after_step {A : Type} (c : coro A) (st : Database) :
  run (fst (step c st)) (snd (step c st)) = run c st.
Proof.
  destruct c as [a | e | R op k]; cbn [step run]; try reflexivity.
  now destruct (exec op st).
Qed.

Lemma get_set_same (c : db.collection) (l : list (doc c)) (st : Database) :
  get c (set c l st) = l.
Proof. destruct c; reflexivity. Qed.

Lemma set_get_same (c : db.collection) (st : Database) :
  set c (get c st) st = st.
Proof. destruct c, st; reflexivity. Qed.

(** ** Collections *)

Section CollectionFacts.
Context {D : Type}.
Implicit Types (query : D -> bool) (update : D -> D) (c : list D).

Lemma find_one_In query c d :
  Mongo.find_one query c = Some d -> In d c /\ query d = true.
Proof.
  induction c as [| x c IH]; simpl; [discriminate |].
  destruct (query x) eqn:Hx.
  - intros [= <-]. auto.
  - intros H. destruct (IH H). auto.
Qed.

Lemma find_one_None query c :
  Mongo.find_one query c = None <-> (forall d, In d c -> query d = false).
Proof.
  induction c as [| x c IH]; simpl.
  - split; [intros _ d [] | reflexivity].
  - destruct (query x) eqn:Hx.
    + split; [discriminate |].
      intros H. rewrite (H x) in Hx by auto. discriminate.
    + rewrite IH. split.
      * intros H d [<- | Hd]; auto.
      * intros H d Hd. apply H. auto.
Qed.

(** The first match splits the collection. *)
Lemma find_one_split query c d :
  Mongo.find_one query c = Some d ->
  exists pre post,
    c = pre ++ d :: post /\ query d = true /\
    (forall x, In x pre -> query x = false).
Proof.
  induction c as [| x c IH]; simpl; [discriminate |].
  destruct (query x) eqn:Hx.
  - intros [= <-]. exists [], c. repeat split; auto. intros y [].
  - intros H. destruct (IH H) as (pre & post & -> & Hd & Hpre).
    exists (x :: pre), post. repeat split; auto.
    intros y [<- | Hy]; auto.
Qed.

Lemma update_one_split query update pre d post :
  query d = true -> (forall x, In x pre -> query x = false) ->
  Mongo.update_one query update (pre ++ d :: post)
  = pre ++ update d :: post.
Proof.
  intros Hd. induction pre as [| x pre IH]; simpl; intros Hpre.
  - now rewrite Hd.
  - rewrite (Hpre x) by auto. f_equal. apply IH. intros y Hy. apply Hpre.
    auto.
Qed.

Lemma update_one_no_match query update c :
  Mongo.find_one query c = None -> Mongo.update_one query update c = c.
Proof.
  induction c as [| x c IH]; simpl; [reflexivity |].
  destruct (query x); [discriminate |]. intros H. now rewrite IH.
Qed.

Lemma update_one_unchanged query update c d :
  Mongo.find_one query c = Some d -> update d = d ->
  Mongo.update_one query update c = c.
Proof.
  induction c as [| x c IH]; simpl; [discriminate |].
  destruct (query x).
  - intros [= ->] ->. reflexivity.
  - intros H1 H2. now rewrite IH.
Qed.

(** What [find_one] sees after [update_one], for a query the update
    preserves. *)
Lemma find_one_update_one query update c :
  (forall d, query (update d) = query d) ->
  Mongo.find_one query (Mongo.update_one query update c)
  = option_map update (Mongo.find_one query c).
Proof.
  intros Hq. induction c as [| x c IH]; simpl; [reflexivity |].
  destruct (query x) eqn:Hx; simpl.
  - now rewrite Hq, Hx.
  - now rewrite Hx.
Qed.

(** A query for other documents does not see the update. *)
Lemma find_one_update_one_other query query' update c :
  (forall d, query' (update d) = query' d) ->
  (forall d, query d = true -> query' d = false) ->
  Mongo.find_one query' (Mongo.update_one query update c)
  = Mongo.find_one query' c.
Proof.
  intros Hq Hdisj. induction c as [| x c IH]; simpl; [reflexivity |].
  destruct (query x) eqn:Hx; simpl.
  - now rewrite Hq, (Hdisj x Hx).
  - now rewrite IH.
Qed.

Lemma find_one_insert_one query c d :
  Mongo.find_one query (Mongo.insert_one d c)
  = match Mongo.find_one query c with
    | Some x => Some x
    | None => if query d then Some d else None
    end.
Proof.
  unfold Mongo.insert_one.
  induction c as [| x c IH]; simpl; [reflexivity |].
  destruct (query x); [reflexivity | apply IH].
Qed.

Lemma In_insert_desc (key : D -> string) (d x : D) (l : list D) :
  In x (Mongo.insert_desc key d l) <-> x = d \/ In x l.
Proof.
  induction l as [| y l IH]; simpl.
  - intuition.
  - destruct (String.ltb (key d) (key y)); simpl; rewrite ?IH; intuition.
Qed.

Lemma In_sort_desc (key : D -> string) (x : D) (l : list D) :
  In x (Mongo.sort_desc key l) <-> In x l.
Proof.
  induction l as [| y l IH]; simpl; [reflexivity |].
  rewrite In_insert_desc, IH. intuition.
Qed.

Lemma In_to_list (n : nat) (x : D) (l : list D) :
  In x (Mongo.to_list n l) -> In x l.
Proof.
  revert l; induction n as [| n IH]; intros [| y l]; simpl; try tauto.
  intros [H | H]; auto.
Qed.

End CollectionFacts.

(** ** Balances under [$inc] *)

Lemma has_id_inc_balance (x : string) (v : float) (u : User.t) :
  User.has_id x (User.inc_balance v u) = User.has_id x u.
Proof. reflexivity. Qed.

Lemma balance_of_set_users (x : string) (l : list User.t) (st : Database) :
  balance_of x (set db.users l st)
  = option_map User.balance (Mongo.find_one (User.has_id x) l).
Proof. reflexivity. Qed.

Lemma balance_of_inc (x y : string) (v : float) (l : list User.t) :
  option_map User.balance
    (Mongo.find_one (User.has_id x)
       (Mongo.update_one (User.has_id y) (User.inc_balance v) l))
  = if String.eqb x y
    then option_map (fun b => add b v)
           (option_map User.balance (Mongo.find_one (User.has_id x) l))
    else option_map User.balance (Mongo.find_one (User.has_id x) l).
Proof.
  destruct (String.eqb_spec x y) as [-> | Hxy].
  - rewrite find_one_update_one by apply has_id_inc_balance.
    now destruct (Mongo.find_one (User.has_id y) l).
  - rewrite find_one_update_one_other;
      [reflexivity | apply has_id_inc_balance |].
    intros d Hd. unfold User.has_id in *.
    apply String.eqb_eq in Hd. apply String.eqb_neq. congruence.
Qed.



(** ** Binary64 facts *)

Lemma fexp_ge_emin (e : Z) : emin prec emax <= fexp prec emax e.
Proof. unfold fexp. lia. Qed.

Lemma fexp_ge_sub (e : Z) : e - prec <= fexp prec emax e.
Proof. unfold fexp. lia. Qed.

Lemma valid_fits (x : float) : valid x = true -> fits x.
Proof.
  destruct x as [s | s | | s m e]; cbn [valid valid_binary fits]; auto.
  unfold bounded, canonical_mantissa. intros H.
  apply andb_true_iff in H. destruct H as [H _]. apply Z.eqb_eq in H.
  pose proof (fexp_ge_emin (Zpos (digits2_pos m) + e)).
  pose proof (fexp_ge_sub (Zpos (digits2_pos m) + e)). lia.
Qed.

(** *** Shifting right *)

Lemma digits_shr_1 (mrs : shr_record) :
  Zdigits2 (shr_m (shr_1 mrs)) = Z.max 0 (Zdigits2 (shr_m mrs) - 1).
Proof.
  destruct mrs as [[| [p | p |] | [p | p |]] r s];
    cbn [shr_1 shr_m Zdigits2 digits2_pos]; lia.
Qed.

Lemma digits_iter_shr_1 (k : positive) (mrs : shr_record) :
  Zdigits2 (shr_m (iter_pos shr_1 k mrs))
  = Z.max 0 (Zdigits2 (shr_m mrs) - Zpos k).
Proof.
  revert mrs. induction k as [k IH | k IH |]; intros mrs; cbn [iter_pos].
  - rewrite !IH, digits_shr_1. lia.
  - rewrite !IH. lia.
  - apply digits_shr_1.
Qed.

Lemma shr_1_nonneg (mrs : shr_record) :
  0 <= shr_m mrs -> 0 <= shr_m (shr_1 mrs).
Proof.
  destruct mrs as [[| [p | p |] | [p | p |]] r s]; cbn [shr_1 shr_m]; lia.
Qed.

Lemma iter_shr_1_nonneg (k : positive) (mrs : shr_record) :
  0 <= shr_m mrs -> 0 <= shr_m (iter_pos shr_1 k mrs).
Proof.
  revert mrs. induction k as [k IH | k IH |]; intros mrs H; cbn [iter_pos].
  - apply IH, IH, shr_1_nonneg, H.
  - apply IH, IH, H.
  - apply shr_1_nonneg, H.
Qed.

Lemma shr_m_record_of_loc (m : Z) (l : location) :
  shr_m (shr_record_of_loc m l) = m.
Proof. now destruct l as [| []]. Qed.

Lemma shr_fexp_nonneg (m e : Z) (l : location) :
  0 <= m -> 0 <= shr_m (fst (shr_fexp prec emax m e l)).
Proof.
  intros Hm. unfold shr_fexp, shr.
  destruct (fexp prec emax (Zdigits2 m + e) - e); cbn [fst];
    try apply iter_shr_1_nonneg; now rewrite shr_m_record_of_loc.
Qed.

Lemma round_nearest_even_nonneg (m : Z) (l : location) :
  0 <= m -> 0 <= round_nearest_even m l.
Proof.
  intros Hm. destruct l as [| []]; cbn [round_nearest_even]; try lia.
  destruct (Z.even m); lia.
Qed.

(** After rounding, the significand is renormalised: it has at most [prec]
    bits, above the least exponent. *)
Lemma shr_fexp_fits (m e : Z) (p : positive) :
  shr_m (fst (shr_fexp prec emax m e loc_Exact)) = Zpos p ->
  Zpos (digits2_pos p) <= prec
  /\ emin prec emax <= snd (shr_fexp prec emax m e loc_Exact).
Proof.
  unfold shr_fexp, shr.
  pose proof (fexp_ge_emin (Zdigits2 m + e)) as Hmin.
  pose proof (fexp_ge_sub (Zdigits2 m + e)) as Hsub.
  destruct (fexp prec emax (Zdigits2 m + e) - e) as [| k | k] eqn:Hn;
    cbn [fst snd shr_record_of_loc shr_m].
  - intros ->. cbn [Zdigits2] in *. lia.
  - intros Hp.
    pose proof (digits_iter_shr_1 k (Build_shr_record m false false)) as Hd.
    rewrite Hp in Hd. cbn [Zdigits2 shr_m] in Hd. lia.
  - intros ->. cbn [Zdigits2] in *. lia.
Qed.

Lemma binary_round_aux_fits (s : bool) (m e : Z) (l : location) :
  fits (binary_round_aux prec emax s m e l).
Proof.
  unfold binary_round_aux.
  destruct (shr_fexp prec emax m e l) as [mrs' e'].
  pose proof (shr_fexp_fits
                (round_nearest_even (shr_m mrs') (loc_of_shr_record mrs'))
                e') as H.
  destruct (shr_fexp prec emax _ e' loc_Exact) as [mrs'' e''].
  cbn [fst snd] in H.
  destruct (shr_m mrs'') as [| p | p]; cbn [fits]; auto.
  destruct (e'' <=? emax - prec); cbn [fits]; auto.
Qed.

Lemma binary_round_aux_sign (s : bool) (m e : Z) (l : location) :
  0 <= m -> has_sign s (binary_round_aux prec emax s m e l).
Proof.
  intros Hm. unfold binary_round_aux.
  pose proof (shr_fexp_nonneg m e l Hm) as H1.
  destruct (shr_fexp prec emax m e l) as [mrs' e']. cbn [fst] in H1.
  pose proof (shr_fexp_nonneg _ e' loc_Exact
                (round_nearest_even_nonneg _ (loc_of_shr_record mrs') H1))
    as H2.
  destruct (shr_fexp prec emax _ e' loc_Exact) as [mrs'' e''].
  cbn [fst] in H2.
  destruct (shr_m mrs'') as [| p | p]; [reflexivity | | lia].
  now destruct (e'' <=? emax - prec).
Qed.

Lemma mul_fits (x y : float) : fits (mul x y).
Proof.
  destruct x as [sx | sx | | sx mx ex], y as [sy | sy | | sy my ey];
    cbn [mul SFmul fits]; auto.
  apply binary_round_aux_fits.
Qed.

Lemma binary_normalize_nonneg (m e : Z) :
  0 <= m -> has_sign false (binary_normalize prec emax m e false).
Proof.
  intros Hm. destruct m as [| p | p]; cbn [binary_normalize has_sign];
    [reflexivity | | lia].
  unfold binary_round.
  destruct (shl_align p e _) as [mz ez].
  apply binary_round_aux_sign. lia.
Qed.

Lemma has_sign_false_nonneg (x : float) :
  has_sign false x -> leb zero x = true.
Proof.
  destruct x as [s | s | | s m e]; cbn [has_sign]; try intros ->;
    try reflexivity. intros [].
Qed.

(** *** Significands *)

Lemma digits2_pos_bounds (m : positive) :
  2 ^ (Zpos (digits2_pos m) - 1) <= Zpos m < 2 ^ Zpos (digits2_pos m).
Proof.
  induction m as [m IH | m IH |]; cbn [digits2_pos].
  - rewrite Pos2Z.inj_succ, Z.pow_succ_r by lia.
    replace (Z.succ (Zpos (digits2_pos m)) - 1)
      with (Z.succ (Zpos (digits2_pos m) - 1)) by lia.
    rewrite Z.pow_succ_r by lia. lia.
  - rewrite Pos2Z.inj_succ, Z.pow_succ_r by lia.
    replace (Z.succ (Zpos (digits2_pos m)) - 1)
      with (Z.succ (Zpos (digits2_pos m) - 1)) by lia.
    rewrite Z.pow_succ_r by lia. lia.
  - cbn. lia.
Qed.

Lemma iter_xO (d m : positive) :
  Zpos (Pos.iter xO m d) = Zpos m * 2 ^ Zpos d.
Proof.
  induction d as [| d IH] using Pos.peano_ind.
  - cbn. lia.
  - rewrite Pos.iter_succ, Pos2Z.inj_succ, Z.pow_succ_r by lia.
    rewrite Pos2Z.inj_xO, IH. lia.
Qed.

Lemma shl_align_value (m : positive) (e e' : Z) :
  e' <= e ->
  Zpos (fst (shl_align m e e')) = Zpos m * 2 ^ (e - e').
Proof.
  intros He. unfold shl_align.
  destruct (e' - e) as [| d | d] eqn:Hd; cbn [fst]; try lia.
  - replace (e - e') with 0 by lia. lia.
  - rewrite iter_xO. f_equal. f_equal. lia.
Qed.

(** *** The guard of a debit *)

Lemma has_sign_false_not_negative (x : float) :
  has_sign false x -> ltb x zero = false.
Proof.
  destruct x as [s | s | | s m e]; cbn [has_sign]; intros H;
    try rewrite H; reflexivity.
Qed.

(** The finite case: [b > 0] is a binary64 value, [c] is finite and the test
    [b < c] fails; then [b + (-c)] is a number that is not negative. *)
Lemma sub_finite_sign (mb mc : positive) (eb ec : Z) (sc : bool) :
  valid (S754_finite false mb eb) = true ->
  fits (S754_finite sc mc ec) ->
  ltb (S754_finite false mb eb) (S754_finite sc mc ec) = false ->
  has_sign false (add (S754_finite false mb eb) (neg (S754_finite sc mc ec))).
Proof.
  intros Hvalid Hfits Hlt.
  cbn [add neg SFadd SFopp]. apply binary_normalize_nonneg.
  rewrite !shl_align_value by lia.
  destruct sc; cbn [negb cond_Zopp].
  - pose proof (Z.pow_nonneg 2 (eb - Z.min eb ec)).
    pose proof (Z.pow_nonneg 2 (ec - Z.min eb ec)). nia.
  - unfold ltb, SFltb in Hlt. cbn [SFcompare] in Hlt.
    apply valid_fits in Hvalid as Hb. destruct Hb as [Hdb _].
    destruct Hfits as [Hdc Hec].
    cbn [valid valid_binary] in Hvalid. unfold bounded in Hvalid.
    apply andb_true_iff in Hvalid. destruct Hvalid as [Hcan _].
    unfold canonical_mantissa in Hcan. apply Z.eqb_eq in Hcan.
    unfold fexp in Hcan.
    destruct (Z.compare_spec eb ec) as [Heq | Hl | Hg]; try discriminate.
    + subst ec. rewrite Z.min_id, Z.sub_diag.
      rewrite Pos.compare_cont_spec in Hlt. cbn [Pos.switch_Eq] in Hlt.
      destruct (Pos.compare_spec mb mc); try discriminate; lia.
    + rewrite Z.min_r, Z.sub_diag by lia.
      pose proof (digits2_pos_bounds mb) as [Hlo _].
      pose proof (digits2_pos_bounds mc) as [_ Hhi].
      assert (Hd : Zpos (digits2_pos mb) = prec) by lia.
      rewrite Hd in Hlo.
      assert (2 ^ Zpos (digits2_pos mc) <= 2 ^ prec)
        by (apply Z.pow_le_mono_r; lia).
      assert (2 ^ 1 <= 2 ^ (eb - ec)) by (apply Z.pow_le_mono_r; lia).
      assert (2 ^ prec = 2 * 2 ^ (prec - 1)) by reflexivity.
      nia.
Qed.

(** When [b >= 0] is a binary64 value and the test [b < c] fails, the
    difference [b + (-c)] is never below zero ... *)
Lemma add_neg_not_negative (b c : float) :
  valid b = true -> leb zero b = true -> fits c ->
  ltb b c = false ->
  ltb (add b (neg c)) zero = false.
Proof.
  intros Hvalid Hpos Hfits Hlt.
  destruct b as [sb | sb | | sb mb eb]; try discriminate;
    destruct c as [sc | sc | | sc mc ec];
    try (destruct sb; try discriminate; reflexivity);
    try (destruct sb, sc; try discriminate; reflexivity).
  destruct sb; [discriminate |].
  now apply has_sign_false_not_negative, sub_finite_sign.
Qed.

(** ... and it is a number, not negative, when [b] is finite and [c] is a
    number. *)
Lemma add_neg_nonneg (b c : float) :
  valid b = true -> is_finite b = true -> leb zero b = true ->
  fits c -> is_nan c = false ->
  ltb b c = false ->
  leb zero (add b (neg c)) = true.
Proof.
  intros Hvalid Hfin Hpos Hfits Hnan Hlt.
  destruct b as [sb | sb | | sb mb eb]; try discriminate;
    destruct c as [sc | sc | | sc mc ec]; try discriminate;
    try (destruct sb, sc; try discriminate; reflexivity).
  destruct sb; [discriminate |].
  now apply has_sign_false_nonneg, sub_finite_sign.
Qed.

(** ** Placing an order *)

(** What a placement that returns has checked and written. *)
Lemma create_order_ok
  (st st' : Database) (order_data : OrderCreate.t) (current_user : User.t)
  (uuid now : string) (order : Order.t) :
  run (create_order order_data current_user uuid now) st = (Ok order, st') ->
  exists service,
    Mongo.find_one (Service.has_id (OrderCreate.service_id order_data))
      (services st) = Some service
    /\ Service.min_quantity service <= OrderCreate.quantity order_data
       <= Service.max_quantity service
    /\ is_inf (ratio (OrderCreate.quantity order_data) 1000) = false
    /\ ltb (User.balance current_user) (Order.total_cost order) = false
    /\ order
       = {| Order.id := uuid;
            Order.user_id := User.id current_user;
            Order.service_id := OrderCreate.service_id order_data;
            Order.link := OrderCreate.link order_data;
            Order.quantity := OrderCreate.quantity order_data;
            Order.total_cost :=
              mul (ratio (OrderCreate.quantity order_data) 1000)
                (Service.rate service);
            Order.status := "pending";
            Order.created_at := now;
            Order.completed_at := None |}
    /\ st'
       = set db.orders (Mongo.insert_one order (orders st))
           (set db.users
              (Mongo.update_one (User.has_id (User.id current_user))
                 (User.inc_balance (neg (Order.total_cost order)))
                 (users st)) st).
Proof.
  unfold create_order. run_step.
  destruct (Mongo.find_one _ (services st)) as [service |];
    [| discriminate].
  destruct (OrderCreate.quantity order_data <? Service.min_quantity service)
    eqn:Hmin; [discriminate |].
  destruct (OrderCreate.quantity order_data >? Service.max_quantity service)
    eqn:Hmax; [discriminate |].
  cbn [orb]. unfold int_truediv. cbn [Z.eqb].
  destruct (is_inf (ratio (OrderCreate.quantity order_data) 1000)) eqn:Hinf;
    [discriminate |].
  run_step.
  destruct (ltb (User.balance current_user) _) eqn:Hlt; [discriminate |].
  run_step. intros [= <- <-]. exists service.
  apply Z.ltb_ge in Hmin. rewrite Z.gtb_ltb in Hmax. apply Z.ltb_ge in Hmax.
  repeat split; auto.
Qed.

(** A placement that raises has written nothing. *)
Lemma create_order_err
  (st st' : Database) (order_data : OrderCreate.t) (current_user : User.t)
  (uuid now : string) (e : exn) :
  run (create_order order_data current_user uuid now) st = (Err e, st') ->
  st' = st.
Proof.
  unfold create_order. run_step.
  destruct (Mongo.find_one _ (services st)) as [service |];
    [| now intros [= _ <-]].
  destruct (_ || _); [now intros [= _ <-] |].
  unfold int_truediv. cbn [Z.eqb].
  destruct (is_inf _); [now intros [= _ <-] |].
  run_step. destruct (ltb _ _); [now intros [= _ <-] |].
  run_step. discriminate.
Qed.

(** C3: when the service exists, the quantity is within its bounds and
    the balance of the user is strictly less than the computed total cost,
    [create_order] raises "Insufficient balance" and the store is exactly as
    before the call: no balance has moved and no order is recorded. *)
Theorem create_order_insufficient_balance
  (st : Database) (order_data : OrderCreate.t) (current_user : User.t)
  (uuid now : string) (service : Service.t) (thousandths : float) :
  Mongo.find_one (Service.has_id (OrderCreate.service_id order_data))
    (services st) = Some service ->
  Service.min_quantity service <= OrderCreate.quantity order_data
    <= Service.max_quantity service ->
  int_truediv (OrderCreate.quantity order_data) 1000 = Return thousandths ->
  ltb (User.balance current_user) (mul thousandths (Service.rate service))
    = true ->
  run (create_order order_data current_user uuid now) st
  = (Err InsufficientBalance, st).
Proof.
  intros Hsvc [Hmin Hmax] Hdiv Hlt.
  unfold create_order. run_step. rewrite Hsvc.
  replace (OrderCreate.quantity order_data <? Service.min_quantity service)
    with false by (symmetry; apply Z.ltb_ge; lia).
  replace (OrderCreate.quantity order_data >? Service.max_quantity service)
    with false by (symmetry; rewrite Z.gtb_ltb; apply Z.ltb_ge; lia).
  cbn [orb]. rewrite Hdiv. run_step. rewrite Hlt. reflexivity.
Qed.

Lemma create_order_insufficient_balance_witness :
  run (create_order (Scenario.order_data 500)
         (Scenario.user "alice" (ratio 100 100)) "order-1" "2024-01-02")
    (Scenario.store (ratio 100 100))
  = (Err InsufficientBalance, Scenario.store (ratio 100 100)).
Proof.
  apply (create_order_insufficient_balance _ _ _ _ _ Scenario.service
           (ratio 500 1000)).
  - reflexivity.
  - simpl. lia.
  - reflexivity.
  - reflexivity.
Defined.

(** C4: when the service exists and the quantity is below its
    [min_quantity] or above its [max_quantity], [create_order] raises
    "Quantity must be between min and max" and the store is exactly as before
    the call: no balance has moved and no order is recorded. *)
Theorem create_order_quantity_out_of_range
  (st : Database) (order_data : OrderCreate.t) (current_user : User.t)
  (uuid now : string) (service : Service.t) :
  Mongo.find_one (Service.has_id (OrderCreate.service_id order_data))
    (services st) = Some service ->
  OrderCreate.quantity order_data < Service.min_quantity service
  \/ OrderCreate.quantity order_data > Service.max_quantity service ->
  run (create_order order_data current_user uuid now) st
  = (Err (QuantityOutOfRange (Service.min_quantity service)
            (Service.max_quantity service)), st).
Proof.
  intros Hsvc Hq.
  unfold create_order. run_step. rewrite Hsvc.
  replace ((OrderCreate.quantity order_data <? Service.min_quantity service)
           || (OrderCreate.quantity order_data >? Service.max_quantity service))
    with true.
  - reflexivity.
  - symmetry. apply orb_true_iff. rewrite Z.ltb_lt, Z.gtb_ltb, Z.ltb_lt. lia.
Qed.

Lemma create_order_quantity_out_of_range_witness :
  run (create_order (Scenario.order_data 50)
         (Scenario.user "alice" (ratio 125 100)) "order-1" "2024-01-02")
    (Scenario.store (ratio 125 100))
  = (Err (HTTPException 400 "Quantity must be between 100 and 10000"),
     Scenario.store (ratio 125 100)).
Proof.
  apply (create_order_quantity_out_of_range _ _ _ _ _ Scenario.service).
  - reflexivity.
  - left. simpl. lia.
Defined.

(** C5: [create_order] computes [total_cost] as [(quantity / 1000) * rate]
    with the true quotient of the division, not the integer one.  For a
    service with rate 2.50, min 100 and max 10000, an order of 500 units costs
    exactly 1.25 (500 / 1000 is exactly one half): a user whose balance is
    1.00 is refused with "Insufficient balance", and a user whose balance is
    exactly 1.25 is served and is left with a balance of exactly 0.00. *)
Theorem create_order_prorated_cost :
  (forall st st' order_data current_user uuid now order,
     run (create_order order_data current_user uuid now) st = (Ok order, st') ->
     exists service,
       Mongo.find_one (Service.has_id (OrderCreate.service_id order_data))
         (services st) = Some service
       /\ Order.total_cost order
          = mul (ratio (OrderCreate.quantity order_data) 1000)
              (Service.rate service))
  /\ (to_Q (ratio 500 1000) == 1 # 2)%Q
  /\ mul (ratio 500 1000) (ratio 250 100) = ratio 125 100
  /\ (to_Q (ratio 125 100) == 5 # 4)%Q
  /\ (forall st order_data current_user uuid now service,
        Mongo.find_one (Service.has_id (OrderCreate.service_id order_data))
          (services st) = Some service ->
        Service.rate service = ratio 250 100 ->
        Service.min_quantity service = 100 ->
        Service.max_quantity service = 10000 ->
        OrderCreate.quantity order_data = 500 ->
        (User.balance current_user = ratio 100 100 ->
         run (create_order order_data current_user uuid now) st
         = (Err InsufficientBalance, st))
        /\ (User.balance current_user = ratio 125 100 ->
            Mongo.find_one (User.has_id (User.id current_user)) (users st)
            = Some current_user ->
            exists order st',
              run (create_order order_data current_user uuid now) st
              = (Ok order, st')
              /\ Order.total_cost order = ratio 125 100
              /\ balance_of (User.id current_user) st' = Some zero)).
Proof.
  split; [| split; [| split; [| split]]]; try reflexivity.
  - intros st st' order_data current_user uuid now order Hrun.
    destruct (create_order_ok _ _ _ _ _ _ _ Hrun)
      as (service & Hsvc & _ & _ & _ & -> & _).
    exists service. split; [exact Hsvc | reflexivity].
  - intros st order_data current_user uuid now service
      Hsvc Hrate Hmin Hmax Hq.
    split; intros Hbal.
    + unfold create_order. run_step.
      rewrite Hsvc, Hmin, Hmax, Hq, Hrate, Hbal.
      cbn [Z.ltb Z.gtb Z.compare Pos.compare Pos.compare_cont orb].
      change (int_truediv 500 1000) with (@Return float (ratio 500 1000)).
      run_step.
      change (ltb (ratio 100 100) (mul (ratio 500 1000) (ratio 250 100)))
        with true.
      reflexivity.
    + intros Huser. unfold create_order. run_step.
      rewrite Hsvc, Hmin, Hmax, Hq, Hrate, Hbal.
      cbn [Z.ltb Z.gtb Z.compare Pos.compare Pos.compare_cont orb].
      change (int_truediv 500 1000) with (@Return float (ratio 500 1000)).
      run_step.
      change (ltb (ratio 125 100) (mul (ratio 500 1000) (ratio 250 100)))
        with false.
      run_step. eexists. eexists. split; [reflexivity |].
      split; [reflexivity |].
      unfold balance_of. cbn [users]. rewrite balance_of_inc.
      rewrite String.eqb_refl, Huser. cbn [option_map]. rewrite Hbal.
      reflexivity.
Qed.

Lemma create_order_prorated_cost_witness :
  run (create_order (Scenario.order_data 500)
         (Scenario.user "alice" (ratio 100 100)) "order-1" "2024-01-02")
    (Scenario.store (ratio 100 100))
  = (Err InsufficientBalance, Scenario.store (ratio 100 100))
  /\ exists order st',
       run (create_order (Scenario.order_data 500)
              (Scenario.user "alice" (ratio 125 100)) "order-1" "2024-01-02")
         (Scenario.store (ratio 125 100))
       = (Ok order, st')
       /\ Order.total_cost order = ratio 125 100
       /\ balance_of "alice" st' = Some zero.
Proof.
  pose proof create_order_prorated_cost as (_ & _ & _ & _ & H).
  split.
  - apply (H (Scenario.store (ratio 100 100)) (Scenario.order_data 500)
             (Scenario.user "alice" (ratio 100 100)) "order-1" "2024-01-02"
             Scenario.service); reflexivity.
  - apply (H (Scenario.store (ratio 125 100)) (Scenario.order_data 500)
             (Scenario.user "alice" (ratio 125 100)) "order-1" "2024-01-02"
             Scenario.service); reflexivity.
Defined.

(** ** Placements and the sign of the balance *)

Lemma run_get_current_user (credentials : Credentials) (st : Database) :
  run (get_current_user credentials) st
  = (match credentials with
     | ExpiredSignatureError => Err (HTTPException 401 "Token expired")
     | InvalidTokenError => Err (HTTPException 401 "Invalid token")
     | Payload user_id =>
         match Mongo.find_one (User.has_id user_id) (users st) with
         | Some user => Ok user
         | None => Err (HTTPException 401 "User not found")
         end
     end, st).
Proof.
  destruct credentials; try reflexivity.
  unfold get_current_user. run_step.
  now destruct (Mongo.find_one _ (users st)).
Qed.

Lemma run_require_admin (credentials : Credentials) (st : Database) :
  snd (run (require_admin credentials) st) = st.
Proof.
  unfold require_admin. rewrite run_bind, run_get_current_user.
  destruct credentials; try reflexivity.
  destruct (Mongo.find_one _ (users st)); [| reflexivity].
  unfold get_admin_user. now destruct (negb _).
Qed.


Lemma route_POST_orders_ok
  (st st' : Database) (credentials : Credentials) (order_data : OrderCreate.t)
  (uuid now : string) (resp : response) :
  run (route (POST_orders credentials order_data uuid now)) st
  = (Ok resp, st') ->
  exists user_id current_user order,
    credentials = Payload user_id
    /\ Mongo.find_one (User.has_id user_id) (users st) = Some current_user
    /\ User.id current_user = user_id
    /\ resp = an_order order
    /\ run (create_order order_data current_user uuid now) st = (Ok order, st').
Proof.
  unfold route. rewrite run_bind, run_get_current_user.
  destruct credentials as [| | user_id]; try discriminate.
  destruct (Mongo.find_one _ (users st)) as [u |] eqn:Hu; [| discriminate].
  rewrite run_bind.
  destruct (run (create_order order_data u uuid now) st) as [[o | e] st1]
    eqn:Hco; [| discriminate].
  cbn [run]. intros [= <- <-]. exists user_id, u, o.
  apply find_one_In in Hu as Hid. destruct Hid as [_ Hid].
  apply String.eqb_eq in Hid. repeat split; auto.
Qed.

(** C2, amended: in a serial run, when the balance of the user is a
    binary64 value that is not negative, after a placement that succeeds the
    balance of the user is the old one minus the total cost and is never
    below zero ([balance < 0] is false); it is greater than or equal to zero
    whenever the old balance was finite and the total cost is a number (not
    NaN). *)
Theorem placement_keeps_balance_nonnegative
  (st st' : Database) (user_id : string) (order_data : OrderCreate.t)
  (uuid now : string) (order : Order.t) (b : float) :
  balance_of user_id st = Some b ->
  valid b = true -> leb zero b = true ->
  run (route (POST_orders (Payload user_id) order_data uuid now)) st
  = (Ok (an_order order), st') ->
  let b' := add b (neg (Order.total_cost order)) in
  balance_of user_id st' = Some b'
  /\ ltb b' zero = false
  /\ (is_finite b = true -> is_nan (Order.total_cost order) = false ->
      leb zero b' = true).
Proof.
  intros Hb Hvalid Hpos Hrun b'. subst b'.
  destruct (route_POST_orders_ok _ _ _ _ _ _ _ Hrun)
    as (uid & u & o & [= <-] & Hu & Hid & [= <-] & Hco).
  destruct (create_order_ok _ _ _ _ _ _ _ Hco)
    as (service & _ & _ & _ & Hlt & Ho & ->).
  unfold balance_of in Hb. rewrite Hu in Hb. injection Hb as Hb.
  rewrite Hb in Hlt.
  assert (Hfits : fits (Order.total_cost order))
    by (rewrite Ho; cbn [Order.total_cost]; apply mul_fits).
  split; [| split].
  - unfold balance_of. cbn [set users]. rewrite balance_of_inc.
    now rewrite Hid, String.eqb_refl, Hu; cbn [option_map]; rewrite Hb.
  - now apply add_neg_not_negative.
  - intros Hfin Hnan. now apply add_neg_nonneg.
Qed.

Lemma placement_keeps_balance_nonnegative_witness :
  balance_of "alice"
    (snd (run (route Race.first) (Scenario.store (ratio 125 100))))
  = Some (add (ratio 125 100) (neg (ratio 125 100)))
  /\ ltb (add (ratio 125 100) (neg (ratio 125 100))) zero = false
  /\ leb zero (add (ratio 125 100) (neg (ratio 125 100))) = true.
Proof.
  destruct (placement_keeps_balance_nonnegative
              (Scenario.store (ratio 125 100))
              (snd (run (route Race.first) (Scenario.store (ratio 125 100))))
              "alice" (Scenario.order_data 500)
              "order-1" "2024-01-02T00:00:00+00:00"
              (Scenario.order "order-1" "alice" "pending")
              (ratio 125 100) eq_refl eq_refl eq_refl eq_refl)
    as (Hbal & Hlt & Hle).
  split; [exact Hbal |]. split; [exact Hlt |].
  apply Hle; reflexivity.
Defined.

(** C2, as stated, fails: a balance that is not negative, a placement that
    succeeds, and a balance that is no longer a number, so that [0 <= balance]
    is false.  Once with a finite balance and a service whose rate is NaN, once
    with an infinite balance and an infinite cost. *)
Lemma placement_can_leave_balance_not_a_number :
  (exists o st',
     balance_of "alice" (NotANumber.store (ratio 5 1)) = Some (ratio 5 1)
     /\ leb zero (ratio 5 1) = true
     /\ run (route (NotANumber.placement "svc-nan"))
          (NotANumber.store (ratio 5 1))
        = (Ok (an_order o), st')
     /\ balance_of "alice" st' = Some nan
     /\ leb zero nan = false)
  /\ (exists o st',
        balance_of "alice" (NotANumber.store inf) = Some inf
        /\ leb zero inf = true
        /\ run (route (NotANumber.placement "svc-inf")) (NotANumber.store inf)
           = (Ok (an_order o), st')
        /\ balance_of "alice" st' = Some nan
        /\ leb zero nan = false).
Proof.
  split; do 2 eexists; repeat split.
Qed.

(** ** Resolving a deposit *)

(** C6: [approve_deposit] resolves a transaction exactly once.  On a pending
    transaction, "approve" sets its status to "approved" and adds its
    recorded amount to the balance of its owner (and to no other balance),
    "reject" sets its status to "rejected" and leaves the users as they
    were.  On a transaction whose status is not "pending" it raises
    "Transaction already processed" and writes nothing; so a second call on
    the same transaction id, after either resolution, raises and leaves the
    balances and the transaction as the first call left them. *)
Theorem approve_deposit_exactly_once
  (st : Database) (transaction_id : string) (admin : User.t)
  (transaction : Transaction.t) :
  Mongo.find_one (Transaction.has_id transaction_id) (transactions st)
  = Some transaction ->
  let owner := Transaction.user_id transaction in
  let approved :=
    snd (run (approve_deposit transaction_id "approve" admin) st) in
  let rejected :=
    snd (run (approve_deposit transaction_id "reject" admin) st) in
  (Transaction.status transaction = "pending" ->
   (fst (run (approve_deposit transaction_id "approve" admin) st)
    = Ok "Deposit approved"
    /\ Mongo.find_one (Transaction.has_id transaction_id)
         (transactions approved)
       = Some {| Transaction.id := Transaction.id transaction;
                 Transaction.user_id := owner;
                 Transaction.amount := Transaction.amount transaction;
                 Transaction.type := Transaction.type transaction;
                 Transaction.status := "approved";
                 Transaction.created_at := Transaction.created_at transaction |}
    /\ balance_of owner approved
       = option_map (fun b => add b (Transaction.amount transaction))
           (balance_of owner st)
    /\ (forall other, other <> owner ->
        balance_of other approved = balance_of other st)
    /\ (forall action, action = "approve" \/ action = "reject" ->
        run (approve_deposit transaction_id action admin) approved
        = (Err AlreadyProcessed, approved)))
   /\
   (fst (run (approve_deposit transaction_id "reject" admin) st)
    = Ok "Deposit rejected"
    /\ Mongo.find_one (Transaction.has_id transaction_id)
         (transactions rejected)
       = Some {| Transaction.id := Transaction.id transaction;
                 Transaction.user_id := owner;
                 Transaction.amount := Transaction.amount transaction;
                 Transaction.type := Transaction.type transaction;
                 Transaction.status := "rejected";
                 Transaction.created_at := Transaction.created_at transaction |}
    /\ users rejected = users st
    /\ (forall action, action = "approve" \/ action = "reject" ->
        run (approve_deposit transaction_id action admin) rejected
        = (Err AlreadyProcessed, rejected))))
  /\
  (Transaction.status transaction <> "pending" ->
   forall action, action = "approve" \/ action = "reject" ->
   run (approve_deposit transaction_id action admin) st
   = (Err AlreadyProcessed, st)).
Proof.
  intros Hfind owner approved rejected. subst owner.
  assert (Hprocessed : forall st0 t0,
    Mongo.find_one (Transaction.has_id transaction_id) (transactions st0)
    = Some t0 ->
    Transaction.status t0 <> "pending" ->
    forall action, action = "approve" \/ action = "reject" ->
    run (approve_deposit transaction_id action admin) st0
    = (Err AlreadyProcessed, st0)).
  { intros st0 t0 H0 Hst action Hact.
    assert (Hin : str_in action ["approve"; "reject"] = true)
      by (destruct Hact as [-> | ->]; reflexivity).
    unfold approve_deposit. rewrite Hin. run_step. rewrite H0.
    apply String.eqb_neq in Hst. rewrite Hst. reflexivity. }
  split; [| now apply Hprocessed].
  intros Hpending. apply String.eqb_eq in Hpending.
  assert (Hupd : forall s,
    Mongo.find_one (Transaction.has_id transaction_id)
      (Mongo.update_one (Transaction.has_id transaction_id)
         (Transaction.set_status s) (transactions st))
    = Some (Transaction.set_status s transaction)).
  { intros s. rewrite find_one_update_one by reflexivity.
    now rewrite Hfind. }
  split.
  - subst approved. unfold approve_deposit.
    cbn [str_in existsb String.eqb Ascii.eqb Bool.eqb orb negb].
    run_step. rewrite Hfind, Hpending. run_step.
    repeat split.
    + apply Hupd.
    + unfold balance_of. cbn [users]. rewrite balance_of_inc.
      now rewrite String.eqb_refl.
    + intros other Hother. unfold balance_of. cbn [users].
      rewrite balance_of_inc. apply String.eqb_neq in Hother.
      now rewrite Hother.
    + apply (Hprocessed _ (Transaction.set_status "approved" transaction)).
      * apply Hupd.
      * discriminate.
  - subst rejected. unfold approve_deposit.
    cbn [str_in existsb String.eqb Ascii.eqb Bool.eqb orb negb].
    run_step. rewrite Hfind, Hpending. run_step.
    repeat split.
    + apply Hupd.
    + apply (Hprocessed _ (Transaction.set_status "rejected" transaction)).
      * apply Hupd.
      * discriminate.
Qed.

Lemma approve_deposit_exactly_once_witness :
  let approved :=
    snd (run (approve_deposit "dep-1" "approve" Scenario.admin)
           Rounding.store) in
  fst (run (approve_deposit "dep-1" "approve" Scenario.admin) Rounding.store)
  = Ok "Deposit approved"
  /\ balance_of "alice" approved = Some (add (ratio 1 10) (ratio 2 10))
  /\ run (approve_deposit "dep-1" "approve" Scenario.admin) approved
     = (Err AlreadyProcessed, approved)
  /\ run (approve_deposit "dep-1" "reject" Scenario.admin) approved
     = (Err AlreadyProcessed, approved).
Proof.
  intros approved.
  destruct (approve_deposit_exactly_once Rounding.store "dep-1" Scenario.admin
              (Rounding.deposit "dep-1" (ratio 2 10)) eq_refl)
    as [Hpending _].
  destruct (Hpending eq_refl) as [(Hok & _ & Hbal & _ & Hagain) _].
  destruct (approve_deposit_exactly_once approved "dep-1" Scenario.admin
              (Transaction.set_status "approved"
                 (Rounding.deposit "dep-1" (ratio 2 10))) eq_refl)
    as [_ Hprocessed].
  split; [exact Hok |]. split; [exact Hbal |]. split.
  - apply Hagain. now left.
  - apply Hprocessed; [discriminate | now right].
Defined.

(** The ways [approve_deposit] ends: it raises and writes nothing, or it
    sets the status and, on approval, credits the owner. *)
Lemma approve_deposit_cases
  (st : Database) (transaction_id action : string) (admin : User.t) :
  (exists e, run (approve_deposit transaction_id action admin) st = (Err e, st))
  \/ exists t m,
       Mongo.find_one (Transaction.has_id transaction_id) (transactions st)
       = Some t
       /\ run (approve_deposit transaction_id action admin) st
          = (Ok m,
             if String.eqb action "approve"
             then set db.users
                    (Mongo.update_one (User.has_id (Transaction.user_id t))
                       (User.inc_balance (Transaction.amount t)) (users st))
                    (set db.transactions
                       (Mongo.update_one (Transaction.has_id transaction_id)
                          (Transaction.set_status "approved")
                          (transactions st)) st)
             else set db.transactions
                    (Mongo.update_one (Transaction.has_id transaction_id)
                       (Transaction.set_status "rejected")
                       (transactions st)) st).
Proof.
  unfold approve_deposit.
  destruct (str_in action _); run_step; [| left; eexists; reflexivity].
  destruct (Mongo.find_one _ (transactions st)) as [t |];
    [| left; eexists; reflexivity].
  destruct (String.eqb (Transaction.status t) "pending"); run_step;
    [| left; eexists; reflexivity].
  right. exists t. destruct (String.eqb action "approve"); run_step;
    eexists; split; reflexivity.
Qed.


(** ** Order status *)

Lemma legal_status_in (status : string) :
  str_in status ["pending"; "processing"; "completed"; "cancelled"] = true
  <-> legal_status status.
Proof.
  unfold str_in, legal_status. cbn [existsb].
  rewrite !orb_true_iff, !String.eqb_eq. intuition discriminate.
Qed.

(** What [update_order_status] leaves in the store, whatever it answers. *)
Lemma update_order_status_store
  (st : Database) (order_id status : string) (admin : User.t) (now : string) :
  snd (run (update_order_status order_id status admin now) st) = st
  \/ snd (run (update_order_status order_id status admin now) st)
     = set db.orders
         (Mongo.update_one (Order.has_id order_id)
            (Order.set_status status
               (if String.eqb status "completed" then Some now else None))
            (orders st)) st.
Proof.
  unfold update_order_status.
  destruct (str_in status _); run_step; [| now left].
  right. now destruct (Mongo.modified_count _ =? 0).
Qed.

(** C9: whatever it answers, [update_order_status] leaves the users (hence
    every balance), the services and the transactions as they were, and
    either leaves the orders as they were or rewrites the first order with
    the given id, and only that one: its status becomes the new status, its
    [completed_at] becomes the current time when the new status is
    "completed" and is kept otherwise, and its other fields are kept.  So a
    move to "cancelled" credits nothing back, and a move to a status other
    than "completed" does not clear a [completed_at] stamped before. *)
Theorem update_order_status_frame
  (st : Database) (order_id status : string) (admin : User.t) (now : string) :
  let st' := snd (run (update_order_status order_id status admin now) st) in
  users st' = users st
  /\ (forall user_id, balance_of user_id st' = balance_of user_id st)
  /\ services st' = services st
  /\ transactions st' = transactions st
  /\ (orders st' = orders st
      \/ exists pre o post,
           orders st = pre ++ o :: post
           /\ Order.id o = order_id
           /\ (forall x, In x pre -> Order.id x <> order_id)
           /\ orders st'
              = pre
                ++ {| Order.id := Order.id o;
                      Order.user_id := Order.user_id o;
                      Order.service_id := Order.service_id o;
                      Order.link := Order.link o;
                      Order.quantity := Order.quantity o;
                      Order.total_cost := Order.total_cost o;
                      Order.status := status;
                      Order.created_at := Order.created_at o;
                      Order.completed_at :=
                        if String.eqb status "completed" then Some now
                        else Order.completed_at o |}
                :: post).
Proof.
  intros st'. subst st'.
  destruct (update_order_status_store st order_id status admin now)
    as [-> | ->].
  - repeat split; auto.
  - cbn [set users services transactions orders]. unfold balance_of.
    cbn [users]. repeat split.
    destruct (Mongo.find_one (Order.has_id order_id) (orders st)) as [o |]
      eqn:Ho.
    + right.
      destruct (find_one_split _ _ _ Ho) as (pre & post & Hsplit & Hid & Hpre).
      exists pre, o, post. rewrite Hsplit at 1 2.
      rewrite update_one_split by assumption.
      repeat split.
      * now apply String.eqb_eq.
      * intros x Hx. apply String.eqb_neq. now apply Hpre.
      * unfold Order.set_status. now destruct (String.eqb status "completed").
    + left. now apply update_one_no_match.
Qed.

(** X10: for a legal status, [update_order_status] answers "Order not found"
    exactly when the store reports no modified document: no order has the id,
    or the order selected already holds the values to set. *)
Lemma update_order_status_not_found
  (st : Database) (order_id status : string) (admin : User.t) (now : string) :
  legal_status status ->
  fst (run (update_order_status order_id status admin now) st)
  = Err OrderNotFound
  <-> (Mongo.find_one (Order.has_id order_id) (orders st) = None
       \/ exists o,
            Mongo.find_one (Order.has_id order_id) (orders st) = Some o
            /\ Order.status o = status
            /\ (status = "completed" -> Order.completed_at o = Some now)).
Proof.
  intros Hlegal. apply legal_status_in in Hlegal.
  unfold update_order_status. rewrite Hlegal. run_step.
  unfold Mongo.update_result.
  destruct (Mongo.find_one (Order.has_id order_id) (orders st)) as [o |];
    cbn [Mongo.modified_count].
  - destruct (Order.eq_dec _ o) as [Heq | Hneq]; cbn [Z.eqb fst run].
    + split; [intros _ | reflexivity]. right. exists o.
      split; [reflexivity |]. split.
      * now rewrite <- Heq at 1.
      * intros ->. rewrite <- Heq at 1. reflexivity.
    + split; [discriminate |].
      intros [H | (o' & [= <-] & Hs & Hc)]; [discriminate |].
      exfalso. apply Hneq. destruct o as [i u sv l q c s ca co].
      cbn in Hs, Hc. subst s. unfold Order.set_status; cbn. f_equal.
      destruct (String.eqb_spec status "completed") as [Hcomp | _]; auto.
      symmetry; auto.
  - cbn [Z.eqb fst run]. split; auto.
Qed.

(** C7, where the code departs from it: the order "order-1" is stored and
    pending, "pending" is a legal target, and [update_order_status] answers
    "Order not found" (and writes nothing), because the update changes no
    document and the handler tests [modified_count]. *)
Theorem update_order_status_repeat_not_found :
  In (Scenario.order "order-1" "alice" "pending") (orders Repeat.store)
  /\ Mongo.find_one (Order.has_id "order-1") (orders Repeat.store)
     = Some (Scenario.order "order-1" "alice" "pending")
  /\ legal_status "pending"
  /\ run (update_order_status "order-1" "pending" Scenario.admin
            "2024-01-03T00:00:00+00:00") Repeat.store
     = (Err OrderNotFound, Repeat.store).
Proof.
  split; [now left |]. split; [reflexivity |]. split; [now left |].
  reflexivity.
Qed.

(** ** Order visibility *)

(** C8: for users A and B with different ids, the listing of A holds only
    stored orders of A, none of B; a lookup by A returns only a stored order
    with the requested id whose owner is A, never one of B; and a lookup by A
    of the id of an order of B (ids naming one order each) raises
    "Order not found" and returns nothing. *)
Theorem orders_of_other_users_not_visible
  (st : Database) (A B : User.t) :
  User.id A <> User.id B ->
  (exists l,
     run (get_user_orders A) st = (Ok l, st)
     /\ forall o, In o l ->
        In o (orders st) /\ Order.user_id o = User.id A
        /\ Order.user_id o <> User.id B)
  /\ (forall order_id o,
        fst (run (get_order order_id A) st) = Ok o ->
        In o (orders st) /\ Order.id o = order_id
        /\ Order.user_id o = User.id A /\ Order.user_id o <> User.id B)
  /\ (forall o,
        In o (orders st) -> Order.user_id o = User.id B ->
        (forall o', In o' (orders st) -> Order.id o' = Order.id o -> o' = o) ->
        run (get_order (Order.id o) A) st = (Err OrderNotFound, st)).
Proof.
  intros HAB. split; [| split].
  - eexists. split; [reflexivity |]. intros o Hin.
    apply In_to_list, In_sort_desc in Hin.
    apply filter_In in Hin. destruct Hin as [Hin Hq].
    apply String.eqb_eq in Hq. rewrite Hq. auto.
  - intros order_id o. unfold get_order. run_step.
    destruct (Mongo.find_one _ (orders st)) as [o' |] eqn:Ho; [| discriminate].
    cbn [run fst]. intros [= <-].
    apply find_one_In in Ho. destruct Ho as [Hin Hq].
    apply andb_true_iff in Hq. destruct Hq as [Hid Hu].
    apply String.eqb_eq in Hid, Hu. rewrite Hu. auto.
  - intros o Hin Hown Huniq. unfold get_order. run_step.
    destruct (Mongo.find_one _ (orders st)) as [o' |] eqn:Ho; [| reflexivity].
    exfalso. apply find_one_In in Ho. destruct Ho as [Hin' Hq].
    apply andb_true_iff in Hq. destruct Hq as [Hid Hu].
    apply String.eqb_eq in Hid, Hu.
    rewrite (Huniq o' Hin' Hid) in Hu. congruence.
Qed.

Lemma orders_of_other_users_not_visible_witness :
  run (get_order "order-b" Visibility.alice) Visibility.store
  = (Err OrderNotFound, Visibility.store)
  /\ exists l,
       run (get_user_orders Visibility.alice) Visibility.store
       = (Ok l, Visibility.store)
       /\ forall o, In o l ->
          In o (orders Visibility.store)
          /\ Order.user_id o = "alice" /\ Order.user_id o <> "bob".
Proof.
  assert (Hid : User.id Visibility.alice <> User.id Visibility.bob)
    by discriminate.
  destruct (orders_of_other_users_not_visible Visibility.store
              Visibility.alice Visibility.bob Hid) as (Hlist & _ & Hlookup).
  split; [| exact Hlist].
  apply (Hlookup (Scenario.order "order-b" "bob" "pending")).
  - right. now left.
  - reflexivity.
  - intros o' [<- | [<- | []]]; [discriminate | reflexivity].
Defined.

(** ** The ledger *)

(** One request moves the balance by its ledger entries. *)
Lemma route_balance (user_id : string) (r : request) (st : Database) :
  balance_of user_id (snd (run (route r) st))
  = option_map
      (fun b => fold_left post
                  (ledger_entry user_id st r (fst (run (route r) st))) b)
      (balance_of user_id st).
Proof.
  assert (Hid : forall o : option float, o = option_map (fun b => b) o)
    by (now intros [b |]).
  destruct r as [c od uuid now | c | c oid | c | c amount uuid now
                | c oid status now | c tid action];
    unfold route; rewrite run_bind.
  - (* POST /orders *)
    rewrite run_get_current_user. destruct c as [| | uid]; try apply Hid.
    destruct (Mongo.find_one _ (users st)) as [u |] eqn:Hu; [| apply Hid].
    rewrite run_bind.
    destruct (run (create_order od u uuid now) st) as [[o | e] st'] eqn:Hrun.
    + destruct (create_order_ok _ _ _ _ _ _ _ Hrun)
        as (service & _ & _ & _ & _ & Ho & ->).
      cbn [run fst snd ledger_entry]. unfold balance_of.
      cbn [set users]. rewrite balance_of_inc.
      apply find_one_In in Hu. destruct Hu as [_ Hu].
      unfold User.has_id in Hu. apply String.eqb_eq in Hu.
      replace (Order.user_id o) with (User.id u) by (rewrite Ho; now cbn).
      rewrite Hu, String.eqb_sym.
      destruct (String.eqb uid user_id);
        now destruct (Mongo.find_one _ (users st)).
    + apply create_order_err in Hrun. subst st'. apply Hid.
  - (* GET /orders *)
    rewrite run_get_current_user. destruct c as [| | uid]; try apply Hid.
    destruct (Mongo.find_one _ (users st)); apply Hid.
  - (* GET /orders/{order_id} *)
    rewrite run_get_current_user. destruct c as [| | uid]; try apply Hid.
    destruct (Mongo.find_one _ (users st)); [| apply Hid].
    rewrite run_bind. unfold get_order. run_step.
    destruct (Mongo.find_one _ (orders st)); apply Hid.
  - (* GET /user/balance *)
    rewrite run_get_current_user. destruct c as [| | uid]; try apply Hid.
    destruct (Mongo.find_one _ (users st)); apply Hid.
  - (* POST /user/deposit *)
    rewrite run_get_current_user. destruct c as [| | uid]; try apply Hid.
    destruct (Mongo.find_one _ (users st)); [| apply Hid].
    rewrite run_bind. unfold request_deposit.
    destruct (leb amount zero); apply Hid.
  - (* PUT /admin/orders/{order_id}/status *)
    pose proof (run_require_admin c st) as Hadm.
    destruct (run (require_admin c) st) as [[admin | e] st0];
      cbn [snd] in Hadm; subst st0; [| apply Hid].
    rewrite run_bind.
    pose proof (update_order_status_store st oid status admin now) as Hst.
    destruct (run (update_order_status oid status admin now) st)
      as [[m | e] st']; cbn [snd] in Hst;
      cbn [run fst snd ledger_entry fold_left];
      destruct Hst as [-> | ->]; apply Hid.
  - (* PUT /admin/deposits/{transaction_id} *)
    pose proof (run_require_admin c st) as Hadm.
    destruct (run (require_admin c) st) as [[admin | e] st0];
      cbn [snd] in Hadm; subst st0; [| apply Hid].
    rewrite run_bind.
    destruct (approve_deposit_cases st tid action admin)
      as [[e ->] | (t & m & Ht & ->)]; [apply Hid |].
    cbn [run fst snd ledger_entry]. rewrite Ht.
    destruct (String.eqb action "approve"); cbn [andb].
    + unfold balance_of. cbn [set users]. rewrite balance_of_inc.
      rewrite String.eqb_sym.
      destruct (String.eqb (Transaction.user_id t) user_id);
        now destruct (Mongo.find_one _ (users st)).
    + apply Hid.
Qed.

(** C1, amended: when requests are served one after the other, the balance
    of a user at the end is the balance at the start with the ledger posted on
    it entry by entry, in the order served, each addition rounded to binary64:
    the amount of each deposit approved for the user is added, the total cost
    of each order the user placed is subtracted, and nothing else (a rejected
    deposit, a refused placement, any other request) moves it. *)
Theorem balance_follows_ledger
  (user_id : string) (rs : list request) (st : Database) (b0 : float) :
  balance_of user_id st = Some b0 ->
  balance_of user_id (snd (serve rs st))
  = Some (fold_left post (ledger user_id rs st) b0).
Proof.
  revert st b0. induction rs as [| r rs IH]; intros st b0 Hb0.
  - exact Hb0.
  - cbn [serve ledger].
    pose proof (route_balance user_id r st) as Hr.
    destruct (run (route r) st) as [out st1]. cbn [fst snd] in Hr.
    rewrite Hb0 in Hr. cbn [option_map] in Hr.
    specialize (IH st1 _ Hr).
    destruct (serve rs st1) as [outs st2]. cbn [snd] in *.
    now rewrite fold_left_app.
Qed.

Lemma balance_follows_ledger_witness :
  balance_of "alice" (snd (serve Rounding.requests Rounding.store))
  = Some (fold_left post [credit (ratio 2 10); credit (ratio 3 10)]
            (ratio 1 10)).
Proof.
  apply (balance_follows_ledger "alice" Rounding.requests Rounding.store).
  reflexivity.
Defined.

(** C1, as stated, fails: the user holds 0.1 and deposits of 0.2 and 0.3
    are approved one after the other.  The balance at the end is neither the
    exact sum of the initial balance and the amounts, nor the initial balance
    plus the sum of the amounts computed in binary64. *)
Lemma balance_differs_from_sum_of_amounts :
  let l := ledger "alice" Rounding.requests Rounding.store in
  balance_of "alice" Rounding.store = Some (ratio 1 10)
  /\ l = [credit (ratio 2 10); credit (ratio 3 10)]
  /\ exists b,
       balance_of "alice" (snd (serve Rounding.requests Rounding.store))
       = Some b
       /\ ~ (to_Q b
             == to_Q (ratio 1 10) + Qsum (credits l) - Qsum (debits l))%Q
       /\ b <> add (add (ratio 1 10) (fsum (credits l)))
                 (neg (fsum (debits l))).
Proof.
  split; [reflexivity |]. split; [reflexivity |].
  eexists. split; [reflexivity |]. split.
  - vm_compute. discriminate.
  - vm_compute. discriminate.
Qed.

(** ** Interleaved placements *)

(** X25: two placements by one user that would each succeed alone from [st]
    both succeed when their storage calls alternate, and both decrements are
    applied: the second check read the balance before the first write. *)
Lemma interleaved_placements_both_commit
  (st st1 st2 : Database) (user_id : string) (od1 od2 : OrderCreate.t)
  (uuid1 now1 uuid2 now2 : string) (o1 o2 : Order.t) :
  run (route (POST_orders (Payload user_id) od1 uuid1 now1)) st
  = (Ok (an_order o1), st1) ->
  run (route (POST_orders (Payload user_id) od2 uuid2 now2)) st
  = (Ok (an_order o2), st2) ->
  exists st',
    interleave [0; 1; 0; 1; 0; 1; 0; 1]%nat
      [route (POST_orders (Payload user_id) od1 uuid1 now1);
       route (POST_orders (Payload user_id) od2 uuid2 now2)] st
    = ([Return (an_order o1); Return (an_order o2)], st')
    /\ orders st' = orders st ++ [o1; o2]
    /\ balance_of user_id st'
       = option_map
           (fun b => add (add b (neg (Order.total_cost o1)))
                       (neg (Order.total_cost o2)))
           (balance_of user_id st).
Proof.
  intros H1 H2.
  destruct (route_POST_orders_ok _ _ _ _ _ _ _ H1)
    as (uid & u & o & [= <-] & Hu & Hid & [= <-] & Hco1).
  destruct (route_POST_orders_ok _ _ _ _ _ _ _ H2)
    as (uid' & u' & o' & [= <-] & Hu' & _ & [= <-] & Hco2).
  rewrite Hu in Hu'. injection Hu' as <-.
  destruct (create_order_ok _ _ _ _ _ _ _ Hco1)
    as (s1 & Hs1 & [Hmin1 Hmax1] & Hinf1 & Hlt1 & Ho1 & _).
  destruct (create_order_ok _ _ _ _ _ _ _ Hco2)
    as (s2 & Hs2 & [Hmin2 Hmax2] & Hinf2 & Hlt2 & Ho2 & _).
  apply Z.ltb_ge in Hmin1, Hmin2.
  apply Z.ltb_ge in Hmax1, Hmax2. rewrite <- Z.gtb_ltb in Hmax1, Hmax2.
  rewrite Ho1 in Hlt1. rewrite Ho2 in Hlt2.
  cbn [Order.total_cost] in Hlt1, Hlt2.
  eexists.
  cbn [interleave nth_error replace_nth step route bind get_current_user
         exec get set doc fst snd].
  rewrite Hu. cbn [bind]. unfold create_order. cbn [bind step exec get doc].
  rewrite Hs1, Hs2, Hmin1, Hmin2, Hmax1, Hmax2. cbn [orb].
  unfold int_truediv. cbn [Z.eqb]. rewrite Hinf1, Hinf2. cbn [bind].
  rewrite Hlt1, Hlt2.
  cbn [bind step exec get set doc users services orders transactions].
  rewrite <- Ho1, <- Ho2.
  split; [reflexivity |]. split.
  - cbn [orders]. unfold Mongo.insert_one. now rewrite <- app_assoc.
  - unfold balance_of. cbn [users]. rewrite !balance_of_inc.
    rewrite Hid, String.eqb_refl. rewrite Ho1, Ho2. cbn [Order.total_cost].
    now destruct (Mongo.find_one _ (users st)).
Qed.

(** C10: a user holds 1.25, the price of one order.  Served one after the
    other, two placements end with the second refused and the balance at 0.
    Interleaved at their storage calls, both placements pass the balance
    check before either writes (the store is still untouched and neither has
    ended), then both apply their unconditional decrement: both orders are
    recorded and the balance ends at -1.25, below zero. *)
Theorem concurrent_placements_overdraw :
  balance_of "alice" Race.store = Some (ratio 125 100)
  /\ leb zero (ratio 125 100) = true
  /\ (exists o st',
        serve [Race.first; Race.second] Race.store
        = ([Ok (an_order o); Err InsufficientBalance], st')
        /\ balance_of "alice" st' = Some zero)
  /\ (exists pool,
        interleave Race.checks [route Race.first; route Race.second] Race.store
        = (pool, Race.store)
        /\ Forall (fun c => finished c = None) pool
        /\ exists o1 o2 st' b,
             interleave Race.writes pool Race.store
             = ([Return (an_order o1); Return (an_order o2)], st')
             /\ orders st' = [o1; o2]
             /\ balance_of "alice" st' = Some b
             /\ b = neg (ratio 125 100)
             /\ ltb b zero = true).
Proof.
  split; [reflexivity |]. split; [reflexivity |]. split.
  - eexists. eexists. split; reflexivity.
  - eexists. split; [reflexivity |]. split.
    + repeat constructor.
    + do 4 eexists. repeat split.
Qed.

(** * The rest of the server *)

(** ** Authentication and access control *)

Lemma get_current_user_err (credentials : Credentials) (st : Database)
  (e : exn) :
  fst (run (get_current_user credentials) st) = Err e ->
  run (get_current_user credentials) st = (Err e, st)
  /\ exists detail, e = HTTPException 401 detail.
Proof.
  rewrite run_get_current_user. cbn [fst].
  destruct credentials as [| | user_id].
  - intros [= <-]. split; [reflexivity | eexists; reflexivity].
  - intros [= <-]. split; [reflexivity | eexists; reflexivity].
  - destruct (Mongo.find_one _ (users st)); [discriminate |].
    intros [= <-]. split; [reflexivity | eexists; reflexivity].
Qed.

Lemma get_current_user_ok (credentials : Credentials) (st : Database)
  (u : User.t) :
  fst (run (get_current_user credentials) st) = Ok u ->
  run (get_current_user credentials) st = (Ok u, st).
Proof.
  rewrite run_get_current_user. cbn [fst]. now intros ->.
Qed.

Lemma require_admin_err (credentials : Credentials) (st : Database) (e : exn) :
  fst (run (get_current_user credentials) st) = Err e ->
  run (require_admin credentials) st = (Err e, st).
Proof.
  intros H. apply get_current_user_err in H. destruct H as [H _].
  unfold require_admin. now rewrite run_bind, H.
Qed.

Lemma require_admin_forbidden (credentials : Credentials) (st : Database)
  (u : User.t) :
  fst (run (get_current_user credentials) st) = Ok u ->
  User.role u <> "admin" ->
  run (require_admin credentials) st
  = (Err (HTTPException 403 "Admin access required"), st).
Proof.
  intros H Hrole. apply get_current_user_ok in H.
  unfold require_admin. rewrite run_bind, H. unfold get_admin_user.
  apply String.eqb_neq in Hrole. now rewrite Hrole.
Qed.

Lemma require_admin_ok (credentials : Credentials) (st : Database)
  (u : User.t) :
  fst (run (get_current_user credentials) st) = Ok u ->
  User.role u = "admin" ->
  run (require_admin credentials) st = (Ok u, st).
Proof.
  intros H Hrole. apply get_current_user_ok in H.
  unfold require_admin. rewrite run_bind, H. unfold get_admin_user.
  apply String.eqb_eq in Hrole. now rewrite Hrole.
Qed.

Section ApiFacts.

Variable hashpw : string -> string -> string.
Variable checkpw : string -> string -> bool.
Variable jwt_encode : string -> string -> string.

Local Abbreviation api := (api_route hashpw checkpw jwt_encode).

(** X1: a request to a route that depends on [get_current_user], made
    with a token that is expired or invalid or names no stored user, is
    answered 401 and writes nothing, whatever the route and its other
    inputs. *)
Theorem api_route_requires_authentication
  (r : api_request) (st : Database) (credentials : Credentials) (e : exn) :
  credentials_of r = Some credentials ->
  fst (run (get_current_user credentials) st) = Err e ->
  run (api r) st = (Err e, st)
  /\ exists detail, e = HTTPException 401 detail.
Proof.
  intros Hc He. split; [| exact (proj2 (get_current_user_err _ _ _ He))].
  pose proof (require_admin_err _ _ _ He) as Hadm.
  apply get_current_user_err in He. destruct He as [He _].
  destruct r as [r | | | c | | c sd uuid now | c | c | c | c];
    try discriminate;
    [destruct r as [c od uuid now | c | c oid | c | c amount uuid now
                   | c oid status now | c tid action] | ..];
    injection Hc as ->; unfold api_route, route;
    rewrite ?run_bind, ?Hadm, ?He; reflexivity.
Qed.

(** X2: a request to a route that depends on [get_admin_user], made by a
    stored user whose role is not "admin", is answered 403 "Admin access
    required" and writes nothing. *)
Theorem admin_routes_refuse_other_roles
  (r : api_request) (st : Database) (credentials : Credentials)
  (u : User.t) :
  admin_only r = true ->
  credentials_of r = Some credentials ->
  fst (run (get_current_user credentials) st) = Ok u ->
  User.role u <> "admin" ->
  run (api r) st = (Err (HTTPException 403 "Admin access required"), st).
Proof.
  intros Hadmin Hc Hu Hrole.
  pose proof (require_admin_forbidden _ _ _ Hu Hrole) as Hadm.
  destruct r as [r | | | c | | c sd uuid now | c | c | c | c];
    try discriminate;
    [destruct r as [c od uuid now | c | c oid | c | c amount uuid now
                   | c oid status now | c tid action]; try discriminate | ..];
    injection Hc as ->; unfold api_route, route;
    rewrite ?run_bind, ?Hadm; reflexivity.
Qed.

End ApiFacts.

(** ** Requests that fail *)

Lemma read_only_fails_cleanly {A : Type} (c : coro A) :
  read_only c -> fails_cleanly c.
Proof. intros H st e st' Hrun. specialize (H st). now rewrite Hrun in H. Qed.

Lemma fails_cleanly_bind {A B : Type} (c : coro A) (f : A -> coro B) :
  read_only c -> (forall a, fails_cleanly (f a)) -> fails_cleanly (bind c f).
Proof.
  intros Hc Hf st e st'. rewrite run_bind. specialize (Hc st).
  destruct (run c st) as [[a | e0] st0]; cbn [snd] in Hc; subst st0.
  - apply Hf.
  - now intros [= _ <-].
Qed.

Lemma fails_cleanly_map {A B : Type} (c : coro A) (g : A -> B) :
  fails_cleanly c -> fails_cleanly (bind c (fun a => Return (g a))).
Proof.
  intros Hc st e st'. rewrite run_bind.
  destruct (run c st) as [[a | e0] st0] eqn:Hrun; [discriminate |].
  intros [= <- <-]. eapply Hc, Hrun.
Qed.

Lemma read_only_get_current_user (credentials : Credentials) :
  read_only (get_current_user credentials).
Proof. intros st. now rewrite run_get_current_user. Qed.

Lemma read_only_require_admin (credentials : Credentials) :
  read_only (require_admin credentials).
Proof. intros st. apply run_require_admin. Qed.

Lemma read_only_find_then {A : Type} (c : db.collection)
  (query : doc c -> bool) (g : list (doc c) -> A) :
  read_only (bind (Await (find c query) Return) (fun l => Return (g l))).
Proof. intros st. reflexivity. Qed.

(** No modified document: the collection is as it was. *)
Lemma update_one_not_modified {D : Type}
  (D_eq_dec : forall x y : D, {x = y} + {x <> y})
  (query : D -> bool) (update : D -> D) (l : list D) :
  Mongo.modified_count (Mongo.update_result D_eq_dec query update l) = 0 ->
  Mongo.update_one query update l = l.
Proof.
  unfold Mongo.update_result.
  destruct (Mongo.find_one query l) as [d |] eqn:Hd.
  - cbn [Mongo.modified_count].
    destruct (D_eq_dec (update d) d) as [Heq | _]; [| discriminate].
    intros _. now apply (update_one_unchanged _ _ _ d).
  - intros _. now apply update_one_no_match.
Qed.

Lemma fails_cleanly_create_order (order_data : OrderCreate.t)
  (current_user : User.t) (uuid now : string) :
  fails_cleanly (create_order order_data current_user uuid now).
Proof. intros st e st' H. now apply create_order_err in H. Qed.

Lemma fails_cleanly_get_order (order_id : string) (current_user : User.t) :
  fails_cleanly (get_order order_id current_user).
Proof.
  apply read_only_fails_cleanly. intros st. unfold get_order. run_step.
  now destruct (Mongo.find_one _ (orders st)).
Qed.

Lemma fails_cleanly_request_deposit (amount : float) (current_user : User.t)
  (uuid now : string) :
  fails_cleanly (request_deposit amount current_user uuid now).
Proof.
  intros st e st'. unfold request_deposit.
  destruct (leb amount zero); run_step; [now intros [= _ <-] | discriminate].
Qed.

Lemma fails_cleanly_update_order_status (order_id status : string)
  (admin : User.t) (now : string) :
  fails_cleanly (update_order_status order_id status admin now).
Proof.
  intros st e st'. unfold update_order_status.
  destruct (str_in status _); run_step; [| now intros [= _ <-]].
  destruct (Mongo.modified_count _ =? 0) eqn:Hm; [| discriminate].
  intros [= _ <-]. apply Z.eqb_eq, update_one_not_modified in Hm.
  rewrite Hm. now destruct st.
Qed.

Lemma fails_cleanly_approve_deposit (transaction_id action : string)
  (admin : User.t) :
  fails_cleanly (approve_deposit transaction_id action admin).
Proof.
  intros st e st' Hrun.
  destruct (approve_deposit_cases st transaction_id action admin)
    as [[e0 H] | (t & m & _ & H)]; rewrite H in Hrun.
  - now injection Hrun as _ <-.
  - discriminate.
Qed.

Lemma fails_cleanly_route (r : request) : fails_cleanly (route r).
Proof.
  destruct r as [c od uuid now | c | c oid | c | c amount uuid now
                | c oid status now | c tid action]; unfold route.
  - apply fails_cleanly_bind; [apply read_only_get_current_user |].
    intros u. apply fails_cleanly_map, fails_cleanly_create_order.
  - apply fails_cleanly_bind; [apply read_only_get_current_user |].
    intros u. apply read_only_fails_cleanly. intros st. reflexivity.
  - apply fails_cleanly_bind; [apply read_only_get_current_user |].
    intros u. apply fails_cleanly_map, fails_cleanly_get_order.
  - apply fails_cleanly_bind; [apply read_only_get_current_user |].
    intros u. apply read_only_fails_cleanly. intros st. reflexivity.
  - apply fails_cleanly_bind; [apply read_only_get_current_user |].
    intros u. apply fails_cleanly_map, fails_cleanly_request_deposit.
  - apply fails_cleanly_bind; [apply read_only_require_admin |].
    intros u. apply fails_cleanly_map, fails_cleanly_update_order_status.
  - apply fails_cleanly_bind; [apply read_only_require_admin |].
    intros u. apply fails_cleanly_map, fails_cleanly_approve_deposit.
Qed.

Section FailureFacts.

Variable hashpw : string -> string -> string.
Variable checkpw : string -> string -> bool.
Variable jwt_encode : string -> string -> string.

Lemma fails_cleanly_register (user_data : UserRegister.t)
  (uuid now salt exp : string) :
  fails_cleanly (register hashpw jwt_encode user_data uuid now salt exp).
Proof.
  intros st e st'. unfold register. run_step.
  destruct (Mongo.find_one _ (users st)); run_step;
    [now intros [= _ <-] | discriminate].
Qed.

Lemma read_only_login (credentials : UserLogin.t) (exp : string) :
  read_only (login checkpw jwt_encode credentials exp).
Proof.
  intros st. unfold login. run_step.
  destruct (Mongo.find_one _ (users st)) as [u |]; [| reflexivity].
  now destruct (negb _).
Qed.

(** X3: whatever the route, a request that ends with an exception has
    written nothing: the store is the one it was sent to. *)
Theorem api_route_failure_writes_nothing
  (r : api_request) (st st' : Database) (e : exn) :
  run (api_route hashpw checkpw jwt_encode r) st = (Err e, st') ->
  st' = st.
Proof.
  revert st e st'. change (fails_cleanly (api_route hashpw checkpw jwt_encode r)).
  destruct r as [r | ud uuid now salt exp | cr exp | c | p | c sd uuid now
                | c | c | c | c]; unfold api_route.
  - apply fails_cleanly_map, fails_cleanly_route.
  - apply fails_cleanly_map, fails_cleanly_register.
  - apply fails_cleanly_map, read_only_fails_cleanly, read_only_login.
  - apply fails_cleanly_bind; [apply read_only_get_current_user |].
    intros u. apply read_only_fails_cleanly. intros st. reflexivity.
  - apply read_only_fails_cleanly. intros st. reflexivity.
  - apply fails_cleanly_bind; [apply read_only_require_admin |].
    intros u st e st'. discriminate.
  - apply fails_cleanly_bind; [apply read_only_require_admin |].
    intros u. apply read_only_fails_cleanly. intros st. reflexivity.
  - apply fails_cleanly_bind; [apply read_only_require_admin |].
    intros u. apply read_only_fails_cleanly. intros st. reflexivity.
  - apply fails_cleanly_bind; [apply read_only_require_admin |].
    intros u. apply read_only_fails_cleanly. intros st. reflexivity.
  - apply fails_cleanly_bind; [apply read_only_require_admin |].
    intros u. apply read_only_fails_cleanly. intros st. reflexivity.
Qed.

End FailureFacts.

(** ** More on placing an order *)

(** X4: a placement that returns has appended exactly one order, pending
    and unstamped, carrying the id and the time of the call, the requester
    and the requested service, link and quantity; it has subtracted the cost
    from the stored balance of the requester and has moved no other balance;
    services and transactions are as they were. *)
Theorem create_order_records_one_order
  (st st' : Database) (order_data : OrderCreate.t) (current_user : User.t)
  (uuid now : string) (order : Order.t) :
  run (create_order order_data current_user uuid now) st = (Ok order, st') ->
  orders st' = orders st ++ [order]
  /\ Order.id order = uuid
  /\ Order.user_id order = User.id current_user
  /\ Order.service_id order = OrderCreate.service_id order_data
  /\ Order.link order = OrderCreate.link order_data
  /\ Order.quantity order = OrderCreate.quantity order_data
  /\ Order.status order = "pending"
  /\ Order.created_at order = now
  /\ Order.completed_at order = None
  /\ services st' = services st
  /\ transactions st' = transactions st
  /\ List.length (users st') = List.length (users st)
  /\ balance_of (User.id current_user) st'
     = option_map (fun b => add b (neg (Order.total_cost order)))
         (balance_of (User.id current_user) st)
  /\ (forall other, other <> User.id current_user ->
      balance_of other st' = balance_of other st).
Proof.
  intros Hrun.
  destruct (create_order_ok _ _ _ _ _ _ _ Hrun)
    as (service & _ & _ & _ & _ & Ho & ->).
  cbn [set orders services transactions users].
  repeat split; try (rewrite Ho; reflexivity).
  - clear. induction (users st) as [| u l IH]; cbn; [reflexivity |].
    destruct (User.has_id _ u); cbn; congruence.
  - unfold balance_of. cbn [users]. rewrite balance_of_inc.
    now rewrite String.eqb_refl.
  - intros other Hother. unfold balance_of. cbn [users].
    rewrite balance_of_inc. apply String.eqb_neq in Hother.
    now rewrite Hother.
Qed.

Lemma create_order_records_one_order_witness :
  let st' :=
    snd (run (create_order (Scenario.order_data 500)
                (Scenario.user "alice" (ratio 125 100)) "order-1"
                "2024-01-02T00:00:00+00:00")
           (Scenario.store (ratio 125 100))) in
  orders st' = [Scenario.order "order-1" "alice" "pending"]
  /\ balance_of "alice" st' = Some (add (ratio 125 100) (neg (ratio 125 100))).
Proof.
  intros st'.
  destruct (create_order_records_one_order
              (Scenario.store (ratio 125 100)) st'
              (Scenario.order_data 500)
              (Scenario.user "alice" (ratio 125 100)) "order-1"
              "2024-01-02T00:00:00+00:00"
              (Scenario.order "order-1" "alice" "pending") eq_refl)
    as (Horders & _ & _ & _ & _ & _ & _ & _ & _ & _ & _ & _ & Hbal & _).
  split; [exact Horders | exact Hbal].
Defined.

(** X5: nothing checks that [min_quantity <= max_quantity] when a service
    is stored, and a service whose [min_quantity] exceeds its [max_quantity]
    cannot be ordered: every placement on it, whatever the quantity and the
    balance, raises "Quantity must be between min and max" and writes
    nothing. *)
Theorem create_order_empty_range
  (st : Database) (order_data : OrderCreate.t) (current_user : User.t)
  (uuid now : string) (service : Service.t) :
  Mongo.find_one (Service.has_id (OrderCreate.service_id order_data))
    (services st) = Some service ->
  Service.max_quantity service < Service.min_quantity service ->
  run (create_order order_data current_user uuid now) st
  = (Err (QuantityOutOfRange (Service.min_quantity service)
            (Service.max_quantity service)), st).
Proof.
  intros Hsvc Hempty.
  unfold create_order. run_step. rewrite Hsvc.
  replace ((OrderCreate.quantity order_data <? Service.min_quantity service)
           || (OrderCreate.quantity order_data >? Service.max_quantity service))
    with true; [reflexivity |].
  symmetry. apply orb_true_iff. rewrite Z.ltb_lt, Z.gtb_ltb, Z.ltb_lt. lia.
Qed.

(** ** Deposits *)

Lemma leb_zero_false (amount : float) :
  leb amount zero = false <-> strictly_positive amount \/ amount = nan.
Proof.
  destruct amount as [s | [|] | | [|] m e]; cbn; split; intros H;
    try discriminate; try reflexivity; auto;
    destruct H as [[] | [=]].
Qed.

(** X6: a deposit request is accepted exactly when the test [amount <= 0]
    fails, that is when the amount is strictly positive (an infinity
    included) or is NaN.  An accepted request appends one transaction of type
    "deposit", pending, for the requester and of that amount, and touches
    nothing else: no balance moves.  Any other amount (a zero of either sign,
    a negative number) is answered 400 "Amount must be positive" and nothing
    is written. *)
Theorem request_deposit_outcome
  (st : Database) (amount : float) (current_user : User.t)
  (uuid now : string) :
  (strictly_positive amount \/ amount = nan ->
   run (request_deposit amount current_user uuid now) st
   = (Ok ("Deposit request submitted. Waiting for admin approval.",
          {| Transaction.id := uuid;
             Transaction.user_id := User.id current_user;
             Transaction.amount := amount;
             Transaction.type := "deposit";
             Transaction.status := "pending";
             Transaction.created_at := now |}),
      {| users := users st;
         services := services st;
         orders := orders st;
         transactions :=
           transactions st
           ++ [{| Transaction.id := uuid;
                  Transaction.user_id := User.id current_user;
                  Transaction.amount := amount;
                  Transaction.type := "deposit";
                  Transaction.status := "pending";
                  Transaction.created_at := now |}] |}))
  /\ (~ (strictly_positive amount \/ amount = nan) ->
      run (request_deposit amount current_user uuid now) st
      = (Err InvalidAmount, st)).
Proof.
  unfold request_deposit. split; intros H.
  - apply leb_zero_false in H. rewrite H. reflexivity.
  - destruct (leb amount zero) eqn:Hle; [reflexivity |].
    now apply leb_zero_false in Hle.
Qed.

Lemma run_require_admin_eq (credentials : Credentials) (st : Database) :
  run (require_admin credentials) st
  = (match fst (run (get_current_user credentials) st) with
     | Ok u =>
         if negb (String.eqb (User.role u) "admin")
         then Err (HTTPException 403 "Admin access required")
         else Ok u
     | Err e => Err e
     end, st).
Proof.
  unfold require_admin. rewrite run_bind, run_get_current_user. cbn [fst].
  destruct credentials as [| | user_id]; try reflexivity.
  destruct (Mongo.find_one _ (users st)) as [u |]; [| reflexivity].
  unfold get_admin_user. now destruct (negb _).
Qed.

(** What authentication answers depends on the users only. *)
Lemma require_admin_same_users (credentials : Credentials)
  (st st' : Database) :
  users st' = users st ->
  fst (run (require_admin credentials) st')
  = fst (run (require_admin credentials) st).
Proof.
  intros H. rewrite !run_require_admin_eq, !run_get_current_user.
  cbn [fst]. now rewrite H.
Qed.

(** A deposit requested under a fresh id, then resolved by an admin. *)
Lemma deposit_then_resolve
  (st : Database) (user_id : string) (u admin : User.t) (amount : float)
  (uuid now action : string) (credentials : Credentials) :
  Mongo.find_one (User.has_id user_id) (users st) = Some u ->
  leb amount zero = false ->
  Mongo.find_one (Transaction.has_id uuid) (transactions st) = None ->
  fst (run (require_admin credentials) st) = Ok admin ->
  action = "approve" \/ action = "reject" ->
  let t := {| Transaction.id := uuid;
              Transaction.user_id := User.id u;
              Transaction.amount := amount;
              Transaction.type := "deposit";
              Transaction.status := "pending";
              Transaction.created_at := now |} in
  let resolved :=
    Transaction.set_status
      (if String.eqb action "approve" then "approved" else "rejected") t in
  serve [POST_user_deposit (Payload user_id) amount uuid now;
         PUT_admin_deposit credentials uuid action] st
  = ([Ok (a_deposit "Deposit request submitted. Waiting for admin approval."
            t);
      Ok (a_message
            (if String.eqb action "approve" then "Deposit approved"
             else "Deposit rejected"))],
     {| users :=
          if String.eqb action "approve"
          then Mongo.update_one (User.has_id (User.id u))
                 (User.inc_balance amount) (users st)
          else users st;
        services := services st;
        orders := orders st;
        transactions := transactions st ++ [resolved] |}).
Proof.
  intros Hu Hamount Hfresh Hadmin Haction t resolved.
  assert (Hin : str_in action ["approve"; "reject"] = true)
    by (destruct Haction as [-> | ->]; reflexivity).
  cbn [serve]. unfold route at 1. rewrite run_bind, run_get_current_user, Hu.
  rewrite run_bind. unfold request_deposit. rewrite Hamount. run_step.
  fold t. unfold route. rewrite run_bind.
  rewrite run_require_admin_eq, run_get_current_user in Hadmin.
  cbn [fst] in Hadmin.
  rewrite run_require_admin_eq, run_get_current_user. cbn [fst users].
  rewrite Hadmin.
  rewrite run_bind. unfold approve_deposit. rewrite Hin. run_step.
  cbn [transactions]. rewrite find_one_insert_one, Hfresh.
  unfold Transaction.has_id at 1. cbn [Transaction.id t].
  rewrite String.eqb_refl. cbn [Transaction.status t String.eqb Ascii.eqb
                                  Bool.eqb negb].
  assert (Hupd :
    Mongo.update_one (Transaction.has_id uuid)
      (Transaction.set_status
         (if String.eqb action "approve" then "approved" else "rejected"))
      (Mongo.insert_one t (transactions st))
    = transactions st ++ [resolved]).
  { unfold Mongo.insert_one.
    rewrite (update_one_split _ _ (transactions st) t []).
    - reflexivity.
    - unfold Transaction.has_id. cbn. apply String.eqb_refl.
    - apply find_one_None. exact Hfresh. }
  destruct (String.eqb action "approve") eqn:Ha; run_step;
    cbn [users services orders transactions]; rewrite Hupd; reflexivity.
Qed.

(** X7: a deposit requested under an id no stored transaction has, then
    resolved by an admin under that id.  Approved, it adds exactly the
    requested amount to the balance the requester had, and the transaction is
    found approved; rejected, it leaves the balance as it was, and the
    transaction is found rejected.  Both requests are answered without an
    exception. *)
Theorem deposit_round_trip
  (st : Database) (user_id : string) (u admin : User.t) (amount : float)
  (uuid now : string) (credentials : Credentials) :
  Mongo.find_one (User.has_id user_id) (users st) = Some u ->
  leb amount zero = false ->
  Mongo.find_one (Transaction.has_id uuid) (transactions st) = None ->
  fst (run (require_admin credentials) st) = Ok admin ->
  let request := POST_user_deposit (Payload user_id) amount uuid now in
  let recorded (status : string) :=
    {| Transaction.id := uuid;
       Transaction.user_id := user_id;
       Transaction.amount := amount;
       Transaction.type := "deposit";
       Transaction.status := status;
       Transaction.created_at := now |} in
  let approved :=
    serve [request; PUT_admin_deposit credentials uuid "approve"] st in
  let rejected :=
    serve [request; PUT_admin_deposit credentials uuid "reject"] st in
  fst approved
  = [Ok (a_deposit "Deposit request submitted. Waiting for admin approval."
           (recorded "pending"));
     Ok (a_message "Deposit approved")]
  /\ balance_of user_id (snd approved) = Some (add (User.balance u) amount)
  /\ Mongo.find_one (Transaction.has_id uuid) (transactions (snd approved))
     = Some (recorded "approved")
  /\ fst rejected
     = [Ok (a_deposit "Deposit request submitted. Waiting for admin approval."
              (recorded "pending"));
        Ok (a_message "Deposit rejected")]
  /\ balance_of user_id (snd rejected) = Some (User.balance u)
  /\ Mongo.find_one (Transaction.has_id uuid) (transactions (snd rejected))
     = Some (recorded "rejected").
Proof.
  intros Hu Hamount Hfresh Hadmin request recorded approved rejected.
  subst request approved rejected.
  rewrite (deposit_then_resolve st user_id u admin amount uuid now "approve"
             credentials Hu Hamount Hfresh Hadmin (or_introl eq_refl)).
  rewrite (deposit_then_resolve st user_id u admin amount uuid now "reject"
             credentials Hu Hamount Hfresh Hadmin (or_intror eq_refl)).
  apply find_one_In in Hu as Hid. destruct Hid as [_ Hid].
  apply String.eqb_eq in Hid.
  assert (Hlast : forall t : Transaction.t,
    Transaction.id t = uuid ->
    Mongo.find_one (Transaction.has_id uuid) (transactions st ++ [t])
    = Some t).
  { intros t Ht. change (transactions st ++ [t])
      with (Mongo.insert_one t (transactions st)).
    rewrite find_one_insert_one, Hfresh. unfold Transaction.has_id.
    rewrite Ht. now rewrite String.eqb_refl. }
  cbn [fst snd String.eqb Ascii.eqb Bool.eqb]. rewrite Hid.
  repeat split.
  - unfold balance_of. cbn [users]. rewrite balance_of_inc.
    now rewrite String.eqb_refl, Hu.
  - cbn [transactions]. now rewrite Hlast.
  - unfold balance_of. cbn [users]. now rewrite Hu.
  - cbn [transactions]. now rewrite Hlast.
Qed.

Lemma deposit_round_trip_witness :
  balance_of "alice"
    (snd (serve [POST_user_deposit (Payload "alice") (ratio 50 1) "dep-3"
                   "2024-01-03T00:00:00+00:00";
                 PUT_admin_deposit (Payload "admin") "dep-3" "approve"]
            Rounding.store))
  = Some (add (ratio 1 10) (ratio 50 1))
  /\ balance_of "alice"
       (snd (serve [POST_user_deposit (Payload "alice") (ratio 50 1) "dep-3"
                      "2024-01-03T00:00:00+00:00";
                    PUT_admin_deposit (Payload "admin") "dep-3" "reject"]
               Rounding.store))
     = Some (ratio 1 10).
Proof.
  destruct (deposit_round_trip Rounding.store "alice"
              (Scenario.user "alice" (ratio 1 10)) Scenario.admin
              (ratio 50 1) "dep-3" "2024-01-03T00:00:00+00:00"
              (Payload "admin") eq_refl eq_refl eq_refl eq_refl)
    as (_ & Happroved & _ & _ & Hrejected & _).
  split; [exact Happroved | exact Hrejected].
Defined.

Lemma add_nan (x : float) : add x nan = nan.
Proof. now destruct x as [s | s | | s m e]. Qed.

(** A requester whose balance is NaN is never refused for its balance. *)
Lemma create_order_nan_balance
  (st : Database) (order_data : OrderCreate.t) (current_user : User.t)
  (uuid now : string) :
  User.balance current_user = nan ->
  fst (run (create_order order_data current_user uuid now) st)
  <> Err InsufficientBalance.
Proof.
  intros Hnan. unfold create_order. run_step.
  destruct (Mongo.find_one _ (services st)) as [service |];
    [| discriminate].
  destruct (_ || _); [discriminate |].
  unfold int_truediv. cbn [Z.eqb].
  destruct (is_inf _); [discriminate |].
  run_step. rewrite Hnan. cbn [ltb SFltb SFcompare]. run_step. discriminate.
Qed.

(** X8: the test [amount <= 0] lets a NaN amount through.  Once such a
    deposit is approved, the balance of the requester is NaN, and no
    placement by that user is refused for insufficient balance any more,
    whatever it costs: the test [balance < total_cost] is false on NaN. *)
Theorem nan_deposit_disables_balance_check
  (st : Database) (user_id : string) (u admin : User.t)
  (uuid now : string) (credentials : Credentials) :
  Mongo.find_one (User.has_id user_id) (users st) = Some u ->
  Mongo.find_one (Transaction.has_id uuid) (transactions st) = None ->
  fst (run (require_admin credentials) st) = Ok admin ->
  let st' :=
    snd (serve [POST_user_deposit (Payload user_id) nan uuid now;
                PUT_admin_deposit credentials uuid "approve"] st) in
  balance_of user_id st' = Some nan
  /\ forall order_data uuid' now',
       fst (run (route (POST_orders (Payload user_id) order_data uuid' now'))
              st')
       <> Err InsufficientBalance.
Proof.
  intros Hu Hfresh Hadmin st'. subst st'.
  rewrite (deposit_then_resolve st user_id u admin nan uuid now "approve"
             credentials Hu eq_refl Hfresh Hadmin (or_introl eq_refl)).
  cbn [snd String.eqb Ascii.eqb Bool.eqb].
  apply find_one_In in Hu as Hid. destruct Hid as [_ Hid].
  apply String.eqb_eq in Hid. rewrite Hid.
  assert (Hfound :
    Mongo.find_one (User.has_id user_id)
      (Mongo.update_one (User.has_id user_id) (User.inc_balance nan)
         (users st))
    = Some (User.inc_balance nan u)).
  { rewrite find_one_update_one by apply has_id_inc_balance.
    now rewrite Hu. }
  split.
  - unfold balance_of. cbn [users]. rewrite Hfound. cbn.
    now rewrite add_nan.
  - intros order_data uuid' now'. unfold route.
    rewrite run_bind, run_get_current_user. cbn [users]. rewrite Hfound.
    rewrite run_bind.
    pose proof (create_order_nan_balance
                  {| users :=
                       Mongo.update_one (User.has_id user_id)
                         (User.inc_balance nan) (users st);
                     services := services st;
                     orders := orders st;
                     transactions :=
                       transactions st
                       ++ [Transaction.set_status "approved"
                             {| Transaction.id := uuid;
                                Transaction.user_id := user_id;
                                Transaction.amount := nan;
                                Transaction.type := "deposit";
                                Transaction.status := "pending";
                                Transaction.created_at := now |}] |}
                  order_data (User.inc_balance nan u) uuid' now') as Hco.
    destruct (run (create_order order_data (User.inc_balance nan u) uuid' now')
                _) as [[o | e] st1]; cbn [run fst] in *.
    + discriminate.
    + intros [= ->]. apply Hco; [| reflexivity]. cbn. apply add_nan.
Qed.

Lemma nan_deposit_disables_balance_check_witness :
  balance_of "alice"
    (snd (serve [POST_user_deposit (Payload "alice") nan "dep-3"
                   "2024-01-03T00:00:00+00:00";
                 PUT_admin_deposit (Payload "admin") "dep-3" "approve"]
            Rounding.store))
  = Some nan.
Proof.
  apply (nan_deposit_disables_balance_check Rounding.store "alice"
           (Scenario.user "alice" (ratio 1 10)) Scenario.admin
           "dep-3" "2024-01-03T00:00:00+00:00" (Payload "admin")
           eq_refl eq_refl eq_refl).
Defined.

(** ** Placing, then reading *)

Lemma length_insert_desc {D : Type} (key : D -> string) (d : D) (l : list D) :
  List.length (Mongo.insert_desc key d l) = S (List.length l).
Proof.
  induction l as [| x l IH]; cbn; [reflexivity |].
  destruct (String.ltb (key d) (key x)); cbn; congruence.
Qed.

Lemma length_sort_desc {D : Type} (key : D -> string) (l : list D) :
  List.length (Mongo.sort_desc key l) = List.length l.
Proof.
  unfold Mongo.sort_desc.
  induction l as [| x l IH]; cbn [fold_right List.length]; [reflexivity |].
  now rewrite length_insert_desc, IH.
Qed.

Lemma to_list_all {D : Type} (n : nat) (l : list D) :
  (List.length l <= n)%nat -> Mongo.to_list n l = l.
Proof.
  unfold Mongo.to_list. revert n.
  induction l as [| x l IH]; intros [| n] H; cbn in *; try reflexivity;
    try lia.
  f_equal. apply IH. lia.
Qed.

(** X9: an order placed under an id that none of the earlier orders of the
    requester has can be fetched by the requester under that id, and the
    answer is the order the placement returned; it is in the listing of the
    requester whenever the requester had fewer than a thousand orders. *)
Theorem placed_order_is_fetched
  (st st' : Database) (user_id : string) (order_data : OrderCreate.t)
  (uuid now : string) (order : Order.t) :
  run (route (POST_orders (Payload user_id) order_data uuid now)) st
  = (Ok (an_order order), st') ->
  Mongo.find_one
    (fun o : Order.t => Order.has_id uuid o && Order.has_user_id user_id o)
    (orders st) = None ->
  run (route (GET_order (Payload user_id) uuid)) st'
  = (Ok (an_order order), st')
  /\ exists l,
       run (route (GET_orders (Payload user_id))) st' = (Ok (some_orders l), st')
       /\ ((List.length (Mongo.find (Order.has_user_id user_id) (orders st))
            < 1000)%nat -> In order l).
Proof.
  intros Hrun Hfresh.
  destruct (route_POST_orders_ok _ _ _ _ _ _ _ Hrun)
    as (uid & u & o & [= <-] & Hu & Hid & [= <-] & Hco).
  destruct (create_order_ok _ _ _ _ _ _ _ Hco)
    as (service & _ & _ & _ & _ & Ho & ->).
  assert (Hfound :
    Mongo.find_one (User.has_id user_id)
      (Mongo.update_one (User.has_id (User.id u))
         (User.inc_balance (neg (Order.total_cost order))) (users st))
    = Some (User.inc_balance (neg (Order.total_cost order)) u)).
  { rewrite Hid, find_one_update_one by apply has_id_inc_balance.
    now rewrite Hu. }
  assert (Hmine : Order.has_id uuid order && Order.has_user_id user_id order
                  = true).
  { rewrite Ho. unfold Order.has_id, Order.has_user_id. cbn.
    now rewrite Hid, !String.eqb_refl. }
  split.
  - unfold route. rewrite run_bind, run_get_current_user.
    cbn [set users]. rewrite Hfound. rewrite run_bind.
    unfold get_order. run_step. cbn [orders User.inc_balance User.id].
    rewrite Hid, find_one_insert_one, Hfresh, Hmine. reflexivity.
  - unfold route. rewrite run_bind, run_get_current_user.
    cbn [set users]. rewrite Hfound. rewrite run_bind.
    unfold get_user_orders. run_step. cbn [orders User.inc_balance User.id].
    eexists. split; [reflexivity |]. intros Hfew. rewrite Hid.
    unfold Mongo.find, Mongo.insert_one in *. rewrite filter_app.
    apply andb_true_iff in Hmine. destruct Hmine as [_ Hmine].
    cbn [filter]. rewrite Hmine.
    rewrite to_list_all.
    + apply In_sort_desc, in_or_app. right. now left.
    + rewrite length_sort_desc, length_app. cbn [List.length]. lia.
Qed.

Lemma placed_order_is_fetched_witness :
  let st' := snd (run (route Race.first) Race.store) in
  run (route (GET_order (Payload "alice") "order-1")) st'
  = (Ok (an_order (Scenario.order "order-1" "alice" "pending")), st').
Proof.
  intros st'.
  apply (placed_order_is_fetched Race.store st' "alice"
           (Scenario.order_data 500) "order-1" "2024-01-02T00:00:00+00:00"
           (Scenario.order "order-1" "alice" "pending") eq_refl eq_refl).
Defined.

(** ** More on the status of an order *)

Lemma update_order_status_not_found_witness :
  fst (run (update_order_status "order-1" "pending" Scenario.admin
              "2024-01-03T00:00:00+00:00") Repeat.store)
  = Err OrderNotFound
  /\ fst (run (update_order_status "order-2" "processing" Scenario.admin
                 "2024-01-03T00:00:00+00:00") Repeat.store)
     = Err OrderNotFound.
Proof.
  split.
  - apply (update_order_status_not_found Repeat.store "order-1" "pending"
             Scenario.admin "2024-01-03T00:00:00+00:00").
    + now left.
    + right. exists (Scenario.order "order-1" "alice" "pending").
      split; [reflexivity |]. split; [reflexivity | discriminate].
  - apply (update_order_status_not_found Repeat.store "order-2" "processing"
             Scenario.admin "2024-01-03T00:00:00+00:00").
    + right. now left.
    + now left.
Defined.

(** X11: no transition graph is enforced.  Whatever the status of the
    first order with the given id, a move to any legal status that differs
    from it is answered "Order status updated", and so is a move to
    "completed" at a time other than the one stamped; that order is then found
    with the new status, stamped with the current time if the status is
    "completed" and with its earlier stamp otherwise; an illegal status is
    answered 400 "Invalid status" with nothing written. *)
Theorem update_order_status_any_transition
  (st : Database) (order_id status : string) (admin : User.t) (now : string)
  (o : Order.t) :
  Mongo.find_one (Order.has_id order_id) (orders st) = Some o ->
  (legal_status status ->
   Order.status o <> status
   \/ (status = "completed" /\ Order.completed_at o <> Some now) ->
   fst (run (update_order_status order_id status admin now) st)
   = Ok "Order status updated"
   /\ Mongo.find_one (Order.has_id order_id)
        (orders (snd (run (update_order_status order_id status admin now) st)))
      = Some {| Order.id := Order.id o;
                Order.user_id := Order.user_id o;
                Order.service_id := Order.service_id o;
                Order.link := Order.link o;
                Order.quantity := Order.quantity o;
                Order.total_cost := Order.total_cost o;
                Order.status := status;
                Order.created_at := Order.created_at o;
                Order.completed_at :=
                  if String.eqb status "completed" then Some now
                  else Order.completed_at o |})
  /\ (~ legal_status status ->
      run (update_order_status order_id status admin now) st
      = (Err InvalidStatus, st)).
Proof.
  intros Ho. split.
  - intros Hlegal Hchange. apply legal_status_in in Hlegal.
    unfold update_order_status. rewrite Hlegal. run_step.
    unfold Mongo.update_result. rewrite Ho. cbn [Mongo.modified_count].
    destruct (Order.eq_dec _ o) as [Heq | _].
    + exfalso. destruct Hchange as [Hs | [-> Hc]].
      * apply Hs. now rewrite <- Heq at 1.
      * apply Hc. rewrite <- Heq at 1. reflexivity.
    + cbn [Z.eqb run fst snd orders].
      split; [reflexivity |].
      rewrite find_one_update_one by reflexivity. rewrite Ho.
      cbn [option_map]. f_equal. unfold Order.set_status.
      now destruct (String.eqb status "completed").
  - intros Hillegal. unfold update_order_status.
    destruct (str_in status _) eqn:Hin; [| reflexivity].
    now apply legal_status_in in Hin.
Qed.

Lemma update_order_status_any_transition_witness :
  fst (run (update_order_status "order-1" "completed" Scenario.admin
              "2024-01-03T00:00:00+00:00") Repeat.store)
  = Ok "Order status updated"
  /\ run (update_order_status "order-1" "shipped" Scenario.admin
            "2024-01-03T00:00:00+00:00") Repeat.store
     = (Err InvalidStatus, Repeat.store).
Proof.
  destruct (update_order_status_any_transition Repeat.store "order-1"
              "completed" Scenario.admin "2024-01-03T00:00:00+00:00"
              (Scenario.order "order-1" "alice" "pending") eq_refl)
    as [Hlegal _].
  destruct (update_order_status_any_transition Repeat.store "order-1"
              "shipped" Scenario.admin "2024-01-03T00:00:00+00:00"
              (Scenario.order "order-1" "alice" "pending") eq_refl)
    as [_ Hillegal].
  split.
  - apply Hlegal.
    + right. right. now left.
    + left. discriminate.
  - apply Hillegal. intros [H | [H | [H | H]]]; discriminate.
Defined.

(** ** Listings *)

Lemma ascii_compare_trans (a b c : ascii) :
  Ascii.compare a b <> Lt -> Ascii.compare b c <> Lt ->
  Ascii.compare a c <> Lt.
Proof.
  unfold Ascii.compare. rewrite !N.compare_lt_iff. lia.
Qed.

Lemma ascii_compare_lt_trans (a b c : ascii) :
  Ascii.compare a b = Gt -> Ascii.compare b c <> Lt ->
  Ascii.compare a c = Gt.
Proof.
  unfold Ascii.compare. rewrite !N.compare_gt_iff, N.compare_lt_iff. lia.
Qed.

Lemma ascii_compare_trans_lt (a b c : ascii) :
  Ascii.compare a b <> Lt -> Ascii.compare b c = Gt ->
  Ascii.compare a c = Gt.
Proof.
  unfold Ascii.compare. rewrite !N.compare_gt_iff, N.compare_lt_iff. lia.
Qed.

(** [>=] on strings is transitive. *)
Lemma string_ge_trans (a b c : string) :
  String.ltb a b = false -> String.ltb b c = false -> String.ltb a c = false.
Proof.
  unfold String.ltb. revert b c.
  induction a as [| x a IH]; intros [| y b] [| z c]; cbn;
    try reflexivity; try discriminate.
  destruct (Ascii.compare x y) eqn:Hxy; try discriminate;
    destruct (Ascii.compare y z) eqn:Hyz; try discriminate; intros Hab Hbc.
  - apply Ascii.compare_eq_iff in Hxy, Hyz. subst y z.
    replace (Ascii.compare x x) with Eq
      by (symmetry; unfold Ascii.compare; apply N.compare_refl).
    now apply (IH b c).
  - apply Ascii.compare_eq_iff in Hxy. subst y. now rewrite Hyz.
  - apply Ascii.compare_eq_iff in Hyz. subst z. now rewrite Hxy.
  - rewrite (ascii_compare_lt_trans x y z); [reflexivity | assumption |].
    now rewrite Hyz.
Qed.

Lemma string_lt_ge (a b : string) :
  String.ltb a b = true -> String.ltb b a = false.
Proof.
  unfold String.ltb. rewrite (String.compare_antisym b a).
  now destruct (String.compare a b).
Qed.

Section Listing.

Context {D : Type}.
Variable key : D -> string.

Local Abbreviation ge := (fun a b : D => String.ltb (key a) (key b) = false).

Lemma newest_first_insert_desc (d : D) (l : list D) :
  newest_first key l -> newest_first key (Mongo.insert_desc key d l).
Proof.
  unfold newest_first.
  induction l as [| x l IH]; intros Hl; cbn [Mongo.insert_desc].
  - repeat constructor.
  - apply StronglySorted_inv in Hl. destruct Hl as [Hl Hx].
    destruct (String.ltb (key d) (key x)) eqn:Hdx.
    + constructor; [now apply IH |].
      apply Forall_forall. intros y Hy. apply In_insert_desc in Hy.
      destruct Hy as [-> | Hy]; [now apply string_lt_ge |].
      now apply (proj1 (Forall_forall _ _) Hx).
    + constructor; [now constructor |].
      constructor; [exact Hdx |].
      apply Forall_forall. intros y Hy.
      apply (string_ge_trans _ (key x)); [exact Hdx |].
      now apply (proj1 (Forall_forall _ _) Hx).
Qed.

Lemma newest_first_sort_desc (l : list D) :
  newest_first key (Mongo.sort_desc key l).
Proof.
  unfold Mongo.sort_desc.
  induction l as [| x l IH]; cbn [fold_right]; [constructor |].
  now apply newest_first_insert_desc.
Qed.

Lemma Permutation_insert_desc (d : D) (l : list D) :
  Permutation (Mongo.insert_desc key d l) (d :: l).
Proof.
  induction l as [| x l IH]; cbn [Mongo.insert_desc]; [reflexivity |].
  destruct (String.ltb (key d) (key x)); [| reflexivity].
  rewrite IH. apply perm_swap.
Qed.

Lemma Permutation_sort_desc (l : list D) :
  Permutation (Mongo.sort_desc key l) l.
Proof.
  unfold Mongo.sort_desc.
  induction l as [| x l IH]; cbn [fold_right]; [reflexivity |].
  now rewrite Permutation_insert_desc, IH.
Qed.

(** In a sorted list, what comes first is not older than what comes
    after. *)
Lemma newest_first_app (l1 l2 : list D) :
  newest_first key (l1 ++ l2) ->
  newest_first key l1
  /\ forall a b, In a l1 -> In b l2 -> String.ltb (key a) (key b) = false.
Proof.
  unfold newest_first. induction l1 as [| x l1 IH]; cbn [app]; intros H.
  - split; [constructor | intros a b []].
  - apply StronglySorted_inv in H. destruct H as [H Hx].
    destruct (IH H) as [H1 H2]. split.
    + constructor; [exact H1 |].
      apply Forall_forall. intros y Hy.
      apply (proj1 (Forall_forall _ _) Hx), in_or_app. now left.
    + intros a b [<- | Ha] Hb; [| now apply H2].
      apply (proj1 (Forall_forall _ _) Hx), in_or_app. now right.
Qed.

(** What [find(query).sort(key, -1).to_list(n)] answers: at most [n]
    documents, sorted, all selected by the query; all the selected documents
    if there are at most [n]; and no document left out is newer than one that
    is listed. *)
Lemma listing_spec (query : D -> bool) (n : nat) (c : list D) :
  let l := Mongo.to_list n (Mongo.sort_desc key (Mongo.find query c)) in
  (List.length l <= n)%nat
  /\ newest_first key l
  /\ (forall d, In d l -> In d c /\ query d = true)
  /\ ((List.length (Mongo.find query c) <= n)%nat ->
      Permutation l (Mongo.find query c))
  /\ (forall d, In d c -> query d = true ->
      In d l \/ forall d', In d' l -> String.ltb (key d') (key d) = false).
Proof.
  intros l. subst l. unfold Mongo.to_list.
  set (sorted := Mongo.sort_desc key (Mongo.find query c)).
  pose proof (newest_first_sort_desc (Mongo.find query c)) as Hsorted.
  fold sorted in Hsorted.
  rewrite <- (firstn_skipn n sorted) in Hsorted.
  apply newest_first_app in Hsorted. destruct Hsorted as [Hfirst Hcut].
  split; [apply firstn_le_length |]. split; [exact Hfirst |]. split; [| split].
  - intros d Hd. apply (In_to_list n) in Hd.
    apply In_sort_desc in Hd. now apply filter_In in Hd.
  - intros Hfew. rewrite firstn_all2.
    + apply Permutation_sort_desc.
    + unfold sorted. now rewrite length_sort_desc.
  - intros d Hd Hq.
    assert (Hin : In d sorted)
      by (apply In_sort_desc, filter_In; auto).
    rewrite <- (firstn_skipn n sorted) in Hin.
    apply in_app_or in Hin. destruct Hin as [Hin | Hin]; [now left |].
    right. intros d' Hd'. now apply Hcut.
Qed.

End Listing.

Lemma find_every {D : Type} (l : list D) : Mongo.find every l = l.
Proof.
  unfold Mongo.find. induction l as [| d l IH]; cbn [filter every];
    [reflexivity | now rewrite IH].
Qed.

(** X12: the listing of a user holds at most a thousand orders, all of
    them stored orders of that user, newest first by creation time; it holds
    every order of the user (each as often as it is stored) when there are at
    most a thousand, and otherwise no order it leaves out is newer than one it
    holds.  Nothing is written. *)
Theorem get_user_orders_listing (st : Database) (current_user : User.t) :
  exists l,
    run (get_user_orders current_user) st = (Ok l, st)
    /\ (List.length l <= 1000)%nat
    /\ newest_first Order.created_at l
    /\ (forall o, In o l ->
        In o (orders st) /\ Order.user_id o = User.id current_user)
    /\ ((List.length
           (filter (Order.has_user_id (User.id current_user)) (orders st))
         <= 1000)%nat ->
        Permutation l
          (filter (Order.has_user_id (User.id current_user)) (orders st)))
    /\ (forall o,
        In o (orders st) -> Order.user_id o = User.id current_user ->
        In o l
        \/ forall o', In o' l ->
           String.ltb (Order.created_at o') (Order.created_at o) = false).
Proof.
  eexists. split; [reflexivity |].
  destruct (listing_spec Order.created_at
              (Order.has_user_id (User.id current_user)) 1000 (orders st))
    as (Hlen & Hsorted & Hin & Hall & Hcut).
  split; [exact Hlen |]. split; [exact Hsorted |]. split; [| split].
  - intros o Ho. destruct (Hin o Ho) as [H1 H2].
    split; [exact H1 | now apply String.eqb_eq].
  - exact Hall.
  - intros o Ho Hmine. apply Hcut; [exact Ho |]. now apply String.eqb_eq.
Qed.

(** X13: the admin listings.  [get_all_orders] answers at most a thousand
    stored orders, newest first, and all of them when there are at most a
    thousand; [get_deposits] answers at most a thousand stored transactions,
    all of type "deposit", newest first, and all the deposits when there are
    at most a thousand.  Neither writes. *)
Theorem admin_listings (st : Database) (admin : User.t) :
  (exists l,
     run (get_all_orders admin) st = (Ok l, st)
     /\ (List.length l <= 1000)%nat
     /\ newest_first Order.created_at l
     /\ (forall o, In o l -> In o (orders st))
     /\ ((List.length (orders st) <= 1000)%nat -> Permutation l (orders st)))
  /\ (exists l,
        run (get_deposits admin) st = (Ok l, st)
        /\ (List.length l <= 1000)%nat
        /\ newest_first Transaction.created_at l
        /\ (forall t, In t l ->
            In t (transactions st) /\ Transaction.type t = "deposit")
        /\ ((List.length (filter (has_type "deposit") (transactions st))
             <= 1000)%nat ->
            Permutation l (filter (has_type "deposit") (transactions st)))).
Proof.
  split.
  - eexists. split; [reflexivity |].
    destruct (listing_spec Order.created_at every 1000 (orders st))
      as (Hlen & Hsorted & Hin & Hall & _).
    split; [exact Hlen |]. split; [exact Hsorted |]. split.
    + intros o Ho. now apply Hin.
    + intros Hfew. rewrite find_every in Hall.
      apply (Permutation_trans (l' := Mongo.to_list 1000
               (Mongo.sort_desc Order.created_at (orders st))));
        [| now apply Hall].
      cbn [get]. now rewrite find_every.
  - eexists. split; [reflexivity |].
    destruct (listing_spec Transaction.created_at (has_type "deposit") 1000
                (transactions st)) as (Hlen & Hsorted & Hin & Hall & _).
    split; [exact Hlen |]. split; [exact Hsorted |]. split; [| exact Hall].
    intros t Ht. destruct (Hin t Ht) as [H1 H2].
    split; [exact H1 | now apply String.eqb_eq].
Qed.

(** ** The catalog *)

(** X14: [get_services] writes nothing and answers at most a thousand
    services, in insertion order.  With a filter that is not empty they are
    the stored services of exactly that platform, all of them when there are
    at most a thousand.  With no filter, and with the empty string as filter,
    they are the stored services of every platform: a service whose platform
    is the empty string cannot be singled out. *)
Theorem get_services_filter (st : Database) (platform : option string) :
  exists l,
    run (get_services platform) st = (Ok l, st)
    /\ (List.length l <= 1000)%nat
    /\ (forall p, platform = Some p -> p <> "" ->
        l = firstn 1000 (filter (has_platform p) (services st))
        /\ (forall s, In s l -> In s (services st) /\ Service.platform s = p)
        /\ ((List.length (filter (has_platform p) (services st)) <= 1000)%nat
            -> l = filter (has_platform p) (services st)))
    /\ (platform = None \/ platform = Some "" ->
        l = firstn 1000 (services st)
        /\ ((List.length (services st) <= 1000)%nat -> l = services st)).
Proof.
  eexists. split; [reflexivity |].
  split; [apply firstn_le_length |]. split.
  - intros p -> Hp. apply String.eqb_neq in Hp. rewrite Hp.
    split; [reflexivity |]. split.
    + intros s Hs. apply In_to_list, filter_In in Hs.
      destruct Hs as [H1 H2]. split; [exact H1 | now apply String.eqb_eq].
    + intros Hfew. now apply to_list_all.
  - intros [-> | ->]; cbn [String.eqb]; cbn [get]; rewrite find_every;
      (split; [reflexivity | intros Hfew; now apply to_list_all]).
Qed.


(** ** Accounts *)

Section AccountFacts.

Variable hashpw : string -> string -> string.
Variable checkpw : string -> string -> bool.
Variable jwt_encode : string -> string -> string.

Lemma run_register
  (st : Database) (user_data : UserRegister.t) (uuid now salt exp : string) :
  run (register hashpw jwt_encode user_data uuid now salt exp) st
  = match Mongo.find_one (has_email (UserRegister.email user_data))
            (users st) with
    | Some _ => (Err (HTTPException 400 "Email already registered"), st)
    | None =>
        let document :=
          {| User.id := uuid;
             User.email := UserRegister.email user_data;
             User.name := UserRegister.name user_data;
             User.balance := zero;
             User.role := "user";
             User.created_at := now;
             User.password_hash :=
               hashpw (UserRegister.password user_data) salt |} in
        (Ok (jwt_encode uuid exp, UserModel.of_document document),
         {| users := Mongo.insert_one document (users st);
            services := services st;
            orders := orders st;
            transactions := transactions st |})
    end.
Proof.
  unfold register. run_step.
  now destruct (Mongo.find_one _ (users st)).
Qed.

Lemma no_user_has_email (st : Database) (email : string) :
  (forall u, In u (users st) -> User.email u <> email) <->
  Mongo.find_one (has_email email) (users st) = None.
Proof.
  rewrite find_one_None. unfold has_email.
  split; intros H u Hu; specialize (H u Hu); now apply String.eqb_neq.
Qed.

(** X16: [register] refuses an email that a stored user has, exactly as
    written, with 400 "Email already registered" and writes nothing.
    Otherwise it appends one user document and changes no other: the new
    account has the id and the time of the call, the email and name given, a
    balance of zero, the role "user" and the hash of the password under the
    salt of the call; the answer carries a token made for the new id and the
    account without its hash. *)
Theorem register_outcome
  (st : Database) (user_data : UserRegister.t) (uuid now salt exp : string) :
  let email := UserRegister.email user_data in
  let document :=
    {| User.id := uuid;
       User.email := email;
       User.name := UserRegister.name user_data;
       User.balance := zero;
       User.role := "user";
       User.created_at := now;
       User.password_hash :=
         hashpw (UserRegister.password user_data) salt |} in
  ((exists u, In u (users st) /\ User.email u = email) ->
   run (register hashpw jwt_encode user_data uuid now salt exp) st
   = (Err (HTTPException 400 "Email already registered"), st))
  /\ ((forall u, In u (users st) -> User.email u <> email) ->
      run (register hashpw jwt_encode user_data uuid now salt exp) st
      = (Ok (jwt_encode uuid exp, UserModel.of_document document),
         {| users := users st ++ [document];
            services := services st;
            orders := orders st;
            transactions := transactions st |})).
Proof.
  intros email document. subst email. rewrite run_register. split.
  - intros (u & Hin & Hu).
    destruct (Mongo.find_one _ (users st)) as [x |] eqn:Hx; [reflexivity |].
    exfalso. now apply (proj2 (no_user_has_email _ _) Hx u).
  - intros Hnew. now rewrite (proj1 (no_user_has_email _ _) Hnew).
Qed.

(** X17: [login] never writes.  It answers 401 "Invalid credentials", the
    same answer, when no stored user has the email and when the password does
    not verify against the hash of the first stored user with the email; when
    it verifies, it answers a token made for the id of that user, and that
    user without the hash. *)
Theorem login_outcome
  (st : Database) (credentials : UserLogin.t) (exp : string) :
  snd (run (login checkpw jwt_encode credentials exp) st) = st
  /\ (Mongo.find_one (has_email (UserLogin.email credentials)) (users st)
      = None ->
      fst (run (login checkpw jwt_encode credentials exp) st)
      = Err (HTTPException 401 "Invalid credentials"))
  /\ (forall u,
        Mongo.find_one (has_email (UserLogin.email credentials)) (users st)
        = Some u ->
        fst (run (login checkpw jwt_encode credentials exp) st)
        = if checkpw (UserLogin.password credentials) (User.password_hash u)
          then Ok (jwt_encode (User.id u) exp, UserModel.of_document u)
          else Err (HTTPException 401 "Invalid credentials")).
Proof.
  split; [apply read_only_login |]. unfold login. run_step. split.
  - now intros ->.
  - intros u ->. unfold verify_password.
    now destruct (checkpw _ _).
Qed.

(** X18: registering, then logging in.  When no stored user has the email
    and the library verifies a password against its own hash, a login with the
    registered email and password, after the registration, is answered with
    a token made for the id the registration gave and with the account the
    registration returned; a login with a password that does not verify
    against the stored hash is answered 401; and when no stored user had the
    new id, a request whose token carries that id is authenticated as the new
    account. *)
Theorem register_then_login
  (st : Database) (user_data : UserRegister.t)
  (uuid now salt exp exp' : string) :
  (forall u, In u (users st) -> User.email u <> UserRegister.email user_data) ->
  checkpw (UserRegister.password user_data)
    (hashpw (UserRegister.password user_data) salt) = true ->
  let registered :=
    run (register hashpw jwt_encode user_data uuid now salt exp) st in
  let st' := snd registered in
  exists account,
    fst registered = Ok (jwt_encode uuid exp, account)
    /\ UserModel.id account = uuid
    /\ run (login checkpw jwt_encode
              {| UserLogin.email := UserRegister.email user_data;
                 UserLogin.password := UserRegister.password user_data |}
              exp') st'
       = (Ok (jwt_encode uuid exp', account), st')
    /\ (forall password,
          checkpw password (hashpw (UserRegister.password user_data) salt)
          = false ->
          run (login checkpw jwt_encode
                 {| UserLogin.email := UserRegister.email user_data;
                    UserLogin.password := password |} exp') st'
          = (Err (HTTPException 401 "Invalid credentials"), st'))
    /\ (Mongo.find_one (User.has_id uuid) (users st) = None ->
        exists document,
          run (get_current_user (Payload uuid)) st' = (Ok document, st')
          /\ run (get_me document) st' = (Ok account, st')).
Proof.
  intros Hnew Hcheck registered st'. subst st' registered.
  pose proof (proj1 (no_user_has_email _ _) Hnew) as Hfresh.
  rewrite run_register, Hfresh.
  cbn [fst snd]. eexists. split; [reflexivity |]. split; [reflexivity |].
  split; [| split].
  - unfold login. run_step. cbn [users UserLogin.email UserLogin.password].
    rewrite find_one_insert_one, Hfresh. unfold has_email at 1.
    cbn [User.email]. rewrite String.eqb_refl.
    unfold verify_password. cbn [User.password_hash]. rewrite Hcheck.
    reflexivity.
  - intros password Hbad. unfold login. run_step.
    cbn [users UserLogin.email UserLogin.password].
    rewrite find_one_insert_one, Hfresh. unfold has_email at 1.
    cbn [User.email]. rewrite String.eqb_refl.
    unfold verify_password. cbn [User.password_hash]. rewrite Hbad.
    reflexivity.
  - intros Hid. eexists. rewrite run_get_current_user. cbn [users].
    rewrite find_one_insert_one, Hid. unfold User.has_id at 1.
    cbn [User.id]. rewrite String.eqb_refl. split; reflexivity.
Qed.

End AccountFacts.

(** ** More interleavings *)

Lemma require_admin_ok_inv (credentials : Credentials) (st : Database)
  (admin : User.t) :
  fst (run (require_admin credentials) st) = Ok admin ->
  exists user_id,
    credentials = Payload user_id
    /\ Mongo.find_one (User.has_id user_id) (users st) = Some admin
    /\ String.eqb (User.role admin) "admin" = true.
Proof.
  rewrite run_require_admin_eq, run_get_current_user. cbn [fst].
  destruct credentials as [| | user_id]; try discriminate.
  destruct (Mongo.find_one _ (users st)) as [u |] eqn:Hfind;
    [| discriminate].
  destruct (String.eqb (User.role u) "admin") eqn:Hrole; [| discriminate].
  cbn [negb]. intros [= ->]. exists user_id. auto.
Qed.

(** X19: the test of the status and the writes of [approve_deposit] are
    separate storage calls.  When two admins resolve the same pending
    transaction and their calls alternate, both are answered without an
    exception.  Two approvals credit the owner twice.  An approval and a
    rejection, the rejection writing the status last, leave the transaction
    rejected and the owner credited all the same. *)
Theorem interleaved_resolutions_both_commit
  (st : Database) (transaction_id : string) (t : Transaction.t)
  (c1 c2 : Credentials) (a1 a2 : User.t) :
  Mongo.find_one (Transaction.has_id transaction_id) (transactions st)
  = Some t ->
  Transaction.status t = "pending" ->
  fst (run (require_admin c1) st) = Ok a1 ->
  fst (run (require_admin c2) st) = Ok a2 ->
  let owner := Transaction.user_id t in
  let amount := Transaction.amount t in
  (exists st',
     interleave [0; 1; 0; 1; 0; 1; 0; 1]%nat
       [route (PUT_admin_deposit c1 transaction_id "approve");
        route (PUT_admin_deposit c2 transaction_id "approve")] st
     = ([Return (a_message "Deposit approved");
         Return (a_message "Deposit approved")], st')
     /\ balance_of owner st'
        = option_map (fun b => add (add b amount) amount)
            (balance_of owner st))
  /\ (exists st',
        interleave [0; 1; 0; 1; 0; 1; 0]%nat
          [route (PUT_admin_deposit c1 transaction_id "approve");
           route (PUT_admin_deposit c2 transaction_id "reject")] st
        = ([Return (a_message "Deposit approved");
            Return (a_message "Deposit rejected")], st')
        /\ Mongo.find_one (Transaction.has_id transaction_id)
             (transactions st')
           = Some (Transaction.set_status "rejected" t)
        /\ balance_of owner st'
           = option_map (fun b => add b amount) (balance_of owner st)).
Proof.
  intros Ht Hpending H1 H2 owner amount. subst owner amount.
  destruct (require_admin_ok_inv _ _ _ H1) as (u1 & -> & Hu1 & Hr1).
  destruct (require_admin_ok_inv _ _ _ H2) as (u2 & -> & Hu2 & Hr2).
  apply String.eqb_eq in Hpending.
  assert (Hagain : forall s,
    Mongo.find_one (Transaction.has_id transaction_id)
      (Mongo.update_one (Transaction.has_id transaction_id)
         (Transaction.set_status s) (transactions st))
    = Some (Transaction.set_status s t)).
  { intros s. rewrite find_one_update_one by reflexivity. now rewrite Ht. }
  split; eexists;
    cbn [interleave nth_error replace_nth step route require_admin bind
           get_current_user exec get set doc fst snd];
    rewrite Hu1, Hu2; cbn [bind]; unfold get_admin_user;
    rewrite Hr1, Hr2; cbn [negb bind]; unfold approve_deposit;
    cbn [str_in existsb String.eqb Ascii.eqb Bool.eqb orb negb bind step
           exec get doc];
    rewrite Ht, Hpending;
    cbn [negb bind step exec get set doc users services orders transactions
           String.eqb Ascii.eqb Bool.eqb append].
  - split; [reflexivity |].
    unfold balance_of. cbn [users]. rewrite !balance_of_inc.
    rewrite String.eqb_refl.
    destruct (Mongo.find_one (User.has_id (Transaction.user_id t)) (users st));
      cbn [option_map]; reflexivity.
  - split; [reflexivity |]. split.
    + cbn [transactions].
      rewrite find_one_update_one by reflexivity. rewrite Hagain.
      reflexivity.
    + unfold balance_of. cbn [users]. rewrite balance_of_inc.
      now rewrite String.eqb_refl.
Qed.

Lemma interleaved_resolutions_both_commit_witness :
  exists st',
    interleave [0; 1; 0; 1; 0; 1; 0; 1]%nat
      [route (PUT_admin_deposit (Payload "admin") "dep-1" "approve");
       route (PUT_admin_deposit (Payload "admin") "dep-1" "approve")]
      Rounding.store
    = ([Return (a_message "Deposit approved");
        Return (a_message "Deposit approved")], st')
    /\ balance_of "alice" st'
       = Some (add (add (ratio 1 10) (ratio 2 10)) (ratio 2 10)).
Proof.
  apply (interleaved_resolutions_both_commit Rounding.store "dep-1"
           (Rounding.deposit "dep-1" (ratio 2 10))
           (Payload "admin") (Payload "admin") Scenario.admin Scenario.admin
           eq_refl eq_refl eq_refl eq_refl).
Defined.

Lemma interleaved_placements_both_commit_witness :
  exists st',
    interleave [0; 1; 0; 1; 0; 1; 0; 1]%nat
      [route Race.first; route Race.second] Race.store
    = ([Return (an_order (Scenario.order "order-1" "alice" "pending"));
        Return
          (an_order
             {| Order.id := "order-2";
                Order.user_id := "alice";
                Order.service_id := "svc-1";
                Order.link := "https://instagram.com/p/test";
                Order.quantity := 500;
                Order.total_cost := ratio 125 100;
                Order.status := "pending";
                Order.created_at := "2024-01-02T00:00:01+00:00";
                Order.completed_at := None |})], st')
    /\ balance_of "alice" st'
       = Some (add (add (ratio 125 100) (neg (ratio 125 100)))
                 (neg (ratio 125 100))).
Proof.
  destruct (interleaved_placements_both_commit Race.store
              (snd (run (route Race.first) Race.store))
              (snd (run (route Race.second) Race.store))
              "alice" (Scenario.order_data 500) (Scenario.order_data 500)
              "order-1" "2024-01-02T00:00:00+00:00"
              "order-2" "2024-01-02T00:00:01+00:00"
              _ _ eq_refl eq_refl) as (st' & Hrun & _ & Hbal).
  exists st'. split; [exact Hrun | exact Hbal].
Defined.

Section RegistrationRace.

Variable hashpw : string -> string -> string.
Variable checkpw : string -> string -> bool.
Variable jwt_encode : string -> string -> string.

(** X20: the email test and the insertion of [register] are separate
    storage calls.  Two registrations with one email that no stored user has
    are both answered with a session when their calls alternate, and two
    accounts with that email are stored; served one after the other, the
    second is refused with 400 "Email already registered". *)
Theorem interleaved_registrations_share_an_email
  (st : Database) (d1 d2 : UserRegister.t)
  (uuid1 now1 salt1 exp1 uuid2 now2 salt2 exp2 : string) :
  (forall u, In u (users st) -> User.email u <> UserRegister.email d1) ->
  UserRegister.email d2 = UserRegister.email d1 ->
  let r1 := POST_auth_register d1 uuid1 now1 salt1 exp1 in
  let r2 := POST_auth_register d2 uuid2 now2 salt2 exp2 in
  (exists s1 s2 u1 u2 st',
     interleave [0; 1; 0; 1]%nat
       [api_route hashpw checkpw jwt_encode r1;
        api_route hashpw checkpw jwt_encode r2] st
     = ([Return s1; Return s2], st')
     /\ users st' = users st ++ [u1; u2]
     /\ User.id u1 = uuid1 /\ User.id u2 = uuid2
     /\ User.email u1 = UserRegister.email d1
     /\ User.email u2 = UserRegister.email d1)
  /\ (exists s1 st',
        api_serve hashpw checkpw jwt_encode [r1; r2] st
        = ([Ok s1; Err (HTTPException 400 "Email already registered")], st')
        /\ exists u1, users st' = users st ++ [u1]).
Proof.
  intros Hnew Hsame r1 r2. subst r1 r2.
  pose proof (proj1 (no_user_has_email _ _) Hnew) as Hfresh.
  split.
  - do 5 eexists.
    cbn [interleave nth_error replace_nth step api_route register bind
           exec get set doc fst snd].
    rewrite Hsame, Hfresh.
    cbn [bind step exec get set doc users services orders transactions].
    split; [reflexivity |]. split.
    + unfold Mongo.insert_one. rewrite <- app_assoc. reflexivity.
    + repeat split.
  - cbn [api_serve api_route]. rewrite !run_bind, run_register, Hfresh.
    cbn [run fst snd]. rewrite run_bind, run_register. cbn [users].
    rewrite Hsame, find_one_insert_one, Hfresh. unfold has_email at 1.
    cbn [User.email]. rewrite String.eqb_refl.
    do 2 eexists. split; [reflexivity |]. eexists. reflexivity.
Qed.

End RegistrationRace.

(** ** What no request undoes *)

Section Grows.

Context {D : Type}.
Variable R : D -> D -> Prop.
Variable Q : D -> Prop.
Hypothesis R_refl : forall d, R d d.
Hypothesis R_trans : forall a b c, R a b -> R b c -> R a c.
Hypothesis Q_stable : forall a b, Q a -> R a b -> Q b.

Lemma Forall2_refl (l : list D) : Forall2 R l l.
Proof. induction l; constructor; auto. Qed.

Lemma Forall2_trans (l1 l2 l3 : list D) :
  Forall2 R l1 l2 -> Forall2 R l2 l3 -> Forall2 R l1 l3.
Proof.
  intros H. revert l3. induction H as [| a b l1 l2 Hab _ IH]; intros l3 H3.
  - inversion H3. constructor.
  - inversion H3 as [| b' c l2' l3' Hbc Hrest]; subst.
    constructor; [eapply R_trans; eassumption | now apply IH].
Qed.

Lemma Forall_stable (l1 l2 : list D) :
  Forall2 R l1 l2 -> Forall Q l1 -> Forall Q l2.
Proof.
  induction 1 as [| a b l1 l2 Hab _ IH]; intros HQ; [constructor |].
  inversion HQ; subst. constructor; [eapply Q_stable; eassumption | auto].
Qed.

Lemma grows_refl (l : list D) : grows R Q l l.
Proof.
  exists l, []. rewrite app_nil_r. repeat split; [apply Forall2_refl |].
  constructor.
Qed.

Lemma grows_trans (l1 l2 l3 : list D) :
  grows R Q l1 l2 -> grows R Q l2 l3 -> grows R Q l1 l3.
Proof.
  intros (k1 & a1 & -> & H1 & Q1) (k2 & a2 & -> & H2 & Q2).
  apply Forall2_app_inv_l in H2 as (k2a & k2b & Ha & Hb & ->).
  exists k2a, (k2b ++ a2). rewrite app_assoc. repeat split.
  - eapply Forall2_trans; eassumption.
  - apply Forall_app. split; [eapply Forall_stable; eassumption | exact Q2].
Qed.

Lemma grows_insert_one (d : D) (l : list D) :
  Q d -> grows R Q l (Mongo.insert_one d l).
Proof.
  intros Hd. exists l, [d]. repeat split; [apply Forall2_refl |].
  now constructor.
Qed.

Lemma Forall2_update_one (query : D -> bool) (update : D -> D) (l : list D) :
  (forall d, query d = true -> R d (update d)) ->
  Forall2 R l (Mongo.update_one query update l).
Proof.
  intros Hupdate. induction l as [| d l IH]; cbn [Mongo.update_one].
  - constructor.
  - destruct (query d) eqn:Hq; constructor; auto using Forall2_refl.
Qed.

Lemma grows_update_one (query : D -> bool) (update : D -> D) (l : list D) :
  (forall d, query d = true -> R d (update d)) ->
  grows R Q l (Mongo.update_one query update l).
Proof.
  intros Hupdate. exists (Mongo.update_one query update l), [].
  rewrite app_nil_r. repeat split; [now apply Forall2_update_one |].
  constructor.
Qed.

End Grows.

Lemma same_account_refl (u : User.t) : same_account u u.
Proof. unfold same_account. auto 10. Qed.

Lemma same_account_trans (a b c : User.t) :
  same_account a b -> same_account b c -> same_account a c.
Proof. unfold same_account. intuition congruence. Qed.

Lemma plain_user_stable (a b : User.t) :
  plain_user a -> same_account a b -> plain_user b.
Proof. unfold plain_user, same_account. intuition congruence. Qed.

Lemma same_order_refl (o : Order.t) : same_order o o.
Proof. unfold same_order. auto 10. Qed.

Lemma same_order_trans (a b c : Order.t) :
  same_order a b -> same_order b c -> same_order a c.
Proof. unfold same_order. intuition congruence. Qed.

Lemma same_transaction_refl (t : Transaction.t) : same_transaction t t.
Proof. unfold same_transaction. auto 10. Qed.

Lemma same_transaction_trans (a b c : Transaction.t) :
  same_transaction a b -> same_transaction b c -> same_transaction a c.
Proof. unfold same_transaction. intuition congruence. Qed.

Lemma anything_stable {D : Type} (R : D -> D -> Prop) (a b : D) :
  anything a -> R a b -> anything b.
Proof. intros _ _. exact I. Qed.

Lemma preserved_refl (st : Database) : preserved st st.
Proof.
  repeat split; apply grows_refl;
    auto using same_account_refl, same_order_refl, same_transaction_refl.
Qed.

Lemma preserved_trans (st1 st2 st3 : Database) :
  preserved st1 st2 -> preserved st2 st3 -> preserved st1 st3.
Proof.
  intros (Hu & Hs & Ho & Ht) (Hu' & Hs' & Ho' & Ht'). repeat split.
  - eapply grows_trans; eauto using same_account_trans, plain_user_stable.
  - eapply grows_trans; eauto using anything_stable. intros; congruence.
  - eapply grows_trans; eauto using same_order_trans, anything_stable.
  - eapply grows_trans;
      eauto using same_transaction_trans, anything_stable.
Qed.

(** Each storage call of the routes keeps what is stored. *)
Lemma api_call_preserved (R : Type) (op : db_op R) (st : Database) :
  api_call R op -> preserved st (snd (exec op st)).
Proof.
  intros [c q | c q | u Hu | s | o | t | user_id v | order_id s stamp
         | transaction_id s];
    cbn [exec snd get set]; try apply preserved_refl;
    repeat split; cbn [users services orders transactions];
    try (apply grows_refl;
         auto using same_account_refl, same_order_refl,
           same_transaction_refl);
    try (apply grows_insert_one;
         auto using same_account_refl, same_order_refl,
           same_transaction_refl; exact I);
    apply grows_update_one;
    auto using same_account_refl, same_order_refl, same_transaction_refl.
  - intros u _. unfold same_account. cbn. auto 10.
  - intros o _. unfold same_order. cbn. repeat split.
    destruct stamp; [discriminate | trivial].
  - intros t _. unfold same_transaction. cbn. auto 10.
Qed.

Lemma Forall_replace_nth {A : Type} (Q : A -> Prop) (n : nat) (x : A)
  (l : list A) :
  Q x -> Forall Q l -> Forall Q (replace_nth n x l).
Proof.
  intros Hx Hl. revert n.
  induction Hl as [| y l Hy Hl IH]; intros n; destruct n;
    cbn [replace_nth]; constructor; auto.
Qed.

Section Footprint.

Variable P : forall R : Type, db_op R -> Prop.
Variable Inv : Database -> Database -> Prop.
Hypothesis Inv_refl : forall st, Inv st st.
Hypothesis Inv_trans : forall a b c, Inv a b -> Inv b c -> Inv a c.
Hypothesis P_keeps :
  forall R (op : db_op R) st, P R op -> Inv st (snd (exec op st)).

Lemma calls_only_run {A : Type} (c : coro A) (st : Database) :
  calls_only P c -> Inv st (snd (run c st)).
Proof.
  revert st. induction c as [a | e | R op k IH]; intros st; cbn [run snd];
    [auto | auto |].
  intros [Hop Hk]. specialize (P_keeps R op st Hop).
  destruct (exec op st) as [r st1]. cbn [snd] in P_keeps.
  eapply Inv_trans; [exact P_keeps | apply IH, Hk].
Qed.

Lemma calls_only_step {A : Type} (c : coro A) (st : Database) :
  calls_only P c ->
  calls_only P (fst (step c st)) /\ Inv st (snd (step c st)).
Proof.
  destruct c as [a | e | R op k]; cbn [step fst snd]; [auto | auto |].
  intros [Hop Hk]. specialize (P_keeps R op st Hop).
  destruct (exec op st) as [r st1]. cbn [fst snd] in *. auto.
Qed.

Lemma calls_only_interleave {A : Type} (schedule : list nat)
  (pool : list (coro A)) (st : Database) :
  Forall (calls_only P) pool -> Inv st (snd (interleave schedule pool st)).
Proof.
  revert pool st.
  induction schedule as [| i schedule IH]; intros pool st Hpool;
    cbn [interleave snd]; [apply Inv_refl |].
  destruct (nth_error pool i) as [c |] eqn:Hc; [| now apply IH].
  assert (Hin : calls_only P c).
  { eapply Forall_forall; [exact Hpool | eapply nth_error_In; exact Hc]. }
  destruct (calls_only_step c st Hin) as [Hc' Hst].
  destruct (step c st) as [c' st1]. cbn [fst snd] in *.
  eapply Inv_trans; [exact Hst |].
  apply IH. now apply Forall_replace_nth.
Qed.

Lemma calls_only_bind {A B : Type} (c : coro A) (f : A -> coro B) :
  calls_only P c -> (forall a, calls_only P (f a)) ->
  calls_only P (bind c f).
Proof.
  intros Hc Hf. induction c as [a | e | R op k IH]; cbn [bind calls_only].
  - apply Hf.
  - exact I.
  - destruct Hc as [Hop Hk]. split; [exact Hop | intros r; now apply IH].
Qed.

End Footprint.

Ltac footprint :=
  repeat first
    [ apply calls_only_bind; [| intros ]
    | progress cbv zeta
    | match goal with
      | |- calls_only _ (Return _) => exact I
      | |- calls_only _ (Raise _) => exact I
      | |- calls_only _ (Await _ _) => split; [| intros ]
      | |- calls_only _ (match ?x with _ => _ end) => destruct x
      end ].

Ltac unfold_handlers :=
  unfold require_admin, get_current_user, get_admin_user, create_order,
    get_user_orders, get_order, get_balance, request_deposit,
    update_order_status, approve_deposit, int_truediv, register, login,
    get_me, get_services, create_service, get_all_users, get_all_orders,
    get_deposits, get_stats, count_documents.

Lemma settled_refl (t : Transaction.t) : settled t t.
Proof. now intros _. Qed.

Lemma settled_trans (a b c : Transaction.t) :
  settled a b -> settled b c -> settled a c.
Proof.
  unfold settled. intros Hab Hbc Ha. rewrite <- (Hab Ha). apply Hbc.
  now rewrite (Hab Ha).
Qed.

(** The status [approve_deposit] sets goes to the transaction it read. *)
Lemma settled_update_one (query : Transaction.t -> bool)
  (update : Transaction.t -> Transaction.t) (l : list Transaction.t)
  (t : Transaction.t) :
  Mongo.find_one query l = Some t ->
  Transaction.status t = "pending" ->
  Forall2 settled l (Mongo.update_one query update l).
Proof.
  intros Hfind Hpending.
  induction l as [| d l IH]; cbn [Mongo.update_one Mongo.find_one] in *;
    [constructor |].
  destruct (query d).
  - injection Hfind as ->. constructor.
    + intros Hd. contradiction.
    + apply Forall2_refl, settled_refl.
  - constructor; [apply settled_refl | now apply IH].
Qed.

Lemma Forall2_In_r {D : Type} (R : D -> D -> Prop) (l k : list D) (y : D) :
  Forall2 R l k -> In y k -> exists x, In x l /\ R x y.
Proof.
  induction 1 as [| a b l k Hab _ IH]; intros Hin; [contradiction |].
  destruct Hin as [<- | Hin].
  - exists a. split; [now left | exact Hab].
  - destruct (IH Hin) as (x & Hx & Hxy). exists x. split; [now right | auto].
Qed.

Section Survival.

Variable hashpw : string -> string -> string.
Variable checkpw : string -> string -> bool.
Variable jwt_encode : string -> string -> string.

Local Abbreviation api := (api_route hashpw checkpw jwt_encode).
Local Abbreviation serve_all := (api_serve hashpw checkpw jwt_encode).

Lemma api_route_calls (r : api_request) : calls_only api_call (api r).
Proof.
  destruct r as [r | | | | | | | | |]; [destruct r | ..];
    cbn [api_route route]; unfold_handlers; footprint;
    constructor; reflexivity.
Qed.

Lemma api_serve_snd (r : api_request) (rs : list api_request)
  (st : Database) :
  snd (serve_all (r :: rs) st) = snd (serve_all rs (snd (run (api r) st))).
Proof.
  cbn [api_serve]. destruct (run (api r) st) as [out st1]. cbn [snd].
  destruct (api_serve _ _ _ rs st1) as [outs st2]. reflexivity.
Qed.

Lemma api_serve_preserved (rs : list api_request) (st : Database) :
  preserved st (snd (serve_all rs st)).
Proof.
  revert st. induction rs as [| r rs IH]; intros st.
  - apply preserved_refl.
  - rewrite api_serve_snd. eapply preserved_trans; [| apply IH].
    apply (calls_only_run api_call preserved preserved_refl
             preserved_trans api_call_preserved).
    apply api_route_calls.
Qed.

Lemma interleave_preserved (schedule : list nat) (rs : list api_request)
  (st : Database) :
  preserved st (snd (interleave schedule (map api rs) st)).
Proof.
  apply (calls_only_interleave api_call preserved preserved_refl
           preserved_trans api_call_preserved).
  apply Forall_forall. intros c Hc. apply in_map_iff in Hc as (r & <- & _).
  apply api_route_calls.
Qed.

(** X21: whatever the requests, and however the event loop interleaves
    their storage calls, nothing stored is removed or moved: a user keeps
    its id, email, name, role and password hash, an order its owner,
    service, link, quantity and cost (a completion stamp is never cleared),
    a transaction its owner, amount and type, a service everything; and a
    user document that was added has the role "user". *)
Theorem stored_documents_survive (schedule : list nat)
  (rs : list api_request) (st : Database) :
  preserved st (snd (interleave schedule (map api rs) st))
  /\ preserved st (snd (serve_all rs st)).
Proof. split; [apply interleave_preserved | apply api_serve_preserved]. Qed.

(** X22: no request makes an admin.  After any requests, served in turn or
    interleaved, a user with the role "admin" is a user that was stored
    with that role before them, under the same id, email and password
    hash. *)
Theorem no_request_makes_an_admin (schedule : list nat)
  (rs : list api_request) (st st' : Database) (u' : User.t) :
  st' = snd (interleave schedule (map api rs) st)
  \/ st' = snd (serve_all rs st) ->
  In u' (users st') ->
  User.role u' = "admin" ->
  exists u, In u (users st) /\ same_account u u'.
Proof.
  intros Hst' Hin Hadmin.
  assert (Hkept : preserved st st').
  { destruct Hst' as [-> | ->];
      [apply interleave_preserved | apply api_serve_preserved]. }
  destruct Hkept as ((kept & added & Heq & Hkept & Hadded) & _).
  rewrite Heq in Hin. apply in_app_or in Hin as [Hin | Hin].
  - destruct (Forall2_In_r _ _ _ _ Hkept Hin) as (u & Hu & Hsame).
    exists u. auto.
  - exfalso. rewrite Forall_forall in Hadded. specialize (Hadded _ Hin).
    unfold plain_user in Hadded. congruence.
Qed.

End Survival.

Section Finality.

Variable hashpw : string -> string -> string.
Variable checkpw : string -> string -> bool.
Variable jwt_encode : string -> string -> string.

Local Abbreviation api := (api_route hashpw checkpw jwt_encode).
Local Abbreviation serve_all := (api_serve hashpw checkpw jwt_encode).
Local Abbreviation final :=
  (fun st st' : Database =>
     grows settled anything (transactions st) (transactions st')).

Lemma final_refl (st : Database) : final st st.
Proof. apply grows_refl, settled_refl. Qed.

Lemma final_trans (a b c : Database) : final a b -> final b c -> final a c.
Proof.
  apply grows_trans; [apply settled_trans | apply anything_stable].
Qed.

Lemma approve_deposit_final (transaction_id action : string)
  (admin : User.t) (st : Database) :
  final st (snd (run (approve_deposit transaction_id action admin) st)).
Proof.
  unfold approve_deposit.
  destruct (str_in action _); run_step; [| apply final_refl].
  destruct (Mongo.find_one _ (transactions st)) as [t |] eqn:Hfind;
    [| apply final_refl].
  destruct (String.eqb (Transaction.status t) "pending") eqn:Hpending;
    run_step; [| apply final_refl].
  apply String.eqb_eq in Hpending.
  destruct (String.eqb action "approve"); run_step;
    cbn [transactions]; eexists _, []; rewrite app_nil_r;
    (repeat split; [| constructor]);
    eapply settled_update_one; eassumption.
Qed.

Lemma api_route_final (r : api_request) (st : Database) :
  final st (snd (run (api r) st)).
Proof.
  pose (P := fun (R : Type) (op : db_op R) =>
               forall st, final st (snd (exec op st))).
  assert (Hother : forall {A : Type} (c : coro A),
             calls_only P c -> final st (snd (run c st))).
  { intros A c.
    apply (calls_only_run P (fun st st' => final st st') final_refl
             final_trans).
    intros R op st0 Hop. apply Hop. }
  destruct r as [r | | | | | | | | |]; [destruct r | ..];
    try (apply Hother; cbn [api_route route]; unfold_handlers; footprint;
         intros st0; cbn [exec snd get set transactions];
         solve [apply final_refl
               | apply grows_insert_one; [apply settled_refl | exact I]]).
  cbn [api_route route]. rewrite !run_bind, run_require_admin_eq.
  destruct (fst (run (get_current_user credentials) st)) as [u | e];
    [| apply final_refl].
  destruct (negb _); [apply final_refl |].
  rewrite !run_bind.
  pose proof (approve_deposit_final transaction_id action u st) as Hfinal.
  destruct (run (approve_deposit transaction_id action u) st) as [[m | e] st1];
    exact Hfinal.
Qed.

(** X23: served one after the other, requests never touch a transaction
    that is resolved: whatever the requests, a stored transaction whose
    status is not "pending" is stored unchanged, in its place, after them.
    (Interleaved resolutions of one pending transaction can replace
    "approved" by "rejected", as shown above.) *)
Theorem resolution_is_final (rs : list api_request) (st : Database) :
  grows settled anything (transactions st)
    (transactions (snd (serve_all rs st))).
Proof.
  revert st. induction rs as [| r rs IH]; intros st.
  - apply final_refl.
  - rewrite api_serve_snd.
    eapply final_trans; [apply api_route_final | apply IH].
Qed.

End Finality.

(** ** What the statistics count *)

Ltac exec_step :=
  first
    [ progress cbn [run bind exec get set fst snd doc doc_eq_dec negb]
    | match goal with
      | |- context [match ?x with _ => _ end] =>
          lazymatch x with
          | context [@run] => fail
          | _ => destruct x eqn:?
          end
      end ].

Lemma length_insert_one {D : Type} (d : D) (l : list D) :
  List.length (Mongo.insert_one d l) = S (List.length l).
Proof. unfold Mongo.insert_one. rewrite length_app. cbn. lia. Qed.

Lemma length_update_one {D : Type} (query : D -> bool) (update : D -> D)
  (l : list D) :
  List.length (Mongo.update_one query update l) = List.length l.
Proof.
  induction l as [| d l IH]; cbn [Mongo.update_one]; [reflexivity |].
  destruct (query d); cbn [List.length]; congruence.
Qed.

Lemma Forall_update_one {D : Type} (Q : D -> Prop) (query : D -> bool)
  (update : D -> D) (l : list D) :
  (forall d, Q d -> Q (update d)) ->
  Forall Q l -> Forall Q (Mongo.update_one query update l).
Proof.
  intros Hupdate. induction 1 as [| d l Hd Hl IH]; cbn [Mongo.update_one];
    [constructor |].
  destruct (query d); constructor; auto.
Qed.

(** A resolution takes one transaction out of the pending deposits. *)
Lemma pending_after_resolution
  (l : list Transaction.t) (transaction_id new_status : string)
  (t : Transaction.t) :
  Forall (fun d => Transaction.type d = "deposit") l ->
  Mongo.find_one (Transaction.has_id transaction_id) l = Some t ->
  Transaction.status t = "pending" ->
  new_status <> "pending" ->
  S (List.length
       (filter (has_type_and_status "deposit" "pending")
          (Mongo.update_one (Transaction.has_id transaction_id)
             (Transaction.set_status new_status) l)))
  = List.length (filter (has_type_and_status "deposit" "pending") l).
Proof.
  intros Hall Hfind Hpending Hnew.
  induction Hall as [| d l Hd _ IH];
    cbn [Mongo.find_one Mongo.update_one] in *; [discriminate |].
  destruct (Transaction.has_id transaction_id d).
  - injection Hfind as <-. cbn [filter].
    assert (H1 : has_type_and_status "deposit" "pending" d = true).
    { unfold has_type_and_status. now rewrite Hd, Hpending. }
    assert (H2 : has_type_and_status "deposit" "pending"
                   (Transaction.set_status new_status d) = false).
    { unfold has_type_and_status.
      cbn [Transaction.set_status Transaction.type Transaction.status].
      apply String.eqb_neq in Hnew. rewrite Hnew. apply andb_false_r. }
    rewrite H1, H2. reflexivity.
  - cbn [filter]. destruct (has_type_and_status _ _ d); cbn [List.length];
      now rewrite <- IH.
Qed.

Lemma run_get_stats (admin : User.t) (st : Database) :
  run (get_stats admin) st
  = (Ok {| total_users := Z.of_nat (List.length (users st));
           total_orders := Z.of_nat (List.length (orders st));
           pending_deposits :=
             Z.of_nat
               (List.length
                  (filter (has_type_and_status "deposit" "pending")
                     (transactions st))) |}, st).
Proof.
  unfold get_stats, count_documents. run_step. now rewrite !find_every.
Qed.

Section Stats.

Variable hashpw : string -> string -> string.
Variable checkpw : string -> string -> bool.
Variable jwt_encode : string -> string -> string.

Local Abbreviation api := (api_route hashpw checkpw jwt_encode).

(** The store a request leaves: the one it was sent to when it raises,
    and what [written] tells when it is answered. *)
Lemma api_route_written (r : api_request) (st : Database) :
  match fst (run (api r) st) with
  | Err _ => snd (run (api r) st) = st
  | Ok _ => written r st (snd (run (api r) st))
  end.
Proof.
  destruct r as [r | | | | | | | | |]; [destruct r | ..];
    cbn [api_route route written]; unfold_handlers;
    repeat exec_step;
    try solve
      [ reflexivity
      | match goal with
        | |- context [Mongo.insert_one ?d _] => exists d
        end; repeat split; reflexivity
      | eexists; reflexivity ].
  1, 2:
    match goal with
    | H : Z.eqb (Mongo.modified_count _) 0 = true |- _ =>
        apply Z.eqb_eq, update_one_not_modified in H; rewrite H
    end; now destruct st.
  all:
    match goal with
    | Hp : negb (String.eqb (Transaction.status ?t) "pending") = false
      |- _ =>
        exists t; apply negb_false_iff, String.eqb_eq in Hp;
        split; [reflexivity |]; split; [exact Hp |]
    end.
  - left. split; [now apply String.eqb_eq | reflexivity].
  - right. split; [| reflexivity].
    match goal with
    | Hin : negb (str_in action _) = false,
      Hne : String.eqb action _ = false |- _ =>
        apply negb_false_iff in Hin;
        unfold str_in in Hin; cbn [existsb] in Hin; rewrite Hne in Hin;
        cbn [orb] in Hin; rewrite orb_false_r in Hin;
        now apply String.eqb_eq
    end.
Qed.

(** X24: what [get_stats] reports moves with the requests.  A request that
    raises changes none of the three numbers.  A request that is answered
    adds one to the users when it is a registration, one to the orders when
    it is a placement, one to the pending deposits when it is a deposit
    request, takes one from the pending deposits when it resolves a
    transaction, and changes nothing otherwise; this for a store whose
    transactions are all of type "deposit", which the requests keep so. *)
Theorem get_stats_counts_requests
  (r : api_request) (st : Database) (admin : User.t) :
  Forall (fun t => Transaction.type t = "deposit") (transactions st) ->
  let out := run (api r) st in
  exists before after,
    run (get_stats admin) st = (Ok before, st)
    /\ run (get_stats admin) (snd out) = (Ok after, snd out)
    /\ match fst out with
       | Err _ => after = before
       | Ok _ =>
           total_users after = total_users before + new_users r
           /\ total_orders after = total_orders before + new_orders r
           /\ pending_deposits after
              = pending_deposits before + new_pending_deposits r
       end
    /\ Forall (fun t => Transaction.type t = "deposit")
         (transactions (snd out)).
Proof.
  intros Hall out. subst out. rewrite !run_get_stats.
  do 2 eexists. split; [reflexivity |]. split; [reflexivity |].
  pose proof (api_route_written r st) as Hw.
  destruct (fst (run (api r) st)) as [a | e];
    [| rewrite Hw; split; [reflexivity | exact Hall]].
  cbn [total_users total_orders pending_deposits].
  destruct r as [r | | | | | | | | |]; [destruct r | ..];
    cbn [written new_users new_orders new_pending_deposits] in *;
    try (rewrite Hw; repeat split; solve [lia | exact Hall]).
  - destruct Hw as (o & _ & ->). cbn [set users orders transactions].
    rewrite length_update_one, length_insert_one.
    repeat split; solve [lia | exact Hall].
  - destruct Hw as (t & _ & _ & Htype & Hstatus & ->).
    cbn [set users orders transactions]. unfold Mongo.insert_one.
    rewrite filter_app, length_app. cbn [filter].
    unfold has_type_and_status at 2. rewrite Htype, Hstatus.
    cbn [String.eqb Ascii.eqb Bool.eqb andb List.length].
    repeat split; try lia.
    apply Forall_app. split; [exact Hall | now constructor].
  - destruct Hw as (stamp & ->). cbn [set users orders transactions].
    rewrite length_update_one. repeat split; solve [lia | exact Hall].
  - destruct Hw as (t & Hfind & Hpending & [[_ ->] | [_ ->]]);
      cbn [set users orders transactions];
      rewrite ?length_update_one;
      [ pose proof (pending_after_resolution (transactions st)
                      transaction_id "approved" t Hall Hfind Hpending
                      ltac:(discriminate)) as Hcount
      | pose proof (pending_after_resolution (transactions st)
                      transaction_id "rejected" t Hall Hfind Hpending
                      ltac:(discriminate)) as Hcount ];
      (repeat split; try lia);
      (apply Forall_update_one; [intros d Hd; exact Hd | exact Hall]).
  - destruct Hw as (u & _ & ->). cbn [set users orders transactions].
    rewrite length_insert_one. repeat split; solve [lia | exact Hall].
  - destruct Hw as (s & _ & ->). cbn [set users orders transactions].
    repeat split; solve [lia | exact Hall].
Qed.

End Stats.

(** ** Seeding *)

Section Seeding.

Variable hashpw : string -> string -> string.
Variable uuid4 now gensalt : nat -> string.

Local Abbreviation seed := (Seed.seed_database hashpw uuid4 now gensalt).
Local Abbreviation admin_user := (Seed.admin_user hashpw uuid4 now gensalt).
Local Abbreviation test_user := (Seed.test_user hashpw uuid4 now gensalt).

(** What a run of the script leaves. *)
Lemma seed_database_cases (st : Database) :
  exists added_users added_services,
    seed st
    = {| users := users st ++ added_users;
         services := services st ++ added_services;
         orders := orders st;
         transactions := transactions st |}
    /\ added_users
       = (match Mongo.find_one (has_email "admin@boostup.com") (users st) with
          | None => [admin_user]
          | Some _ => []
          end)
         ++ (match Mongo.find_one (has_email "user@test.com") (users st) with
             | None => [test_user]
             | Some _ => []
             end)
    /\ added_services
       = match services st with
         | [] => Seed.services uuid4 now
         | _ :: _ => []
         end.
Proof.
  unfold Seed.seed_database.
  destruct st as [us ss os ts]. cbn [users services get set].
  destruct (Mongo.find_one (has_email "admin@boostup.com") us) eqn:Hadmin;
    cbn [users services get set];
    rewrite ?find_one_insert_one;
    destruct (Mongo.find_one (has_email "user@test.com") us) eqn:Huser;
    cbn [users services get set has_email User.email Seed.admin_user
           String.eqb Ascii.eqb Bool.eqb];
    rewrite find_every; destruct ss as [| s ss];
    cbn [List.length Z.of_nat Z.eqb Pos.of_succ_nat set get users services
           orders transactions Seed.insert_many];
    do 2 eexists; (split; [| split; reflexivity]);
    unfold Mongo.insert_one; rewrite ?app_nil_r, <- ?app_assoc; reflexivity.
Qed.

Lemma find_one_app {D : Type} (query : D -> bool) (l1 l2 : list D) :
  Mongo.find_one query (l1 ++ l2)
  = match Mongo.find_one query l1 with
    | Some x => Some x
    | None => Mongo.find_one query l2
    end.
Proof.
  induction l1 as [| d l1 IH]; cbn [app Mongo.find_one]; [reflexivity |].
  now destruct (query d).
Qed.

(** After a run the two accounts are found by their emails and the catalog
    is not empty. *)
Lemma seed_database_seeded (st : Database) :
  Mongo.find_one (has_email "admin@boostup.com") (users (seed st)) <> None
  /\ Mongo.find_one (has_email "user@test.com") (users (seed st)) <> None
  /\ services (seed st) <> [].
Proof.
  destruct (seed_database_cases st) as (au & asv & -> & -> & ->).
  cbn [users services]. rewrite !find_one_app. repeat split.
  - destruct (Mongo.find_one (has_email "admin@boostup.com") (users st));
      [discriminate |].
    cbn [Mongo.find_one has_email User.email Seed.admin_user String.eqb
           Ascii.eqb Bool.eqb]. discriminate.
  - destruct (Mongo.find_one (has_email "user@test.com") (users st));
      [discriminate |].
    destruct (Mongo.find_one (has_email "admin@boostup.com") (users st));
      cbn [Mongo.find_one has_email User.email Seed.admin_user
             Seed.test_user String.eqb Ascii.eqb Bool.eqb]; discriminate.
  - destruct (services st); cbn [app]; discriminate.
Qed.

End Seeding.

(** X26: the seeding script can be run again.  A run changes and removes
    nothing stored: it adds the admin account when no stored user has the
    email admin@boostup.com, the test account when none has user@test.com,
    and the thirteen sample services when no service is stored; it tests the
    emails only, so a stored user with the admin email, whatever its role,
    keeps the script from adding an admin.  A second run, whatever ids,
    times and salts it draws, writes nothing. *)
Theorem seed_database_runs_once
  (hashpw hashpw' : string -> string -> string)
  (uuid4 now gensalt uuid4' now' gensalt' : nat -> string) (st : Database) :
  let st' := Seed.seed_database hashpw uuid4 now gensalt st in
  Seed.seed_database hashpw' uuid4' now' gensalt' st' = st'
  /\ users st'
     = users st
       ++ (match Mongo.find_one (has_email "admin@boostup.com") (users st)
           with
           | None => [Seed.admin_user hashpw uuid4 now gensalt]
           | Some _ => []
           end)
       ++ (match Mongo.find_one (has_email "user@test.com") (users st) with
           | None => [Seed.test_user hashpw uuid4 now gensalt]
           | Some _ => []
           end)
  /\ services st'
     = match services st with
       | [] => Seed.services uuid4 now
       | _ :: _ => services st
       end
  /\ orders st' = orders st
  /\ transactions st' = transactions st.
Proof.
  intros st'. subst st'. split.
  - destruct (seed_database_seeded hashpw uuid4 now gensalt st)
      as (Hadmin & Huser & Hservices).
    destruct (seed_database_cases hashpw' uuid4' now' gensalt'
                (Seed.seed_database hashpw uuid4 now gensalt st))
      as (au & asv & -> & -> & ->).
    destruct (Mongo.find_one (has_email "admin@boostup.com") _);
      [| contradiction].
    destruct (Mongo.find_one (has_email "user@test.com") _);
      [| contradiction].
    destruct (services _) eqn:Hs; [contradiction |].
    destruct (Seed.seed_database hashpw uuid4 now gensalt st)
      as [us ss os ts].
    cbn [users services orders transactions app] in *.
    rewrite Hs, !app_nil_r. reflexivity.
  - destruct (seed_database_cases hashpw uuid4 now gensalt st)
      as (au & asv & -> & -> & ->).
    cbn [users services orders transactions]. repeat split.
    destruct (services st); [reflexivity | apply app_nil_r].
Qed.

(** X27: after seeding a store in which no user has the admin email or the
    id drawn for the admin, and with a library that verifies a password
    against its own hash, a login with admin@boostup.com and admin123 is
    answered with a token for the admin id, and a request carrying that id
    passes [get_admin_user]. *)
Theorem seeded_admin_signs_in
  (hashpw : string -> string -> string) (checkpw : string -> string -> bool)
  (jwt_encode : string -> string -> string)
  (uuid4 now gensalt : nat -> string) (st : Database) (exp : string) :
  (forall u, In u (users st) -> User.email u <> "admin@boostup.com") ->
  (forall u, In u (users st) -> User.id u <> uuid4 0%nat) ->
  checkpw "admin123" (hashpw "admin123" (gensalt 0%nat)) = true ->
  let st' := Seed.seed_database hashpw uuid4 now gensalt st in
  let admin := Seed.admin_user hashpw uuid4 now gensalt in
  run (login checkpw jwt_encode
         {| UserLogin.email := "admin@boostup.com";
            UserLogin.password := "admin123" |} exp) st'
  = (Ok (jwt_encode (uuid4 0%nat) exp, UserModel.of_document admin), st')
  /\ run (require_admin (Payload (uuid4 0%nat))) st' = (Ok admin, st').
Proof.
  intros Hemail Hid Hcheck st' admin. subst st' admin.
  apply no_user_has_email in Hemail.
  assert (Hnone : Mongo.find_one (User.has_id (uuid4 0%nat)) (users st)
                  = None).
  { apply find_one_None. intros u Hu. apply String.eqb_neq. now apply Hid. }
  destruct (seed_database_cases hashpw uuid4 now gensalt st)
    as (au & asv & Hseed & -> & _).
  rewrite Hemail in Hseed. rewrite Hseed. split.
  - unfold login. run_step. cbn [users UserLogin.email UserLogin.password].
    rewrite !find_one_app, Hemail.
    cbn [Mongo.find_one has_email User.email Seed.admin_user String.eqb
           Ascii.eqb Bool.eqb].
    unfold verify_password. cbn [User.password_hash Seed.admin_user].
    rewrite Hcheck. reflexivity.
  - rewrite run_require_admin_eq, run_get_current_user. cbn [users fst].
    rewrite !find_one_app, Hnone.
    cbn [app Mongo.find_one]. unfold User.has_id at 1.
    cbn [User.id Seed.admin_user]. rewrite String.eqb_refl. reflexivity.
Qed.

Lemma seeded_admin_signs_in_witness :
  let st' :=
    Seed.seed_database Plain.hashpw Run.uuid4 Run.now Run.gensalt
      (Scenario.store zero) in
  run (require_admin (Payload "uuid-0")) st'
  = (Ok (Seed.admin_user Plain.hashpw Run.uuid4 Run.now Run.gensalt), st').
Proof.
  apply (seeded_admin_signs_in Plain.hashpw Plain.checkpw Plain.jwt_encode
           Run.uuid4 Run.now Run.gensalt (Scenario.store zero)
           "2024-01-10T00:00:00+00:00").
  - intros u [<- | []]. discriminate.
  - intros u [<- | []]. discriminate.
  - reflexivity.
Defined.

(** ** The further properties on the example data *)

Lemma api_route_requires_authentication_witness :
  run (api_route Plain.hashpw Plain.checkpw Plain.jwt_encode
         (engine (POST_orders (Payload "mallory") (Scenario.order_data 500)
                    "order-1" "2024-01-02T00:00:00+00:00")))
    Rounding.store
  = (Err (HTTPException 401 "User not found"), Rounding.store)
  /\ exists detail,
       HTTPException 401 "User not found" = HTTPException 401 detail.
Proof.
  apply (api_route_requires_authentication
           Plain.hashpw Plain.checkpw Plain.jwt_encode
           (engine (POST_orders (Payload "mallory") (Scenario.order_data 500)
                      "order-1" "2024-01-02T00:00:00+00:00"))
           Rounding.store (Payload "mallory")
           (HTTPException 401 "User not found") eq_refl eq_refl).
Defined.

Lemma admin_routes_refuse_other_roles_witness :
  run (api_route Plain.hashpw Plain.checkpw Plain.jwt_encode
         (engine (PUT_admin_deposit (Payload "alice") "dep-1" "approve")))
    Rounding.store
  = (Err (HTTPException 403 "Admin access required"), Rounding.store).
Proof.
  apply (admin_routes_refuse_other_roles
           Plain.hashpw Plain.checkpw Plain.jwt_encode
           (engine (PUT_admin_deposit (Payload "alice") "dep-1" "approve"))
           Rounding.store (Payload "alice")
           (Scenario.user "alice" (ratio 1 10)) eq_refl eq_refl eq_refl).
  cbn [User.role Scenario.user]. discriminate.
Defined.

Lemma api_route_failure_writes_nothing_witness :
  snd (run (api_route Plain.hashpw Plain.checkpw Plain.jwt_encode
              (engine (PUT_admin_deposit (Payload "admin") "dep-9"
                         "approve")))
         Rounding.store)
  = Rounding.store.
Proof.
  apply (api_route_failure_writes_nothing
           Plain.hashpw Plain.checkpw Plain.jwt_encode
           (engine (PUT_admin_deposit (Payload "admin") "dep-9" "approve"))
           Rounding.store _ TransactionNotFound).
  reflexivity.
Defined.

Lemma create_order_empty_range_witness :
  run (create_order (Scenario.order_data 500)
         (Scenario.user "alice" (ratio 1000 1))
         "order-1" "2024-01-02T00:00:00+00:00") Reversed.store
  = (Err (QuantityOutOfRange 1000 100), Reversed.store).
Proof.
  apply (create_order_empty_range Reversed.store (Scenario.order_data 500)
           (Scenario.user "alice" (ratio 1000 1))
           "order-1" "2024-01-02T00:00:00+00:00" Reversed.service eq_refl).
  cbn [Service.max_quantity Service.min_quantity Reversed.service]. lia.
Defined.

Lemma no_stored_user_is_carol (u : User.t) :
  In u (users Rounding.store) ->
  User.email u <> UserRegister.email Signup.user_data.
Proof. intros [<- | [<- | []]]; discriminate. Qed.

Lemma register_then_login_witness :
  exists account,
    fst (run (login Plain.checkpw Plain.jwt_encode Signup.credentials
                "2024-01-10T00:00:00+00:00")
           (snd (run (register Plain.hashpw Plain.jwt_encode Signup.user_data
                        "user-3" "2024-01-03T00:00:00+00:00" "salt"
                        "2024-01-09T00:00:00+00:00")
                   Rounding.store)))
    = Ok (Plain.jwt_encode "user-3" "2024-01-10T00:00:00+00:00", account)
    /\ UserModel.id account = "user-3".
Proof.
  destruct (register_then_login Plain.hashpw Plain.checkpw Plain.jwt_encode
              Rounding.store Signup.user_data
              "user-3" "2024-01-03T00:00:00+00:00" "salt"
              "2024-01-09T00:00:00+00:00" "2024-01-10T00:00:00+00:00"
              no_stored_user_is_carol eq_refl)
    as (account & _ & Hid & Hlogin & _).
  exists account. split; [exact (f_equal fst Hlogin) | exact Hid].
Defined.

Lemma interleaved_registrations_share_an_email_witness :
  exists u1 u2 st',
    snd (interleave [0; 1; 0; 1]%nat
           [api_route Plain.hashpw Plain.checkpw Plain.jwt_encode
              (POST_auth_register Signup.user_data
                 "user-3" "2024-01-03T00:00:00+00:00" "salt" "exp");
            api_route Plain.hashpw Plain.checkpw Plain.jwt_encode
              (POST_auth_register Signup.user_data
                 "user-4" "2024-01-03T00:00:01+00:00" "salt" "exp")]
           Rounding.store)
    = st'
    /\ users st' = users Rounding.store ++ [u1; u2]
    /\ User.email u1 = "carol@test.com"
    /\ User.email u2 = "carol@test.com".
Proof.
  destruct (interleaved_registrations_share_an_email
              Plain.hashpw Plain.checkpw Plain.jwt_encode
              Rounding.store Signup.user_data Signup.user_data
              "user-3" "2024-01-03T00:00:00+00:00" "salt" "exp"
              "user-4" "2024-01-03T00:00:01+00:00" "salt" "exp"
              no_stored_user_is_carol eq_refl)
    as ((s1 & s2 & u1 & u2 & st' & Hrun & Husers & _ & _ & He1 & He2) & _).
  exists u1, u2, st'. rewrite Hrun. auto.
Defined.

Lemma no_request_makes_an_admin_witness :
  exists u, In u (users Rounding.store) /\ same_account u Scenario.admin.
Proof.
  apply (no_request_makes_an_admin
           Plain.hashpw Plain.checkpw Plain.jwt_encode []
           [engine (PUT_admin_deposit (Payload "admin") "dep-1" "approve");
            POST_auth_register Signup.user_data
              "user-3" "2024-01-03T00:00:00+00:00" "salt" "exp"]
           Rounding.store _ Scenario.admin (or_intror eq_refl)).
  - right. left. reflexivity.
  - reflexivity.
Defined.

Lemma get_stats_counts_requests_witness :
  exists before after,
    run (get_stats Scenario.admin) Rounding.store
    = (Ok before, Rounding.store)
    /\ pending_deposits before = 2
    /\ pending_deposits after = pending_deposits before + 1.
Proof.
  destruct (get_stats_counts_requests
              Plain.hashpw Plain.checkpw Plain.jwt_encode
              (engine (POST_user_deposit (Payload "alice") (ratio 5 1)
                         "dep-3" "2024-01-03T00:00:00+00:00"))
              Rounding.store Scenario.admin)
    as (before & after & Hbefore & _ & Hcount & _).
  - repeat constructor.
  - exists before, after. split; [exact Hbefore |]. split.
    + injection Hbefore as <-. reflexivity.
    + exact (proj2 (proj2 Hcount)).
Defined.
